(** * ppb-vector: the immutable 2D vector class [Vector2]

    A shallow embedding of [ppb_vector/vector2.py] and the properties of
    its construction, coercion, arithmetic and geometric operations.

    Modelling choices
    - Coordinates are IEEE-754 binary64 numbers: Rocq's primitive [float],
      whose [+ - * / sqrt abs] and comparisons are the ones Python's
      [float] uses.  Python's [/] on floats is not the IEEE one: it raises
      [ZeroDivisionError] on a zero divisor ([py_truediv]).
    - Exceptions are explicit: a computation ends in [Ret a] or [Raise e].
    - A [Vector2] instance is immutable (frozen dataclass), so an object is
      its identity together with its class and coordinates; the only
      state threaded through the code is the supply of fresh identities.
      "The same instance" ([is]) is the same identity.
    - A class is its name and its [__mro__]; subclasses of [Vector2] are
      assumed to inherit every method, [__init__] included.
    - The functions of the C library that Python's [math] module wraps
      ([hypot], [cos], [sin], [atan2]) are parameters of the development;
      what CPython adds around them (argument checks, [radians],
      [degrees], [copysign], [sqrt]) is modelled.
    - What the class takes from the standard library is modelled as the
      library defines it: [float()], [max], [math.isclose] and
      [dataclasses.replace] (the method [update]).  [__repr__], which
      formats floats, is left out. *)

From Stdlib Require Import ZArith List String Floats Bool Lia.
From stdpp Require Import base option gmap strings.

Set Warnings "-register-all".
Local Open Scope Z_scope.

(** ** Exceptions and the identity-supply monad *)

Inductive exn :=
| TypeError
| ValueError
| ZeroDivisionError
| OverflowError
| AttributeError
| KeyError
| IndexError
| UnboundLocalError.

#[global] Instance exn_eq_dec : EqDecision exn.
Proof. solve_decision. Defined.

Inductive outcome (A : Type) :=
| Ret (a : A)
| Raise (e : exn).
Arguments Ret {A} a.
Arguments Raise {A} e.

(** The state is the next unused object identity. *)
Definition M (A : Type) : Type := N -> outcome A * N.

Definition ret {A} (a : A) : M A := fun s => (Ret a, s).
Definition raise {A} (e : exn) : M A := fun s => (Raise e, s).
Definition lift {A} (o : outcome A) : M A := fun s => (o, s).
Definition bind {A B} (c : M A) (k : A -> M B) : M B :=
  fun s => match c s with
           | (Ret a, s') => k a s'
           | (Raise e, s') => (Raise e, s')
           end.

(** [try: c  except <handled>: h] *)
Definition try_except {A} (c : M A) (handled : exn -> bool) (h : exn -> M A) : M A :=
  fun s => match c s with
           | (Ret a, s') => (Ret a, s')
           | (Raise e, s') => if handled e then h e s' else (Raise e, s')
           end.

#[global] Instance M_ret : MRet M := @ret.
#[global] Instance M_bind : MBind M := fun A B k c => bind c k.

(** ** Classes *)

Record pyclass := PyClass {
  cls_name : string;
  cls_mro : list string   (* [__mro__]: the class itself first, [object] last *)
}.

#[global] Instance pyclass_eq_dec : EqDecision pyclass.
Proof. solve_decision. Defined.

(** [left is right] on classes *)
Definition class_is (left right : pyclass) : bool := bool_decide (left = right).

(** [issubclass(c, base)]: [base] occurs in [c.__mro__]. *)
Definition issubclass (c base : pyclass) : bool :=
  bool_decide (cls_name base ∈ cls_mro c).

Definition Vector2_cls : pyclass := PyClass "Vector2" ["Vector2"; "object"].
Definition float_cls : pyclass := PyClass "float" ["float"; "object"].
Definition int_cls : pyclass := PyClass "int" ["int"; "object"].
Definition bool_cls : pyclass := PyClass "bool" ["bool"; "int"; "object"].
Definition tuple_cls : pyclass := PyClass "tuple" ["tuple"; "object"].
Definition dict_cls : pyclass := PyClass "dict" ["dict"; "object"].
Definition str_cls : pyclass := PyClass "str" ["str"; "object"].
Definition bytes_cls : pyclass := PyClass "bytes" ["bytes"; "object"].
Definition NoneType_cls : pyclass := PyClass "NoneType" ["NoneType"; "object"].
Definition NotImplementedType_cls : pyclass :=
  PyClass "NotImplementedType" ["NotImplementedType"; "object"].

(** ** Values *)

(** An instance of [Vector2] or of a subclass: [x] and [y] are the two
    slots, [vtype] is [type(self)], [vid] the object's identity. *)
Record vector := Vec {
  vid : N;
  vtype : pyclass;
  x : float;
  y : float
}.

(** The Python values the operations are applied to.  [VTuple] stands for
    the [Sequence]s that [float()] refuses with a [TypeError]: tuples and
    lists, and a [range], which is the sequence of its [int]s.  The
    other builtin sequences hold text, which [float()] parses.
    [VStr r cs] is a [str], whose items are one-character strings: [r]
    is the outcome of [float()] on the string and [cs] holds, for each
    of its characters in order, the outcome of [float()] on that
    character (['12'] is [VStr (Ret 12) [Ret 1; Ret 2]]; on
    ['gibberish'] and on each of its nine characters [float()] raises
    [ValueError]); the text plays no other part in the code.
    [VBytes r bs] is a [bytes] or a [bytearray], whose items are the
    [int]s [bs]: [r] is again the outcome of [float()] on the whole
    ([b'12'] is [VBytes (Ret 12) [49; 50]]).  [VDict] is a [dict] with
    [str] keys (the [Mapping]s).  [VOther c r] is any other object: an
    instance of a class [c] that is not a vector, a sequence or a
    mapping class, on which [float()] has the outcome [r] ([None]
    raises [TypeError], a [Fraction] returns its value). *)
Inductive value :=
| VFloat (f : float)
| VInt (n : Z)
| VBool (b : bool)
| VTuple (items : list value)
| VStr (as_float : outcome float) (chars : list (outcome float))
| VBytes (as_float : outcome float) (bytes : list Z)
| VDict (items : gmap string value)
| VVec (v : vector)
| VOther (c : pyclass) (as_float : outcome float)
| VNotImplemented.

Definition VNone : value := VOther NoneType_cls (Raise TypeError).

(** The one-character string [s[i]], given the outcome of [float()] on
    it: its only character is itself. *)
Definition str_item (c : outcome float) : value := VStr c [c].

(** [type(v)] *)
Definition type_of (v : value) : pyclass :=
  match v with
  | VFloat _ => float_cls
  | VInt _ => int_cls
  | VBool _ => bool_cls
  | VTuple _ => tuple_cls
  | VStr _ _ => str_cls
  | VBytes _ _ => bytes_cls
  | VDict _ => dict_cls
  | VVec v => vtype v
  | VOther c _ => c
  | VNotImplemented => NotImplementedType_cls
  end.

Definition isinstance (v : value) (c : pyclass) : bool := issubclass (type_of v) c.

(** What a vector is subscripted with in [v[item]]: a [str]; an [int]; a
    [bool], whose [__index__] is [0] or [1]; an object of another type
    that has an [__index__] method, with the [int] it returns; or any
    other object (a [float], [None], a [slice], a tuple). *)
Inductive subscript :=
| SStr (k : string)
| SInt (i : Z)
| SBool (b : bool)
| SIndex (i : Z)
| SOther.

(** ** Floats as Python has them *)

(** [float(n)] for an [int]: the nearest double, ties to even;
    [OverflowError] when that is out of range. *)
Definition int_to_float (n : Z) : outcome float :=
  match binary_normalize prec emax n 0 false with
  | S754_infinity _ => Raise OverflowError
  | sf => Ret (SF2Prim sf)
  end.

(** The builtin [float(v)] *)
Definition py_float (v : value) : outcome float :=
  match v with
  | VFloat f => Ret f
  | VInt n => int_to_float n
  | VBool b => Ret (if b then 1 else 0)%float
  | VStr r _ => r
  | VBytes r _ => r
  | VOther _ r => r
  | VTuple _ | VDict _ | VVec _ | VNotImplemented => Raise TypeError
  end.

(** [a / b] on floats *)
Definition py_truediv (a b : float) : outcome float :=
  if (b =? 0)%float then Raise ZeroDivisionError else Ret (a / b)%float.

Definition is_finite (f : float) : bool := negb (is_nan f) && negb (is_infinity f).

(** [math.copysign(a, b)]: the magnitude of [a] with the sign of [b] *)
Definition copysign (a b : float) : float :=
  if get_sign b then (- (abs a))%float else abs a.

Definition Py_MATH_PI : float := 0x1.921fb54442d18p+1%float.
Definition degToRad : float := (Py_MATH_PI / 180)%float.
Definition radToDeg : float := (180 / Py_MATH_PI)%float.

Definition radians (a : float) : float := (a * degToRad)%float.
Definition degrees (a : float) : float := (a * radToDeg)%float.

(** CPython's [math_1]: a one-argument libm function with its error
    checks ([can_overflow] is false for [cos], [sin] and [sqrt]). *)
Definition math_1 (func : float -> float) (a : float) : outcome float :=
  let r := func a in
  if is_nan r && negb (is_nan a) then Raise ValueError
  else if is_infinity r && is_finite a then Raise ValueError
  else Ret r.

Definition math_sqrt : float -> outcome float := math_1 PrimFloat.sqrt.

(** CPython's [m_atan2]: the special cases are decided before libm is
    called. *)
Definition m_atan2 (libm_atan2 : float -> float -> float) (b a : float) : float :=
  if is_nan a || is_nan b then nan
  else if is_infinity b then
    if is_infinity a then
      if (copysign 1 a =? 1)%float then copysign (0.25 * Py_MATH_PI) b
      else copysign (0.75 * Py_MATH_PI) b
    else copysign (0.5 * Py_MATH_PI) b
  else if is_infinity a || (b =? 0)%float then
    if (copysign 1 a =? 1)%float then copysign 0 b
    else copysign Py_MATH_PI b
  else libm_atan2 b a.

(** CPython's [math_2] around [m_atan2] *)
Definition math_atan2 (libm_atan2 : float -> float -> float) (b a : float)
  : outcome float :=
  let r := m_atan2 libm_atan2 b a in
  if is_nan r then
    if negb (is_nan b) && negb (is_nan a) then Raise ValueError else Ret r
  else if is_infinity r then
    if is_finite b && is_finite a then Raise OverflowError else Ret r
  else Ret r.

(** The builtin [max] on floats: an item replaces the running maximum
    when it compares greater than it. *)
Definition py_max (first : float) (rest : list float) : float :=
  fold_left (fun maxval item => if (maxval <? item)%float then item else maxval)
            rest first.

(** The default [rel_tol] and [abs_tol] of [Vector2.isclose] and the
    default [rel_tol] of [math.isclose]: the double that [1e-09]
    denotes. *)
Definition default_tol : float := 0x1.12e0be826d695p-30%float.

(** CPython's [math.isclose(a, b, rel_tol=..., abs_tol=...)] *)
Definition math_isclose (a b rel_tol abs_tol : float) : outcome bool :=
  if (rel_tol <? 0)%float || (abs_tol <? 0)%float then Raise ValueError
  else if (a =? b)%float then Ret true
  else if is_infinity a || is_infinity b then Ret false
  else
    let diff := abs (b - a)%float in
    Ret ((diff <=? abs (rel_tol * b))%float || (diff <=? abs (rel_tol * a))%float
         || (diff <=? abs_tol)%float).

(** ** Result-type resolution *)

(** [_find_lowest_type]: the class with the larger [set(__mro__)], the
    left one on a tie ([functools.lru_cache] only memoizes). *)
Definition _find_lowest_type (left right : pyclass) : pyclass :=
  let lmro : gset string := list_to_set (cls_mro left) in
  let rmro : gset string := list_to_set (cls_mro right) in
  if bool_decide (size rmro < size lmro)%nat then left
  else if bool_decide (size lmro < size rmro)%nat then right
  else left.

Definition _find_lowest_vector (left right : pyclass) : pyclass :=
  if class_is left right then left
  else if negb (issubclass left Vector2_cls) then right
  else if negb (issubclass right Vector2_cls) then left
  else _find_lowest_type left right.

(** ** The class [Vector2] *)

Module Vector2.

(** [object.__new__(cls)] followed by the two [object.__setattr__]: the
    instance is observable only once [__init__] has returned, so it takes
    its identity at that point. *)
Definition new_object (cls : pyclass) (fx fy : float) : M vector :=
  fun s => (Ret (Vec s cls fx fy), N.succ s).

(** [try: float(v)  except ValueError: raise TypeError(...)] *)
Definition coordinate (v : value) : outcome float :=
  match py_float v with
  | Raise ValueError => Raise TypeError
  | r => r
  end.

(** The end of [__init__], once [x] and [y] are bound. *)
Definition set_coordinates (cls : pyclass) (a b : value) : M vector :=
  fx ← lift (coordinate a);
  fy ← lift (coordinate b);
  new_object cls fx fy.

(** [value[k]] on a [dict] *)
Definition dict_getitem (d : gmap string value) (k : string) : M value :=
  match d !! k with
  | Some v => mret v
  | None => raise KeyError
  end.

(** [cls.convert(value)].  [cls(a, b)] is [__init__] with two positional
    arguments, which goes straight to [set_coordinates]
    (see [init_two_positional] below). *)
Definition convert (cls : pyclass) (value : value) : M vector :=
  match value with
  | VVec v =>
      if isinstance value cls then mret v
      else if isinstance value Vector2_cls then
        set_coordinates cls (VFloat (x v)) (VFloat (y v))
      else
        (* [Sequence.register(Vector2)], [len(value) == 2],
           [value[0]] and [value[1]] are the two slots *)
        set_coordinates cls (VFloat (x v)) (VFloat (y v))
  | VTuple [a; b] => set_coordinates cls a b
  | VStr _ [a; b] =>
      (* a [str] of two characters is a [Sequence] of length two *)
      set_coordinates cls (str_item a) (str_item b)
  | VBytes _ [a; b] => set_coordinates cls (VInt a) (VInt b)
  | VDict d =>
      if bool_decide (is_Some (d !! "x")) && bool_decide (is_Some (d !! "y"))
         && bool_decide (size d = 2%nat)
      then
        a ← dict_getitem d "x";
        b ← dict_getitem d "y";
        set_coordinates cls a b
      else raise ValueError
  | _ => raise ValueError
  end.

(** Instantiation [cls(...)] with positional arguments [args] and keyword
    arguments [kwargs]: [Vector2.__init__]. *)
Definition __init__ (cls : pyclass) (args : list value) (kwargs : gmap string value)
  : M vector :=
  if bool_decide (args ≠ []) && bool_decide (kwargs ≠ ∅) then raise TypeError
  else if bool_decide (args = []) && bool_decide (kwargs = ∅)
          || bool_decide (2 < length args)%nat then raise TypeError
  else if bool_decide (kwargs ≠ ∅) && bool_decide (dom kwargs ≠ ({["x"; "y"]} : gset string))
  then
    (* the message is built with [kwargs.keys().join], and a
       [dict_keys] object has no attribute [join] *)
    raise AttributeError
  else
    '(a, b) ←
      (if bool_decide (kwargs ≠ ∅) then
         a ← dict_getitem kwargs "x";
         b ← dict_getitem kwargs "y";
         mret (a, b)
       else
         match args with
         | [v] =>
             (* [x, y = Vector2.convert(args[0])]: unpacked by [__iter__] *)
             o ← convert Vector2_cls v;
             mret (VFloat (x o), VFloat (y o))
         | [a; b] => mret (a, b)
         | _ => raise UnboundLocalError
         end);
    set_coordinates cls a b.

Definition asdict (self : vector) : value :=
  VDict (<["x" := VFloat (x self)]> (<["y" := VFloat (y self)]> ∅)).

(** *** Arithmetic *)

(** [try: other = Vector2.convert(other)  except <handled>: return
    NotImplemented]: [None] stands for the early return. *)
Definition convert_or_NotImplemented (handled : exn -> bool) (other : value)
  : M (option vector) :=
  try_except (o ← convert Vector2_cls other; mret (Some o))
             handled (fun _ => mret None).

Definition __add__ (self : vector) (other : value) : M value :=
  let rtype := _find_lowest_vector (type_of other) (vtype self) in
  r ← convert_or_NotImplemented (fun e => bool_decide (e = ValueError)) other;
  match r with
  | None => mret VNotImplemented
  | Some other =>
      v ← __init__ rtype [VFloat (x self + x other); VFloat (y self + y other)] ∅;
      mret (VVec v)
  end.

Definition __sub__ (self : vector) (other : value) : M value :=
  let rtype := _find_lowest_vector (type_of other) (vtype self) in
  r ← convert_or_NotImplemented (fun e => bool_decide (e = ValueError)) other;
  match r with
  | None => mret VNotImplemented
  | Some other =>
      v ← __init__ rtype [VFloat (x self - x other); VFloat (y self - y other)] ∅;
      mret (VVec v)
  end.

Definition dot (self : vector) (other : value) : M float :=
  other ← convert Vector2_cls other;
  mret (x self * x other + y self * y other)%float.

Definition scale_by (self : vector) (other : value) : M vector :=
  other ← lift (py_float other);
  __init__ (vtype self) [VFloat (x self * other); VFloat (y self * other)] ∅.

Definition __mul__ (self : vector) (other : value) : M value :=
  if isinstance other float_cls || isinstance other int_cls then
    v ← scale_by self other; mret (VVec v)
  else
    try_except (d ← dot self other; mret (VFloat d))
               (fun e => bool_decide (e = TypeError) || bool_decide (e = ValueError))
               (fun _ => mret VNotImplemented).

Definition __rmul__ (self : vector) (other : value) : M value :=
  __mul__ self other.

Definition __truediv__ (self : vector) (other : value) : M vector :=
  other ← lift (py_float other);
  qx ← lift (py_truediv (x self) other);
  qy ← lift (py_truediv (y self) other);
  __init__ (vtype self) [VFloat qx; VFloat qy] ∅.

Definition __eq__ (self : vector) (other : value) : M value :=
  r ← convert_or_NotImplemented
        (fun e => bool_decide (e = TypeError) || bool_decide (e = ValueError)) other;
  match r with
  | None => mret VNotImplemented
  | Some other => mret (VBool ((x self =? x other)%float && (y self =? y other)%float))
  end.

Definition __neg__ (self : vector) : M vector :=
  scale_by self (VInt (-1)).

(** *** The sequence and mapping protocols *)

Definition __len__ (self : vector) : Z := 2.

Definition __getitem__ (self : vector) (item : subscript) : outcome float :=
  (* [if hasattr(item, '__index__'): item = item.__index__()] *)
  let item := match item with
              | SBool b => SInt (if b then 1 else 0)
              | SIndex i => SInt i
              | _ => item
              end in
  match item with
  | SStr k =>
      if String.eqb k "x" then Ret (x self)
      else if String.eqb k "y" then Ret (y self)
      else Raise KeyError
  | SInt i =>
      if i =? 0 then Ret (x self)
      else if i =? 1 then Ret (y self)
      else Raise IndexError
  | _ => Raise TypeError
  end.

(** The generator [__iter__], as the list of what it yields. *)
Definition __iter__ (self : vector) : list float := [x self; y self].

(** [update = dataclasses.replace]: every field that [changes] does not
    name is taken from [self], then [type(self)] is called with the
    fields as keyword arguments. *)
Definition update (self : vector) (changes : gmap string value) : M vector :=
  let changes :=
    if bool_decide (is_Some (changes !! "x")) then changes
    else <["x" := VFloat (x self)]> changes in
  let changes :=
    if bool_decide (is_Some (changes !! "y")) then changes
    else <["y" := VFloat (y self)]> changes in
  __init__ (vtype self) [] changes.

(** *** Geometry: the operations that go through the C library *)

Section Libm.

Variable hypot : float -> float -> float.
Variables cos sin : float -> float.
Variable atan2 : float -> float -> float.

(** The property [length]: [math.hypot] returns what libm computes. *)
Definition length (self : vector) : float := hypot (x self) (y self).

Definition angle (self : vector) (other : value) : M float :=
  other ← convert Vector2_cls other;
  a_other ← lift (math_atan2 atan2 (x other) (- y other)%float);
  a_self ← lift (math_atan2 atan2 (x self) (- y self)%float);
  let rv := degrees (a_other - a_self)%float in
  if (rv <=? -180)%float then mret (rv + 360)%float
  else if (180 <? rv)%float then mret (rv - 360)%float
  else mret rv.

(** The angle is taken after [math.radians] has converted it to a C
    double. *)
Definition _trig (angle : float) : outcome (float * float) :=
  let r := radians angle in
  match math_1 cos r with
  | Raise e => Raise e
  | Ret r_cos =>
      match math_1 sin r with
      | Raise e => Raise e
      | Ret r_sin =>
          if (abs r_sin <? abs r_cos)%float then
            match math_sqrt (1 - r_cos * r_cos)%float with
            | Raise e => Raise e
            | Ret root => Ret (r_cos, copysign root r_sin)
            end
          else
            match math_sqrt (1 - r_sin * r_sin)%float with
            | Raise e => Raise e
            | Ret root => Ret (copysign root r_cos, r_sin)
            end
      end
  end.

Definition rotate (self : vector) (angle : float) : M vector :=
  '(r_cos, r_sin) ← lift (_trig angle);
  let x' := (x self * r_cos - y self * r_sin)%float in
  let y' := (x self * r_sin + y self * r_cos)%float in
  __init__ (vtype self) [VFloat x'; VFloat y'] ∅.

Definition scale_to (self : vector) (length_ : value) : M vector :=
  length_ ← lift (py_float length_);
  if (length_ <? 0)%float then raise ValueError
  else if (length_ =? 0)%float then __init__ (vtype self) [VInt 0; VInt 0] ∅
  else
    (* [length * self]: [float.__mul__] answers [NotImplemented] for a
       vector, so the reflected [self.__rmul__(length)] runs *)
    scaled ← __rmul__ self (VFloat length_);
    match scaled with
    | VVec scaled => __truediv__ scaled (VFloat (length self))
    | _ => raise TypeError
    end.

Definition scale := scale_to.

Definition normalize (self : vector) : M vector :=
  scale self (VInt 1).

Definition truncate (self : vector) (max_length : value) : M vector :=
  max_length ← lift (py_float max_length);
  if (length self <=? max_length)%float then mret self
  else scale_to self (VFloat max_length).

(** [map(lambda v: Vector2.convert(v).length, rel_to)], consumed by the
    call of [max]. *)
Fixpoint rel_lengths (rel_to : list value) : M (list float) :=
  match rel_to with
  | [] => mret []
  | v :: rest =>
      o ← convert Vector2_cls v;
      ls ← rel_lengths rest;
      mret (length o :: ls)
  end.

(** [self.isclose(other, abs_tol=..., rel_tol=..., rel_to=...)] *)
Definition isclose (self : vector) (other abs_tol rel_tol : value)
           (rel_to : list value) : M bool :=
  abs_tol ← lift (py_float abs_tol);
  rel_tol ← lift (py_float rel_tol);
  if (abs_tol <? 0)%float || (rel_tol <? 0)%float then raise ValueError
  else
    other ← convert Vector2_cls other;
    ls ← rel_lengths rel_to;
    let rel_length := py_max (length self) (length other :: ls) in
    d ← __sub__ self (VVec other);
    match d with
    | VVec d =>
        let diff := length d in
        mret ((diff <=? rel_tol * rel_length)%float || (diff <=? abs_tol)%float)
    | _ => raise TypeError
    end.

(** [self.reflect(surface_normal)].  In the last line, [self *
    surface_normal] is [__mul__]; [2 * d] is the product of two floats;
    [float.__mul__] answers [NotImplemented] for a vector, so the product
    with [surface_normal] is its [__rmul__]; and the difference is
    [__sub__]. *)
Definition reflect (self : vector) (surface_normal : value) : M vector :=
  surface_normal ← convert Vector2_cls surface_normal;
  close ← lift (math_isclose (length surface_normal) 1 default_tol 0);
  if negb close then raise ValueError
  else
    d ← __mul__ self (VVec surface_normal);
    match d with
    | VFloat d =>
        scaled ← __rmul__ surface_normal (VFloat (2 * d));
        r ← __sub__ self scaled;
        match r with
        | VVec r => mret r
        | _ => raise TypeError
        end
    | _ => raise TypeError
    end.

End Libm.

End Vector2.

(** * Definitions used by the statements *)

(** ** Classes and values of the examples *)

(** A class heads its own [__mro__]. *)
Definition wf_class (c : pyclass) : Prop := head (cls_mro c) = Some (cls_name c).

(** A subclass of [Vector2], as an application would declare it. *)
Definition Position_cls : pyclass :=
  PyClass "Position" ["Position"; "Vector2"; "object"].

(** A string that does not spell a number. *)
Definition gibberish : value :=
  VStr (Raise ValueError) (replicate 9 (Raise ValueError)).

(** The shapes that [convert] accepts: a vector, a sequence of two
    items (a string of two characters and a [bytes] of length two are
    such sequences), a mapping whose keys are exactly [x] and [y]. *)
Definition vector_like (v : value) : bool :=
  match v with
  | VVec _ => true
  | VTuple [_; _] => true
  | VStr _ [_; _] => true
  | VBytes _ [_; _] => true
  | VDict d => bool_decide (dom d = ({["x"; "y"]} : gset string))
  | _ => false
  end.

(** Two outcomes of a construction agree but for the identity of what
    is built: instances of the same class with the same coordinates, or
    the same exception. *)
Definition same_but_identity (r1 r2 : outcome vector * N) : Prop :=
  match fst r1, fst r2 with
  | Ret v1, Ret v2 => vtype v1 = vtype v2 /\ x v1 = x v2 /\ y v1 = y v2
  | Raise e1, Raise e2 => e1 = e2
  | _, _ => False
  end.

(** The mapping [{'x': a, 'y': b}] *)
Definition xy_dict (a b : value) : gmap string value :=
  <["x" := a]> (<["y" := b]> ∅).

(** No [TypeError] and no [ValueError] comes out. *)
Definition soft {A} (r : outcome A * N) : Prop :=
  match fst r with
  | Raise e => e <> TypeError /\ e <> ValueError
  | Ret _ => True
  end.

(** An instance of [Vector2] or of a subclass of it that is not a number
    class as well. *)
Definition plain_vector (v : vector) : Prop :=
  isinstance (VVec v) Vector2_cls = true
  /\ isinstance (VVec v) float_cls = false
  /\ isinstance (VVec v) int_cls = false.

(** ** Binary64 numbers as integers *)

Abbreviation fexp64 := (fexp prec emax).

(** The record that [shr] holds after [n >= 1] steps on the mantissa [m]:
    the quotient, whether the remainder reaches half of [2^n], and
    whether anything lies below that half. *)
Definition shr_state (m n : Z) : shr_record :=
  {| shr_m := m / 2 ^ n;
     shr_r := 2 ^ (n - 1) <=? m mod 2 ^ n;
     shr_s := negb (m mod 2 ^ (n - 1) =? 0) |}.

(** Rounding to nearest, ties to even, of [m / 2^n]. *)
Definition rne (m n : Z) : Z :=
  let q := m / 2 ^ n in
  let rem := m mod 2 ^ n in
  if 2 * rem <? 2 ^ n then q
  else if 2 ^ n <? 2 * rem then q + 1
  else if Z.even q then q else q + 1.

(** What [binary_round_aux] returns is zero or finite and no larger than
    a power of two that bounds its argument. *)
Definition mag_le (k : Z) (f : spec_float) : Prop :=
  match f with
  | S754_zero _ => True
  | S754_finite _ m e => e <= k /\ Zpos m <= 2 ^ (k - e)
  | _ => False
  end.

(** The value of a finite number in units of [2^-1074], the smallest
    positive binary64 number; [0] for what is not finite. *)
Definition SF2Z (f : spec_float) : Z :=
  match f with
  | S754_finite s m e => cond_Zopp s (Zpos m * 2 ^ (e + 1074))
  | _ => 0
  end.

Definition SFfinite (f : spec_float) : bool :=
  match f with
  | S754_zero _ | S754_finite _ _ _ => true
  | _ => false
  end.

(** The same for primitive floats, through [Prim2SF]. *)
Definition F2Z (a : float) : Z := SF2Z (Prim2SF a).

Definition Ffinite (a : float) : bool := SFfinite (Prim2SF a).

(** [a] is finite and [|a| <= 2^k]. *)
Definition Fbounded (k : Z) (a : float) : Prop :=
  Ffinite a = true /\ (Z.abs (F2Z a) <= 2 ^ (k + 1074))%Z.

(** [x] is the negation of [y], or both are [+0]: how the result of an
    operation and that of the mirrored operation are related. *)
Definition mirrored (x y : spec_float) : Prop :=
  x = SFopp y \/ (x = S754_zero false /\ y = S754_zero false).

(** The same on primitive floats. *)
Definition Fmirrored (x y : float) : Prop :=
  x = (- y)%float \/ (x = 0%float /\ y = 0%float).

(** A NaN, or a number whose sign bit is clear. *)
Definition nonneg_or_nan (f : spec_float) : Prop :=
  match f with
  | S754_zero false | S754_infinity false | S754_finite false _ _ | S754_nan => True
  | _ => False
  end.

Local Open Scope float_scope.

(** ** Stand-ins for the C library

    The examples that run the model need an instance of the libm
    functions.  Each stand-in below agrees with libm on the inputs the
    examples use. *)

(** The textbook formula for the hypotenuse: an instance of libm's
    [hypot] for the examples that run the model. *)
Definition naive_hypot (a b : float) : float := sqrt (a * a + b * b).

(** The unit circle's four axis points, as a stand-in for libm's
    [cos] and [sin] where an example turns by a multiple of a right
    angle; any other angle is outside what it is meant for. *)
Definition axis_cos (r : float) : float :=
  if (r =? 0) then 1 else if (abs r =? Py_MATH_PI) then -1 else 0.

Definition axis_sin (r : float) : float :=
  if (r =? radians 90) then 1 else if (r =? radians (-90)) then -1 else 0.

(** libm's [atan2] on the vertical axis, where it is a right angle. *)
Definition axis_atan2 (b a : float) : float :=
  if a =? 0 then copysign (0.5 * Py_MATH_PI) b else 0.

(** What C99 promises of [atan2] on arguments that are not NaN: an angle
    between [-pi] and [pi].  (Of a NaN argument it returns a NaN, and
    CPython does not call it on one.) *)
Definition atan2_in_range (atan2 : float -> float -> float) : Prop :=
  forall b a : float,
    is_nan b = false -> is_nan a = false ->
    (- Py_MATH_PI <=? atan2 b a) = true /\ (atan2 b a <=? Py_MATH_PI) = true.

(** libm's [cos] and [sin] on some more arguments: a NaN argument is
    returned as it is (C99, annex F); at a third of a turn clockwise,
    [radians (-120)], the values are those of glibc; elsewhere these
    stand-ins are [axis_cos] and [axis_sin]. *)
Definition sample_cos (r : float) : float :=
  if is_nan r then r
  else if r =? radians (-120) then -0x1.ffffffffffffcp-2
  else axis_cos r.

Definition sample_sin (r : float) : float :=
  if is_nan r then r
  else if r =? radians (-120) then -0x1.bb67ae8584cabp-1
  else axis_sin r.

(** The [rel_tol] of the repository's test of the trigonometric
    identity: the double that [1e-18] denotes. *)
Definition identity_rel_tol : float := 0x1.2725dd1d243acp-60.

Local Close Scope float_scope.

(** * Binary64 arithmetic *)

(** ** Binary64 rounding, in integers *)

Lemma digits2_pos_bounds (p : positive) :
  2 ^ (Zpos (digits2_pos p) - 1) <= Zpos p < 2 ^ Zpos (digits2_pos p).
Proof.
  induction p as [p IH|p IH|]; simpl digits2_pos.
  - rewrite Pos2Z.inj_succ.
    replace (Z.succ (Zpos (digits2_pos p)) - 1) with (Z.succ (Zpos (digits2_pos p) - 1)) by lia.
    rewrite !Z.pow_succ_r by lia. lia.
  - rewrite Pos2Z.inj_succ.
    replace (Z.succ (Zpos (digits2_pos p)) - 1) with (Z.succ (Zpos (digits2_pos p) - 1)) by lia.
    rewrite !Z.pow_succ_r by lia. lia.
  - simpl. lia.
Qed.

Lemma iter_xO_val (m d : positive) : Zpos (Pos.iter xO m d) = Zpos m * 2 ^ Zpos d.
Proof.
  induction d as [|d IH] using Pos.peano_ind.
  - simpl. lia.
  - rewrite Pos.iter_succ, Pos2Z.inj_succ, Z.pow_succ_r by lia.
    rewrite Pos2Z.inj_xO, IH. lia.
Qed.

Lemma iter_xO_digits (m d : positive) :
  Zpos (digits2_pos (Pos.iter xO m d)) = Zpos (digits2_pos m) + Zpos d.
Proof.
  induction d as [|d IH] using Pos.peano_ind.
  - simpl. lia.
  - rewrite Pos.iter_succ. simpl digits2_pos. rewrite Pos2Z.inj_succ, IH. lia.
Qed.

Lemma iter_pos_nat {A} (f : A -> A) (p : positive) (a : A) :
  SpecFloat.iter_pos f p a = Nat.iter (Pos.to_nat p) f a.
Proof.
  revert a. induction p as [p IH|p IH|]; intros a; simpl SpecFloat.iter_pos.
  - rewrite !IH.
    replace (Pos.to_nat p~1) with (Pos.to_nat p + (Pos.to_nat p + 1))%nat by lia.
    rewrite !Nat.iter_add. reflexivity.
  - rewrite !IH.
    replace (Pos.to_nat p~0) with (Pos.to_nat p + Pos.to_nat p)%nat by lia.
    rewrite Nat.iter_add. reflexivity.
  - reflexivity.
Qed.

Lemma shr_1_nonneg (m : Z) (r s : bool) :
  0 <= m ->
  shr_1 {| shr_m := m; shr_r := r; shr_s := s |} =
    {| shr_m := m / 2; shr_r := Z.odd m; shr_s := r || s |}.
Proof.
  intros Hm. rewrite <- Z.div2_div.
  destruct m as [|[p|p|]|p]; try reflexivity. lia.
Qed.

Lemma mod_pow2_succ (m n : Z) :
  0 <= n ->
  m mod 2 ^ (n + 1) = m mod 2 ^ n + 2 ^ n * (if Z.odd (m / 2 ^ n) then 1 else 0).
Proof.
  intros Hn. rewrite Z.pow_add_r, Z.pow_1_r by lia.
  rewrite Z.rem_mul_r by lia. rewrite Zmod_odd. reflexivity.
Qed.

Lemma shr_state_first (m : Z) :
  0 <= m ->
  shr_1 {| shr_m := m; shr_r := false; shr_s := false |} = shr_state m 1.
Proof.
  intros Hm. rewrite shr_1_nonneg by assumption. unfold shr_state.
  change (2 ^ (1 - 1)) with 1. change (2 ^ 1) with 2.
  rewrite Z.mod_1_r, Zmod_odd. simpl.
  destruct (Z.odd m); reflexivity.
Qed.

Lemma shr_state_next (m n : Z) :
  0 <= m -> 1 <= n ->
  shr_1 (shr_state m n) = shr_state m (n + 1).
Proof.
  intros Hm Hn. unfold shr_state at 1.
  assert (0 < 2 ^ n) as Hp by (apply Z.pow_pos_nonneg; lia).
  assert (0 < 2 ^ (n - 1)) as Hp' by (apply Z.pow_pos_nonneg; lia).
  rewrite shr_1_nonneg by (apply Z.div_pos; lia).
  unfold shr_state. replace (n + 1 - 1) with n by lia.
  f_equal.
  - rewrite Z.div_div by lia. rewrite Z.pow_add_r, Z.pow_1_r by lia. reflexivity.
  - rewrite (mod_pow2_succ m n) by lia.
    pose proof (Z.mod_pos_bound m (2 ^ n) Hp).
    destruct (Z.odd (m / 2 ^ n)); symmetry; [apply Z.leb_le | apply Z.leb_gt]; lia.
  - pose proof (mod_pow2_succ m (n - 1) ltac:(lia)) as E.
    replace (n - 1 + 1) with n in E by lia.
    pose proof (Z.mod_pos_bound m (2 ^ (n - 1)) Hp').
    rewrite E.
    destruct (Z.odd (m / 2 ^ (n - 1))).
    + rewrite (proj2 (Z.leb_le _ _)) by lia. simpl.
      symmetry. apply negb_true_iff, Z.eqb_neq. lia.
    + rewrite (proj2 (Z.leb_gt _ _)) by lia. simpl.
      rewrite Z.mul_0_r, Z.add_0_r. reflexivity.
Qed.

Lemma shr_iter (m : Z) (p : positive) :
  0 <= m ->
  SpecFloat.iter_pos shr_1 p {| shr_m := m; shr_r := false; shr_s := false |} =
    shr_state m (Zpos p).
Proof.
  intros Hm. rewrite iter_pos_nat.
  destruct (Pos2Nat.is_succ p) as [k Hk]. rewrite <- (Pos2Nat.id p) at 2.
  rewrite Hk. clear Hk.
  induction k as [|k IH].
  - simpl Nat.iter. apply shr_state_first; assumption.
  - change (Nat.iter (S (S k)) shr_1 ?a) with (shr_1 (Nat.iter (S k) shr_1 a)).
    rewrite IH. rewrite shr_state_next by lia.
    f_equal. lia.
Qed.

(** Rounding to nearest after a shift by [n]: the result is within half
    a unit of the exact quotient. *)
Lemma round_shr_state (m n : Z) :
  0 <= m -> 1 <= n ->
  let m2 := round_nearest_even (shr_m (shr_state m n))
                               (loc_of_shr_record (shr_state m n)) in
  m / 2 ^ n <= m2 <= m / 2 ^ n + 1
  /\ 2 * m - 2 ^ n <= 2 * (m2 * 2 ^ n) <= 2 * m + 2 ^ n.
Proof.
  intros Hm Hn. unfold shr_state. simpl.
  assert (0 < 2 ^ (n - 1)) as Hp' by (apply Z.pow_pos_nonneg; lia).
  assert (2 ^ n = 2 * 2 ^ (n - 1)) as E2.
  { replace n with (n - 1 + 1) at 1 by lia. rewrite Z.pow_add_r by lia. lia. }
  pose proof (mod_pow2_succ m (n - 1) ltac:(lia)) as E.
  replace (n - 1 + 1) with n in E by lia.
  pose proof (Z.mod_pos_bound m (2 ^ (n - 1)) Hp') as Hb.
  pose proof (Z.div_mod m (2 ^ n) ltac:(lia)) as Hdm.
  set (q := m / 2 ^ n) in *. set (rm := m mod 2 ^ n) in *.
  set (lo := m mod 2 ^ (n - 1)) in *.
  destruct (Z.odd (m / 2 ^ (n - 1))).
  - rewrite (proj2 (Z.leb_le (2 ^ (n - 1)) rm)) by lia.
    destruct (Z.eqb_spec lo 0) as [H0|H0]; simpl.
    + destruct (Z.even q); nia.
    + nia.
  - rewrite (proj2 (Z.leb_gt (2 ^ (n - 1)) rm)) by lia.
    destruct (negb (lo =? 0)); simpl; nia.
Qed.

Lemma fexp64_eq (e : Z) : fexp64 e = Z.max (e - 53) (-1074).
Proof. reflexivity. Qed.

Lemma shr_fexp_exact (m e : Z) :
  0 <= m ->
  shr_fexp prec emax m e loc_Exact =
    let n := fexp64 (Zdigits2 m + e) - e in
    if 0 <? n then (shr_state m n, e + n)
    else ({| shr_m := m; shr_r := false; shr_s := false |}, e).
Proof.
  intros Hm. unfold shr_fexp, shr. simpl shr_record_of_loc.
  destruct (fexp64 (Zdigits2 m + e) - e) as [|p|p] eqn:E; simpl; try reflexivity.
  rewrite shr_iter by assumption. reflexivity.
Qed.

Lemma pow2_pos (n : Z) : 0 <= n -> 0 < 2 ^ n.
Proof. intros. apply Z.pow_pos_nonneg; lia. Qed.

Lemma pow2_split (a b : Z) : 0 <= b <= a -> 2 ^ a = 2 ^ (a - b) * 2 ^ b.
Proof. intros H. rewrite <- Z.pow_add_r by lia. f_equal. lia. Qed.

Lemma digits_le_pow2 (m : positive) (j : Z) :
  Zpos m <= 2 ^ j -> Zpos (digits2_pos m) - 1 <= j.
Proof.
  intros H. pose proof (digits2_pos_bounds m) as [Hl _].
  destruct (Z.le_gt_cases (Zpos (digits2_pos m) - 1) j) as [|Hgt]; [assumption|].
  exfalso.
  destruct (Z.neg_nonneg_cases j) as [Hj|Hj].
  - rewrite Z.pow_neg_r in H by assumption. lia.
  - assert (2 ^ j < 2 ^ (Zpos (digits2_pos m) - 1)) by (apply Z.pow_lt_mono_r; lia).
    lia.
Qed.

Lemma binary_round_aux_le_pow2 (sx : bool) (m : positive) (e k : Z) :
  e <= k -> -1074 <= k <= 971 ->
  Zpos m <= 2 ^ (k - e) ->
  mag_le k (binary_round_aux prec emax sx (Zpos m) e loc_Exact).
Proof.
  intros Hek Hk Hm. unfold binary_round_aux.
  rewrite shr_fexp_exact by lia. simpl Zdigits2. cbv zeta.
  pose proof (digits_le_pow2 m (k - e) Hm) as Hd.
  set (d := Zpos (digits2_pos m)) in *.
  set (n1 := fexp64 (d + e) - e).
  assert (e + n1 <= k) as He1 by (unfold n1; rewrite fexp64_eq; lia).
  assert (exists m2 e1,
            (if 0 <? n1 then (shr_state (Zpos m) n1, e + n1)
             else ({| shr_m := Zpos m; shr_r := false; shr_s := false |}, e))
            = (m2, e1)
            /\ e1 <= k
            /\ 0 <= round_nearest_even (shr_m m2) (loc_of_shr_record m2) <= 2 ^ (k - e1))
    as (mrs & e1 & -> & He1k & Hm2).
  { destruct (Z.ltb_spec 0 n1) as [Hn|Hn].
    - eexists _, _. split; [reflexivity|]. split; [assumption|].
      pose proof (round_shr_state (Zpos m) n1 ltac:(lia) ltac:(lia)) as [[Hlo _] [_ Hhi]].
      cbv zeta in Hlo, Hhi.
      set (m2 := round_nearest_even _ _) in *.
      pose proof (pow2_pos n1 ltac:(lia)) as Hp.
      pose proof (pow2_pos (k - (e + n1)) ltac:(lia)) as Hp2.
      assert (0 <= Zpos m / 2 ^ n1) by (apply Z.div_pos; lia).
      split; [lia|].
      rewrite (pow2_split (k - e) n1) in Hm by lia.
      replace (k - e - n1) with (k - (e + n1)) in Hm by lia.
      nia.
    - eexists _, _. split; [reflexivity|]. split; [lia|]. simpl. lia. }
  set (m2 := round_nearest_even _ _) in *.
  rewrite shr_fexp_exact by lia. cbv zeta.
  set (n2 := fexp64 (Zdigits2 m2 + e1) - e1).
  assert (e1 + n2 <= k) as He3.
  { unfold n2. rewrite fexp64_eq.
    destruct m2 as [|p|p]; simpl Zdigits2; [lia| |lia].
    pose proof (digits_le_pow2 p (k - e1) ltac:(lia)). lia. }
  destruct (Z.ltb_spec 0 n2) as [Hn|Hn].
  - simpl shr_m.
    pose proof (pow2_pos n2 ltac:(lia)) as Hp.
    assert (0 <= m2 / 2 ^ n2 <= 2 ^ (k - (e1 + n2))) as Hm3.
    { split; [apply Z.div_pos; lia|].
      apply Z.div_le_upper_bound; [lia|].
      rewrite <- Z.pow_add_r by lia.
      replace (n2 + (k - (e1 + n2))) with (k - e1) by lia. lia. }
    destruct (m2 / 2 ^ n2) as [|p|p]; simpl; [exact I| |lia].
    rewrite (proj2 (Z.leb_le (e1 + n2) (emax - prec))) by (unfold emax, prec; lia).
    simpl. split; [lia|]. lia.
  - simpl shr_m.
    destruct m2 as [|p|p]; simpl; [exact I| |lia].
    rewrite (proj2 (Z.leb_le e1 (emax - prec))) by (unfold emax, prec; lia).
    simpl. split; lia.
Qed.

Lemma shl_align_val (m : positive) (e e' : Z) :
  let '(mz, ez) := shl_align m e e' in
  ez = Z.min e e' /\ Zpos mz = Zpos m * 2 ^ (e - ez)
  /\ Zpos (digits2_pos mz) = Zpos (digits2_pos m) + (e - ez).
Proof.
  unfold shl_align. destruct (e' - e) as [|p|p] eqn:E.
  - replace (Z.min e e') with e by lia.
    rewrite Z.sub_diag. simpl. lia.
  - replace (Z.min e e') with e by lia.
    rewrite Z.sub_diag. simpl. lia.
  - replace (Z.min e e') with e' by lia.
    replace (e - e') with (Zpos p) by lia.
    rewrite iter_xO_val, iter_xO_digits. lia.
Qed.

Lemma binary_round_le_pow2 (sx : bool) (m : positive) (e k : Z) :
  e <= k -> -1074 <= k <= 971 ->
  Zpos m <= 2 ^ (k - e) ->
  mag_le k (binary_round prec emax sx m e).
Proof.
  intros Hek Hk Hm. unfold binary_round.
  pose proof (shl_align_val m e (fexp64 (Zpos (digits2_pos m) + e))) as H.
  destruct (shl_align m e _) as [mz ez]. destruct H as (Hez & Hmz & _).
  apply binary_round_aux_le_pow2; [lia | lia |].
  rewrite Hmz.
  rewrite (pow2_split (k - ez) (e - ez)) by lia.
  replace (k - ez - (e - ez)) with (k - e) by lia.
  pose proof (pow2_pos (e - ez) ltac:(lia)). nia.
Qed.

Lemma binary_normalize_le_pow2 (n e k : Z) (sz : bool) :
  e <= k -> -1074 <= k <= 971 ->
  Z.abs n <= 2 ^ (k - e) ->
  mag_le k (binary_normalize prec emax n e sz).
Proof.
  intros Hek Hk Hn. destruct n as [|p|p]; simpl.
  - exact I.
  - apply binary_round_le_pow2; assumption.
  - apply binary_round_le_pow2; assumption.
Qed.

(** A mantissa that fits is only realigned. *)
Lemma binary_round_exact (sx : bool) (m : positive) (e : Z) :
  Zpos m < 2 ^ 53 -> -1074 <= e <= 971 ->
  exists m' e',
    binary_round prec emax sx m e = S754_finite sx m' e'
    /\ -1074 <= e' <= e
    /\ Zpos m' = Zpos m * 2 ^ (e - e').
Proof.
  intros Hm He. unfold binary_round.
  pose proof (digits2_pos_bounds m) as [Hd _].
  assert (Zpos (digits2_pos m) <= 53) as Hd53.
  { destruct (Z.le_gt_cases (Zpos (digits2_pos m)) 53) as [|Hgt]; [assumption|].
    assert (2 ^ 53 <= 2 ^ (Zpos (digits2_pos m) - 1)) by (apply Z.pow_le_mono_r; lia).
    lia. }
  pose proof (shl_align_val m e (fexp64 (Zpos (digits2_pos m) + e))) as H.
  destruct (shl_align m e _) as [mz ez]. destruct H as (Hez & Hmz & Hdz).
  rewrite fexp64_eq in Hez.
  exists mz, ez. split; [|split; [lia | assumption]].
  unfold binary_round_aux.
  rewrite shr_fexp_exact by lia. simpl Zdigits2. cbv zeta.
  assert (fexp64 (Zpos (digits2_pos mz) + ez) - ez = 0) as ->
    by (rewrite fexp64_eq; lia).
  simpl.
  rewrite shr_fexp_exact by lia. simpl Zdigits2. cbv zeta.
  assert (fexp64 (Zpos (digits2_pos mz) + ez) - ez = 0) as ->
    by (rewrite fexp64_eq; lia).
  simpl.
  rewrite (proj2 (Z.leb_le ez (emax - prec))) by (unfold emax, prec; lia).
  reflexivity.
Qed.

(** ** The value of a binary64 number, in units of [2^-1074] *)

Lemma valid_finite_bounds (s : bool) (m : positive) (e : Z) :
  valid_binary (S754_finite s m e) = true ->
  -1074 <= e <= 971
  /\ Zpos m < 2 ^ 53
  /\ (-1074 < e -> 2 ^ 52 <= Zpos m).
Proof.
  simpl. unfold bounded, canonical_mantissa. rewrite fexp64_eq.
  intros [H1 H2]%andb_true_iff.
  apply Z.eqb_eq in H1. apply Z.leb_le in H2. unfold emax, prec in H2.
  pose proof (digits2_pos_bounds m) as [Hlo Hhi].
  split; [lia|]. split.
  - assert (2 ^ Zpos (digits2_pos m) <= 2 ^ 53) by (apply Z.pow_le_mono_r; lia). lia.
  - intros He.
    assert (2 ^ 52 <= 2 ^ (Zpos (digits2_pos m) - 1)) by (apply Z.pow_le_mono_r; lia).
    lia.
Qed.

Lemma scaled_lt (m1 m2 : positive) (e1 e2 : Z) :
  -1074 <= e1 < e2 -> Zpos m1 < 2 ^ 53 -> 2 ^ 52 <= Zpos m2 ->
  Zpos m1 * 2 ^ (e1 + 1074) < Zpos m2 * 2 ^ (e2 + 1074).
Proof.
  intros He Hm1 Hm2.
  rewrite (pow2_split (e2 + 1074) (e1 + 1074)) by lia.
  pose proof (pow2_pos (e1 + 1074) ltac:(lia)) as HP.
  assert (2 ^ 1 <= 2 ^ (e2 + 1074 - (e1 + 1074))) as HQ
    by (apply Z.pow_le_mono_r; lia).
  change (2 ^ 1) with 2 in HQ.
  set (P := 2 ^ (e1 + 1074)) in *. set (Q := 2 ^ (e2 + 1074 - (e1 + 1074))) in *.
  assert (Zpos m1 * P < 2 ^ 53 * P) by (apply Z.mul_lt_mono_pos_r; lia).
  assert (2 ^ 52 * 2 <= Zpos m2 * Q) by (apply Z.mul_le_mono_nonneg; lia).
  assert (2 ^ 52 * 2 * P <= Zpos m2 * Q * P) by (apply Z.mul_le_mono_nonneg_r; lia).
  rewrite Z.mul_assoc. lia.
Qed.

Lemma compare_canonical (m1 m2 : positive) (e1 e2 : Z) (s1 s2 : bool) :
  valid_binary (S754_finite s1 m1 e1) = true ->
  valid_binary (S754_finite s2 m2 e2) = true ->
  match e1 ?= e2 with
  | Lt => Lt
  | Gt => Gt
  | Eq => Pos.compare_cont Eq m1 m2
  end = (Zpos m1 * 2 ^ (e1 + 1074) ?= Zpos m2 * 2 ^ (e2 + 1074)).
Proof.
  intros (He1 & Hm1 & Hn1)%valid_finite_bounds (He2 & Hm2 & Hn2)%valid_finite_bounds.
  symmetry.
  destruct (Z.compare_spec e1 e2) as [->|Hlt|Hgt].
  - change (Pos.compare_cont Eq m1 m2) with (Zpos m1 ?= Zpos m2).
    pose proof (pow2_pos (e2 + 1074) ltac:(lia)).
    destruct (Z.compare_spec (Zpos m1) (Zpos m2)) as [E|E|E].
    + rewrite E. apply Z.compare_refl.
    + apply Z.compare_lt_iff. nia.
    + apply Z.compare_gt_iff. nia.
  - apply Z.compare_lt_iff. apply (scaled_lt m1 m2 e1 e2); auto; lia.
  - apply Z.compare_gt_iff. apply (scaled_lt m2 m1 e2 e1); auto; lia.
Qed.

(** On valid finite numbers, [SFcompare] is the order of the values. *)
Lemma SFcompare_SF2Z (f1 f2 : spec_float) :
  valid_binary f1 = true -> valid_binary f2 = true ->
  SFfinite f1 = true -> SFfinite f2 = true ->
  SFcompare f1 f2 = Some (SF2Z f1 ?= SF2Z f2).
Proof.
  intros V1 V2 F1 F2.
  destruct f1 as [s1| |  |s1 m1 e1]; try discriminate;
  destruct f2 as [s2| | |s2 m2 e2]; try discriminate; cbn [SFcompare SF2Z].
  - reflexivity.
  - pose proof (valid_finite_bounds _ _ _ V2) as (He & _).
    pose proof (pow2_pos (e2 + 1074) ltac:(lia)).
    destruct s2; cbn [cond_Zopp]; f_equal; symmetry;
      [apply Z.compare_gt_iff | apply Z.compare_lt_iff]; nia.
  - pose proof (valid_finite_bounds _ _ _ V1) as (He & _).
    pose proof (pow2_pos (e1 + 1074) ltac:(lia)).
    destruct s1; cbn [cond_Zopp]; f_equal; symmetry;
      [apply Z.compare_lt_iff | apply Z.compare_gt_iff]; nia.
  - pose proof (valid_finite_bounds _ _ _ V1) as (He1 & _).
    pose proof (valid_finite_bounds _ _ _ V2) as (He2 & _).
    pose proof (pow2_pos (e1 + 1074) ltac:(lia)).
    pose proof (pow2_pos (e2 + 1074) ltac:(lia)).
    f_equal. destruct s1, s2; cbn [cond_Zopp].
    + rewrite Z.compare_opp.
      rewrite <- (compare_canonical m2 m1 e2 e1 true true V2 V1).
      rewrite (Z.compare_antisym e2 e1).
      destruct (e2 ?= e1); cbn [CompOpp]; try reflexivity.
      rewrite Pos.compare_cont_antisym. reflexivity.
    + symmetry. apply Z.compare_lt_iff. nia.
    + symmetry. apply Z.compare_gt_iff. nia.
    + apply (compare_canonical m1 m2 e1 e2 false false); assumption.
Qed.

Lemma mag_le_SF2Z (k : Z) (f : spec_float) :
  valid_binary f = true ->
  mag_le k f <-> SFfinite f = true /\ Z.abs (SF2Z f) <= 2 ^ (k + 1074).
Proof.
  intros V. destruct f as [s| | |s m e]; simpl.
  - split; [intros _; split; [reflexivity|] | intros _; exact I].
    pose proof (Z.pow_nonneg 2 (k + 1074)). lia.
  - split; [intros [] | intros [? _]; discriminate].
  - split; [intros [] | intros [? _]; discriminate].
  - pose proof (valid_finite_bounds _ _ _ V) as (He & _).
    pose proof (pow2_pos (e + 1074) ltac:(lia)) as HP.
    assert (Z.abs (cond_Zopp s (Zpos m * 2 ^ (e + 1074))) = Zpos m * 2 ^ (e + 1074)) as ->
      by (destruct s; simpl; lia).
    split.
    + intros [Hek Hm]. split; [reflexivity|].
      rewrite (pow2_split (k + 1074) (e + 1074)) by lia.
      replace (k + 1074 - (e + 1074)) with (k - e) by lia.
      apply Z.mul_le_mono_nonneg_r; lia.
    + intros [_ H].
      assert (e <= k) as Hek.
      { destruct (Z.le_gt_cases e k) as [|Hgt]; [assumption|]. exfalso.
        destruct (Z.neg_nonneg_cases (k + 1074)) as [Hn|Hn].
        - rewrite (Z.pow_neg_r 2 (k + 1074)) in H by assumption. nia.
        - assert (2 ^ (k + 1074) < 2 ^ (e + 1074)) by (apply Z.pow_lt_mono_r; lia).
          nia. }
      split; [assumption|].
      rewrite (pow2_split (k + 1074) (e + 1074)) in H by lia.
      replace (k + 1074 - (e + 1074)) with (k - e) in H by lia.
      apply Z.mul_le_mono_pos_r in H; assumption.
Qed.

Lemma aligned_val (mx : positive) (ex ey : Z) :
  Zpos (fst (shl_align mx ex (Z.min ex ey))) = Zpos mx * 2 ^ (ex - Z.min ex ey).
Proof.
  pose proof (shl_align_val mx ex (Z.min ex ey)) as H.
  destruct (shl_align mx ex (Z.min ex ey)) as [mz ez]. destruct H as (Hez & Hmz & _).
  simpl. rewrite Hmz. f_equal. f_equal. lia.
Qed.

Lemma binary_normalize_exact (n e : Z) :
  Z.abs n < 2 ^ 53 -> -1074 <= e <= 971 ->
  SFfinite (binary_normalize prec emax n e false) = true
  /\ SF2Z (binary_normalize prec emax n e false) = n * 2 ^ (e + 1074).
Proof.
  intros Hn He. destruct n as [|p|p]; cbn [binary_normalize].
  - split; reflexivity.
  - destruct (binary_round_exact false p e ltac:(lia) He) as (m' & e' & -> & He' & Hm').
    split; [reflexivity|]. cbn [SF2Z cond_Zopp]. rewrite Hm'.
    rewrite (pow2_split (e + 1074) (e' + 1074)) by lia.
    replace (e + 1074 - (e' + 1074)) with (e - e') by lia. lia.
  - destruct (binary_round_exact true p e ltac:(lia) He) as (m' & e' & -> & He' & Hm').
    split; [reflexivity|]. cbn [SF2Z cond_Zopp]. rewrite Hm'.
    rewrite (pow2_split (e + 1074) (e' + 1074)) by lia.
    replace (e + 1074 - (e' + 1074)) with (e - e') by lia. lia.
Qed.

(** The aligned sum or difference of two finite numbers, in units of
    [2^(min ex ey)]. *)
Lemma aligned_sum_val (sx sy : bool) (mx my : positive) (ex ey : Z) (op : Z -> Z -> Z) :
  (op = Z.add \/ op = Z.sub) ->
  -1074 <= ex -> -1074 <= ey ->
  op (cond_Zopp sx (Zpos (fst (shl_align mx ex (Z.min ex ey)))))
     (cond_Zopp sy (Zpos (fst (shl_align my ey (Z.min ex ey)))))
  * 2 ^ (Z.min ex ey + 1074)
  = op (SF2Z (S754_finite sx mx ex)) (SF2Z (S754_finite sy my ey)).
Proof.
  intros Hop Hex Hey.
  rewrite aligned_val. rewrite (Z.min_comm ex ey) at 2. rewrite aligned_val.
  rewrite (Z.min_comm ey ex).
  set (ez := Z.min ex ey).
  cbn [SF2Z].
  rewrite (pow2_split (ex + 1074) (ez + 1074)) by lia.
  rewrite (pow2_split (ey + 1074) (ez + 1074)) by lia.
  replace (ex + 1074 - (ez + 1074)) with (ex - ez) by lia.
  replace (ey + 1074 - (ez + 1074)) with (ey - ez) by lia.
  destruct Hop as [-> | ->]; destruct sx, sy; cbn [cond_Zopp]; ring.
Qed.

Lemma SFadd_exact (sx sy : bool) (mx my : positive) (ex ey : Z) :
  let fx := S754_finite sx mx ex in
  let fy := S754_finite sy my ey in
  valid_binary fx = true -> valid_binary fy = true ->
  Z.abs (SF2Z fx + SF2Z fy) < 2 ^ (53 + Z.min ex ey + 1074) ->
  SFfinite (SF64add fx fy) = true /\ SF2Z (SF64add fx fy) = SF2Z fx + SF2Z fy.
Proof.
  intros fx fy Vx Vy Hs.
  pose proof (valid_finite_bounds _ _ _ Vx) as (Hex & _).
  pose proof (valid_finite_bounds _ _ _ Vy) as (Hey & _).
  unfold SF64add, fx, fy, SFadd. cbv zeta.
  set (n := _ + _).
  pose proof (aligned_sum_val sx sy mx my ex ey Z.add (or_introl eq_refl)
                ltac:(lia) ltac:(lia)) as Hn.
  fold n in Hn. fold fx fy in Hn.
  pose proof (pow2_pos (Z.min ex ey + 1074) ltac:(lia)) as HP.
  assert (Z.abs n < 2 ^ 53) as Hn53.
  { rewrite <- Hn in Hs. rewrite Z.abs_mul, (Z.abs_eq (2 ^ (Z.min ex ey + 1074))) in Hs by lia.
    replace (53 + Z.min ex ey + 1074) with (53 + (Z.min ex ey + 1074)) in Hs by lia.
    rewrite (Z.pow_add_r 2 53 (Z.min ex ey + 1074)) in Hs by lia.
    apply Z.mul_lt_mono_pos_r in Hs; assumption. }
  destruct (binary_normalize_exact n (Z.min ex ey) Hn53 ltac:(lia)) as [Hf Hv].
  split; [assumption|]. rewrite Hv. exact Hn.
Qed.

Lemma SFsub_exact (sx sy : bool) (mx my : positive) (ex ey : Z) :
  let fx := S754_finite sx mx ex in
  let fy := S754_finite sy my ey in
  valid_binary fx = true -> valid_binary fy = true ->
  Z.abs (SF2Z fx - SF2Z fy) < 2 ^ (53 + Z.min ex ey + 1074) ->
  SFfinite (SF64sub fx fy) = true /\ SF2Z (SF64sub fx fy) = SF2Z fx - SF2Z fy.
Proof.
  intros fx fy Vx Vy Hs.
  pose proof (valid_finite_bounds _ _ _ Vx) as (Hex & _).
  pose proof (valid_finite_bounds _ _ _ Vy) as (Hey & _).
  unfold SF64sub, fx, fy, SFsub. cbv zeta.
  set (n := _ - _).
  pose proof (aligned_sum_val sx sy mx my ex ey Z.sub (or_intror eq_refl)
                ltac:(lia) ltac:(lia)) as Hn.
  fold n in Hn. fold fx fy in Hn.
  pose proof (pow2_pos (Z.min ex ey + 1074) ltac:(lia)) as HP.
  assert (Z.abs n < 2 ^ 53) as Hn53.
  { rewrite <- Hn in Hs. rewrite Z.abs_mul, (Z.abs_eq (2 ^ (Z.min ex ey + 1074))) in Hs by lia.
    replace (53 + Z.min ex ey + 1074) with (53 + (Z.min ex ey + 1074)) in Hs by lia.
    rewrite (Z.pow_add_r 2 53 (Z.min ex ey + 1074)) in Hs by lia.
    apply Z.mul_lt_mono_pos_r in Hs; assumption. }
  destruct (binary_normalize_exact n (Z.min ex ey) Hn53 ltac:(lia)) as [Hf Hv].
  split; [assumption|]. rewrite Hv. exact Hn.
Qed.

Lemma mag_le_mono (k k' : Z) (f : spec_float) :
  k <= k' -> mag_le k f -> mag_le k' f.
Proof.
  intros Hk. destruct f as [s| | |s m e]; simpl; try tauto.
  intros [He Hm]. split; [lia|].
  assert (2 ^ (k - e) <= 2 ^ (k' - e)) by (apply Z.pow_le_mono_r; lia). lia.
Qed.

Lemma mag_le_opp (k : Z) (f : spec_float) : mag_le k f -> mag_le k (SFopp f).
Proof. destruct f; simpl; tauto. Qed.

Lemma SFsub_mag_le (k : Z) (fx fy : spec_float) :
  -1075 <= k <= 970 ->
  valid_binary fx = true -> valid_binary fy = true ->
  mag_le k fx -> mag_le k fy ->
  mag_le (k + 1) (SF64sub fx fy).
Proof.
  intros Hk Vx Vy Hx Hy.
  destruct fx as [sx| | |sx mx ex]; try contradiction;
  destruct fy as [sy| | |sy my ey]; try contradiction.
  - destruct sx, sy; exact I.
  - apply (mag_le_mono k); [lia|]. exact Hy.
  - apply (mag_le_mono k); [lia|]. exact Hx.
  - pose proof (valid_finite_bounds _ _ _ Vx) as (Hex & _).
    pose proof (valid_finite_bounds _ _ _ Vy) as (Hey & _).
    destruct Hx as [Hxk Hxm], Hy as [Hyk Hym].
    unfold SF64sub, SFsub. cbv zeta.
    apply binary_normalize_le_pow2; [lia | lia |].
    rewrite aligned_val. rewrite (Z.min_comm ex ey) at 2. rewrite aligned_val.
    rewrite (Z.min_comm ey ex).
    set (ez := Z.min ex ey).
    pose proof (pow2_pos (ex - ez) ltac:(lia)) as Hpx.
    pose proof (pow2_pos (ey - ez) ltac:(lia)) as Hpy.
    assert (Zpos mx * 2 ^ (ex - ez) <= 2 ^ (k - ez)) as Hax.
    { rewrite (pow2_split (k - ez) (ex - ez)) by lia.
      replace (k - ez - (ex - ez)) with (k - ex) by lia.
      apply Z.mul_le_mono_nonneg_r; lia. }
    assert (Zpos my * 2 ^ (ey - ez) <= 2 ^ (k - ez)) as Hay.
    { rewrite (pow2_split (k - ez) (ey - ez)) by lia.
      replace (k - ez - (ey - ez)) with (k - ey) by lia.
      apply Z.mul_le_mono_nonneg_r; lia. }
    replace (k + 1 - ez) with (k - ez + 1) by lia.
    rewrite Z.pow_add_r, Z.pow_1_r by lia.
    destruct sx, sy; cbn [cond_Zopp]; lia.
Qed.

Lemma SFmul_mag_le (k1 k2 : Z) (fx fy : spec_float) :
  -1074 <= k1 + k2 <= 971 ->
  mag_le k1 fx -> mag_le k2 fy ->
  mag_le (k1 + k2) (SF64mul fx fy).
Proof.
  intros Hk Hx Hy.
  destruct fx as [sx| | |sx mx ex]; try contradiction;
  destruct fy as [sy| | |sy my ey]; try contradiction; try exact I.
  destruct Hx as [Hxk Hxm], Hy as [Hyk Hym].
  unfold SF64mul, SFmul.
  apply binary_round_aux_le_pow2; [lia | lia |].
  rewrite Pos2Z.inj_mul.
  replace (k1 + k2 - (ex + ey)) with ((k1 - ex) + (k2 - ey)) by lia.
  rewrite Z.pow_add_r by lia.
  apply Z.mul_le_mono_nonneg; lia.
Qed.

(** ** Primitive floats through their specification *)

Local Open Scope float_scope.

Lemma Fbounded_mag_le (k : Z) (a : float) : Fbounded k a <-> mag_le k (Prim2SF a).
Proof.
  unfold Fbounded, Ffinite, F2Z. symmetry. apply mag_le_SF2Z, Prim2SF_valid.
Qed.

Lemma leb_F2Z (a b : float) :
  Ffinite a = true -> Ffinite b = true -> (a <=? b) = (F2Z a <=? F2Z b)%Z.
Proof.
  intros Fa Fb. rewrite FloatAxioms.leb_spec. unfold SFleb.
  rewrite (SFcompare_SF2Z _ _ (Prim2SF_valid a) (Prim2SF_valid b) Fa Fb).
  unfold F2Z, Z.leb. destruct (SF2Z (Prim2SF a) ?= SF2Z (Prim2SF b))%Z; reflexivity.
Qed.

Lemma ltb_F2Z (a b : float) :
  Ffinite a = true -> Ffinite b = true -> (a <? b) = (F2Z a <? F2Z b)%Z.
Proof.
  intros Fa Fb. rewrite FloatAxioms.ltb_spec. unfold SFltb.
  rewrite (SFcompare_SF2Z _ _ (Prim2SF_valid a) (Prim2SF_valid b) Fa Fb).
  unfold F2Z, Z.ltb. destruct (SF2Z (Prim2SF a) ?= SF2Z (Prim2SF b))%Z; reflexivity.
Qed.

Lemma Ffinite_between (lo hi a : float) :
  Ffinite lo = true -> Ffinite hi = true ->
  (lo <=? a) = true -> (a <=? hi) = true -> Ffinite a = true.
Proof.
  unfold Ffinite. rewrite !FloatAxioms.leb_spec. unfold SFleb.
  destruct (Prim2SF lo) as [?| | |? ? ?]; try discriminate;
  destruct (Prim2SF hi) as [?| | |? ? ?]; try discriminate;
  destruct (Prim2SF a) as [?|[]| |? ? ?]; simpl; try reflexivity;
  try discriminate; intros _ _;
  repeat match goal with |- context [if ?b then _ else _] => destruct b end;
  discriminate.
Qed.

Lemma is_nan_spec (a : float) :
  is_nan a = match Prim2SF a with S754_nan => true | _ => false end.
Proof.
  unfold is_nan. rewrite FloatAxioms.eqb_spec. unfold SFeqb.
  destruct (Prim2SF a) as [s|s| |s m e]; simpl; try reflexivity.
  - destruct s; reflexivity.
  - rewrite Z.compare_refl.
    change (Pos.compare_cont Eq m m) with (m ?= m)%positive.
    rewrite Pos.compare_refl. destruct s; reflexivity.
Qed.

Lemma Ffinite_not_nan_inf (a : float) :
  Ffinite a = true -> is_nan a = false /\ is_infinity a = false.
Proof.
  unfold Ffinite. intros H. split.
  - rewrite is_nan_spec. destruct (Prim2SF a); try reflexivity; discriminate.
  - unfold is_infinity. rewrite FloatAxioms.eqb_spec, abs_spec.
    replace (Prim2SF infinity) with (S754_infinity false) by reflexivity.
    destruct (Prim2SF a); try discriminate; reflexivity.
Qed.

Lemma is_nan_opp (a : float) : is_nan (- a) = is_nan a.
Proof.
  rewrite !is_nan_spec, opp_spec. destruct (Prim2SF a); reflexivity.
Qed.

Lemma Fsub_bounded (k : Z) (a b : float) :
  (-1075 <= k <= 970)%Z -> Fbounded k a -> Fbounded k b -> Fbounded (k + 1) (a - b).
Proof.
  rewrite !Fbounded_mag_le, sub_spec. intros Hk Ha Hb.
  apply SFsub_mag_le; auto using Prim2SF_valid.
Qed.

Lemma Fmul_bounded (k1 k2 : Z) (a b : float) :
  (-1074 <= k1 + k2 <= 971)%Z -> Fbounded k1 a -> Fbounded k2 b ->
  Fbounded (k1 + k2) (a * b).
Proof.
  rewrite !Fbounded_mag_le, mul_spec. intros Hk Ha Hb.
  apply SFmul_mag_le; assumption.
Qed.

(** The exponent that a value of at least [2^j] forces. *)
Lemma finite_exponent_lower (s : bool) (m : positive) (e j : Z) :
  valid_binary (S754_finite s m e) = true ->
  (2 ^ (j + 1074) <= Z.abs (SF2Z (S754_finite s m e)))%Z ->
  (j - 52 <= e)%Z.
Proof.
  intros V H. pose proof (valid_finite_bounds _ _ _ V) as (He & Hm & _).
  cbn [SF2Z] in H.
  pose proof (pow2_pos (e + 1074) ltac:(lia)) as HP.
  assert (Z.abs (cond_Zopp s (Zpos m * 2 ^ (e + 1074))) = Zpos m * 2 ^ (e + 1074))%Z as E
    by (destruct s; simpl; lia).
  rewrite E in H.
  destruct (Z.le_gt_cases (j - 52) e) as [|Hgt]; [assumption|]. exfalso.
  assert (2 ^ (53 + (e + 1074)) <= 2 ^ (j + 1074))%Z by (apply Z.pow_le_mono_r; lia).
  rewrite Z.pow_add_r in H0 by lia.
  assert (Zpos m * 2 ^ (e + 1074) < 2 ^ 53 * 2 ^ (e + 1074))%Z
    by (apply Z.mul_lt_mono_pos_r; lia).
  lia.
Qed.

Lemma Fadd_exact (a b : float) (j : Z) :
  Ffinite a = true -> Ffinite b = true ->
  (2 ^ (j + 1074) <= Z.abs (F2Z a))%Z ->
  (2 ^ (j + 1074) <= Z.abs (F2Z b))%Z ->
  (-1022 <= j)%Z ->
  (Z.abs (F2Z a + F2Z b) < 2 ^ (j + 1 + 1074))%Z ->
  Ffinite (a + b) = true /\ F2Z (a + b) = (F2Z a + F2Z b)%Z.
Proof.
  unfold Ffinite, F2Z. rewrite add_spec.
  pose proof (Prim2SF_valid a) as Va. pose proof (Prim2SF_valid b) as Vb.
  intros Fa Fb Ha Hb Hj Hs.
  pose proof (pow2_pos (j + 1074) ltac:(lia)) as HP.
  destruct (Prim2SF a) as [sa| | |sa ma ea]; try discriminate;
    [cbn [SF2Z] in Ha; simpl in Ha; lia|].
  destruct (Prim2SF b) as [sb| | |sb mb eb]; try discriminate;
    [cbn [SF2Z] in Hb; simpl in Hb; lia|].
  pose proof (finite_exponent_lower _ _ _ j Va Ha).
  pose proof (finite_exponent_lower _ _ _ j Vb Hb).
  apply SFadd_exact; try assumption.
  eapply Z.lt_le_trans; [exact Hs|]. apply Z.pow_le_mono_r; lia.
Qed.

Lemma Fsub_exact (a b : float) (j : Z) :
  Ffinite a = true -> Ffinite b = true ->
  (2 ^ (j + 1074) <= Z.abs (F2Z a))%Z ->
  (2 ^ (j + 1074) <= Z.abs (F2Z b))%Z ->
  (-1022 <= j)%Z ->
  (Z.abs (F2Z a - F2Z b) < 2 ^ (j + 1 + 1074))%Z ->
  Ffinite (a - b) = true /\ F2Z (a - b) = (F2Z a - F2Z b)%Z.
Proof.
  unfold Ffinite, F2Z. rewrite sub_spec.
  pose proof (Prim2SF_valid a) as Va. pose proof (Prim2SF_valid b) as Vb.
  intros Fa Fb Ha Hb Hj Hs.
  pose proof (pow2_pos (j + 1074) ltac:(lia)) as HP.
  destruct (Prim2SF a) as [sa| | |sa ma ea]; try discriminate;
    [cbn [SF2Z] in Ha; simpl in Ha; lia|].
  destruct (Prim2SF b) as [sb| | |sb mb eb]; try discriminate;
    [cbn [SF2Z] in Hb; simpl in Hb; lia|].
  pose proof (finite_exponent_lower _ _ _ j Va Ha).
  pose proof (finite_exponent_lower _ _ _ j Vb Hb).
  apply SFsub_exact; try assumption.
  eapply Z.lt_le_trans; [exact Hs|]. apply Z.pow_le_mono_r; lia.
Qed.

(** * Properties *)

(** ** The constructor *)

Lemma init_two_positional (cls : pyclass) (a b : value) :
  Vector2.__init__ cls [a; b] ∅ = Vector2.set_coordinates cls a b.
Proof. reflexivity. Qed.

Lemma init_floats (cls : pyclass) (fx fy : float) (s : N) :
  Vector2.__init__ cls [VFloat fx; VFloat fy] ∅ s = (Ret (Vec s cls fx fy), N.succ s).
Proof. reflexivity. Qed.

(** Closes a decidable proposition by evaluating its decision procedure. *)
Ltac decide_true := apply (bool_decide_unpack _); vm_compute; exact I.

Ltac unfold_monad :=
  unfold mbind, M_bind, bind, mret, M_ret, ret, raise, lift, try_except in *.

Lemma set_coordinates_ret (cls : pyclass) (a b : value) (r : vector) (s s' : N) :
  Vector2.set_coordinates cls a b s = (Ret r, s') ->
  exists fx fy, Vector2.coordinate a = Ret fx /\ Vector2.coordinate b = Ret fy
                /\ r = Vec s cls fx fy /\ s' = N.succ s.
Proof.
  unfold Vector2.set_coordinates, Vector2.new_object; unfold_monad.
  destruct (Vector2.coordinate a) as [fx|]; [|discriminate].
  destruct (Vector2.coordinate b) as [fy|]; [|discriminate].
  intros [= <- <-]. exists fx, fy. repeat split.
Qed.

(** Whatever the arguments, an instance that [cls(...)] returns is of
    class [cls]. *)
Lemma init_ret_type (cls : pyclass) (args : list value) (kwargs : gmap string value)
      (r : vector) (s s' : N) :
  Vector2.__init__ cls args kwargs s = (Ret r, s') -> vtype r = cls.
Proof.
  unfold Vector2.__init__.
  repeat (match goal with |- context [if ?b then _ else _] => destruct b end;
          [unfold_monad; discriminate|]).
  unfold_monad.
  match goal with |- context [match ?c s with _ => _ end] => destruct c as [[[a b]|] s1] end;
    [|discriminate].
  intros H. apply set_coordinates_ret in H as (fx & fy & _ & _ & -> & _). reflexivity.
Qed.

(** ** Result-type resolution (C4) *)

Lemma find_lowest_type_length (left right : pyclass) :
  NoDup (cls_mro left) -> NoDup (cls_mro right) ->
  _find_lowest_type left right =
    if bool_decide (length (cls_mro left) < length (cls_mro right))%nat
    then right else left.
Proof.
  intros Hl Hr. unfold _find_lowest_type.
  rewrite !size_list_to_set by assumption.
  repeat case_bool_decide; try reflexivity; lia.
Qed.

Lemma find_lowest_vector_cases (left right : pyclass) :
  NoDup (cls_mro left) -> NoDup (cls_mro right) ->
  let rtype := _find_lowest_vector left right in
  (left = right -> rtype = left)
  /\ (issubclass left Vector2_cls = true -> issubclass right Vector2_cls = false ->
      rtype = left)
  /\ (issubclass left Vector2_cls = false -> issubclass right Vector2_cls = true ->
      rtype = right)
  /\ (issubclass left Vector2_cls = true -> issubclass right Vector2_cls = true ->
      rtype = if bool_decide (length (cls_mro left) < length (cls_mro right))%nat
              then right else left).
Proof.
  intros Hl Hr rtype. subst rtype. unfold _find_lowest_vector, class_is.
  repeat split.
  - intros ->. rewrite bool_decide_eq_true_2; reflexivity.
  - intros Hsl Hsr. rewrite Hsl, Hsr. simpl.
    case_bool_decide; reflexivity.
  - intros Hsl Hsr. rewrite Hsl. simpl.
    case_bool_decide; [subst; congruence | reflexivity].
  - intros Hsl Hsr. rewrite Hsl, Hsr. simpl.
    case_bool_decide as Heq.
    + subst. rewrite bool_decide_eq_false_2 by lia. reflexivity.
    + apply find_lowest_type_length; assumption.
Qed.

Lemma add_ret (self : vector) (other : value) (o : vector) (s s1 : N) :
  Vector2.convert Vector2_cls other s = (Ret o, s1) ->
  Vector2.__add__ self other s =
    (Ret (VVec (Vec s1 (_find_lowest_vector (type_of other) (vtype self))
                    (x self + x o) (y self + y o))), N.succ s1).
Proof.
  intros Hc. unfold Vector2.__add__, Vector2.convert_or_NotImplemented.
  unfold_monad. rewrite Hc. rewrite init_floats. reflexivity.
Qed.

Lemma sub_ret (self : vector) (other : value) (o : vector) (s s1 : N) :
  Vector2.convert Vector2_cls other s = (Ret o, s1) ->
  Vector2.__sub__ self other s =
    (Ret (VVec (Vec s1 (_find_lowest_vector (type_of other) (vtype self))
                    (x self - x o) (y self - y o))), N.succ s1).
Proof.
  intros Hc. unfold Vector2.__sub__, Vector2.convert_or_NotImplemented.
  unfold_monad. rewrite Hc. rewrite init_floats. reflexivity.
Qed.

(** C4: [a + other] and [a - other] build their result with the class
    [rtype] resolved from [left = type(other)] and [right = type(self)]:
    the common class when the two are the same; the one that is a
    subclass of [Vector2] when exactly one is; and when both are, the one
    whose [__mro__] is longer, [left] on a tie. *)
Theorem add_sub_result_type (self : vector) (other : value) (o : vector) (s s1 : N) :
  NoDup (cls_mro (type_of other)) ->
  NoDup (cls_mro (vtype self)) ->
  Vector2.convert Vector2_cls other s = (Ret o, s1) ->
  let left := type_of other in
  let right := vtype self in
  exists rtype : pyclass,
    Vector2.__add__ self other s =
      (Ret (VVec (Vec s1 rtype (x self + x o) (y self + y o))), N.succ s1)
    /\ Vector2.__sub__ self other s =
      (Ret (VVec (Vec s1 rtype (x self - x o) (y self - y o))), N.succ s1)
    /\ (left = right -> rtype = left)
    /\ (issubclass left Vector2_cls = true -> issubclass right Vector2_cls = false ->
        rtype = left)
    /\ (issubclass left Vector2_cls = false -> issubclass right Vector2_cls = true ->
        rtype = right)
    /\ (issubclass left Vector2_cls = true -> issubclass right Vector2_cls = true ->
        rtype = if bool_decide (length (cls_mro left) < length (cls_mro right))%nat
                then right else left).
Proof.
  intros Hl Hr Hc left right.
  exists (_find_lowest_vector left right).
  split; [exact (add_ret self other o s s1 Hc)|].
  split; [exact (sub_ret self other o s s1 Hc)|].
  exact (find_lowest_vector_cases left right Hl Hr).
Qed.

Lemma add_sub_result_type_witness :
  exists rtype : pyclass,
    Vector2.__add__ (Vec 0 Vector2_cls 1 2) (VVec (Vec 1 Position_cls 3 4)) 2%N =
      (Ret (VVec (Vec 2 rtype (1 + 3) (2 + 4))), 3%N)
    /\ rtype = Position_cls.
Proof.
  destruct (add_sub_result_type (Vec 0 Vector2_cls 1 2) (VVec (Vec 1 Position_cls 3 4))
              (Vec 1 Position_cls 3 4) 2%N 2%N) as (rtype & Ha & _ & _ & _ & _ & Hb).
  - decide_true.
  - decide_true.
  - reflexivity.
  - exists rtype. split; [exact Ha|]. rewrite Hb; reflexivity.
Defined.

(** ** Coercion (C5, C10) *)

Lemma issubclass_refl (c : pyclass) : wf_class c -> issubclass c c = true.
Proof.
  unfold wf_class, issubclass. intros H.
  apply bool_decide_eq_true_2.
  destruct (cls_mro c) as [|n l]; [discriminate|].
  injection H as ->. left.
Qed.

Lemma set_coordinates_floats (cls : pyclass) (fx fy : float) (s : N) :
  Vector2.set_coordinates cls (VFloat fx) (VFloat fy) s = (Ret (Vec s cls fx fy), N.succ s).
Proof. reflexivity. Qed.

Lemma convert_vec (cls : pyclass) (v : vector) (s : N) :
  Vector2.convert cls (VVec v) s =
    if isinstance (VVec v) cls then (Ret v, s)
    else (Ret (Vec s cls (x v) (y v)), N.succ s).
Proof.
  unfold Vector2.convert.
  destruct (isinstance (VVec v) cls); [reflexivity|].
  destruct (isinstance (VVec v) Vector2_cls); apply set_coordinates_floats.
Qed.

(** C5, as the code has it: [cls.convert(value)] returns [value] itself,
    allocating nothing, whenever [value] is an instance of [cls], that is
    of [cls] or of one of its subclasses; for a vector that is not an
    instance of [cls] it builds a new instance of [cls] with the same
    coordinates. *)
Theorem convert_vector (cls : pyclass) (v : vector) (s : N) :
  wf_class cls ->
  (vtype v = cls -> Vector2.convert cls (VVec v) s = (Ret v, s))
  /\ (isinstance (VVec v) cls = true -> Vector2.convert cls (VVec v) s = (Ret v, s))
  /\ (isinstance (VVec v) cls = false ->
      Vector2.convert cls (VVec v) s = (Ret (Vec s cls (x v) (y v)), N.succ s)).
Proof.
  intros Hwf. rewrite convert_vec. repeat split.
  - intros <-. unfold isinstance. simpl. rewrite issubclass_refl by assumption.
    reflexivity.
  - intros ->. reflexivity.
  - intros ->. reflexivity.
Qed.

Lemma convert_vector_witness :
  Vector2.convert Position_cls (VVec (Vec 0 Vector2_cls 1 2)) 1%N =
    (Ret (Vec 1 Position_cls 1 2), 2%N)
  /\ Vector2.convert Position_cls (VVec (Vec 0 Position_cls 1 2)) 1%N =
    (Ret (Vec 0 Position_cls 1 2), 1%N).
Proof.
  split.
  - apply (convert_vector Position_cls (Vec 0 Vector2_cls 1 2) 1%N); reflexivity.
  - apply (convert_vector Position_cls (Vec 0 Position_cls 1 2) 1%N); reflexivity.
Defined.

(** C5 as stated fails: an instance of a subclass differs in concrete
    type from the target [Vector2], and yet [Vector2.convert] hands back
    that very instance instead of a new [Vector2]. *)
Lemma convert_subclass_instance_not_copied :
  class_is Position_cls Vector2_cls = false
  /\ Vector2.convert Vector2_cls (VVec (Vec 0 Position_cls 1 2)) 1%N =
       (Ret (Vec 0 Position_cls 1 2), 1%N).
Proof. split; reflexivity. Qed.

Lemma asdict_keys (v : vector) :
  match Vector2.asdict v with
  | VDict d => dom d = ({["x"; "y"]} : gset string)
               /\ d !! "x" = Some (VFloat (x v)) /\ d !! "y" = Some (VFloat (y v))
  | _ => False
  end.
Proof.
  simpl. split; [|split].
  - rewrite !dom_insert_L, dom_empty_L. set_solver.
  - apply lookup_insert_eq.
  - rewrite lookup_insert_ne by discriminate. apply lookup_insert_eq.
Qed.

Lemma convert_asdict (cls : pyclass) (v : vector) (s : N) :
  Vector2.convert cls (Vector2.asdict v) s = (Ret (Vec s cls (x v) (y v)), N.succ s).
Proof. reflexivity. Qed.

Lemma float_eqb_refl (f : float) : is_nan f = false -> (f =? f) = true.
Proof. unfold is_nan. destruct (f =? f); [reflexivity | discriminate]. Qed.

(** C10, as the code has it: [asdict(v)] has exactly the keys [x] and
    [y], bound to the coordinates of [v]; [convert] accepts it and
    builds a vector with these very coordinates; that vector [==] [v]
    when neither coordinate of [v] is a NaN. *)
Theorem convert_asdict_roundtrip (cls : pyclass) (v : vector) (s : N) :
  isinstance (VVec v) Vector2_cls = true ->
  is_nan (x v) = false ->
  is_nan (y v) = false ->
  (exists d, Vector2.asdict v = VDict d
             /\ dom d = ({["x"; "y"]} : gset string)
             /\ d !! "x" = Some (VFloat (x v)) /\ d !! "y" = Some (VFloat (y v)))
  /\ (w ← Vector2.convert cls (Vector2.asdict v); Vector2.__eq__ w (VVec v)) s =
       (Ret (VBool true), N.succ s).
Proof.
  intros Hv Hx Hy. split.
  - pose proof (asdict_keys v) as H. simpl in H.
    eexists. split; [reflexivity | exact H].
  - unfold_monad. rewrite convert_asdict.
    unfold Vector2.__eq__, Vector2.convert_or_NotImplemented. unfold_monad.
    rewrite convert_vec, Hv. simpl.
    rewrite (float_eqb_refl _ Hx), (float_eqb_refl _ Hy). reflexivity.
Qed.

Lemma convert_asdict_roundtrip_witness :
  (w ← Vector2.convert Vector2_cls (Vector2.asdict (Vec 0 Position_cls 3 4));
   Vector2.__eq__ w (VVec (Vec 0 Position_cls 3 4))) 1%N = (Ret (VBool true), 2%N).
Proof.
  apply (convert_asdict_roundtrip Vector2_cls (Vec 0 Position_cls 3 4) 1%N); reflexivity.
Defined.

(** C10 as stated fails on a vector with a NaN coordinate: the round
    trip keeps the coordinates, and [==] answers [False]. *)
Lemma convert_asdict_nan_not_equal :
  (w ← Vector2.convert Vector2_cls (Vector2.asdict (Vec 0 Vector2_cls nan 0));
   Vector2.__eq__ w (VVec (Vec 0 Vector2_cls nan 0))) 1%N = (Ret (VBool false), 2%N).
Proof. reflexivity. Qed.

(** ** Scaling, division and truncation (C1, C6) *)

Lemma scale_to_float (hypot : float -> float -> float) (self : vector)
      (length_ : value) (l : float) (s : N) :
  py_float length_ = Ret l ->
  Vector2.scale_to hypot self length_ s = Vector2.scale_to hypot self (VFloat l) s.
Proof.
  intros H. unfold Vector2.scale_to. unfold_monad. rewrite H. reflexivity.
Qed.

(** C6: [truncate] hands back [self] itself, with nothing computed or
    allocated, when [self.length <= max_length]; otherwise it is
    [scale_to]. *)
Theorem truncate_spec (hypot : float -> float -> float) (self : vector)
        (max_length : value) (m : float) (s : N) :
  py_float max_length = Ret m ->
  Vector2.truncate hypot self max_length s =
    if Vector2.length hypot self <=? m then (Ret self, s)
    else Vector2.scale_to hypot self max_length s.
Proof.
  intros H. rewrite (scale_to_float hypot self max_length m s H).
  unfold Vector2.truncate. unfold_monad. rewrite H.
  destruct (Vector2.length hypot self <=? m); reflexivity.
Qed.

Lemma truncate_spec_witness :
  Vector2.truncate naive_hypot (Vec 0 Vector2_cls 3 4) (VInt 6) 1%N =
    (Ret (Vec 0 Vector2_cls 3 4), 1%N)
  /\ Vector2.truncate naive_hypot (Vec 0 Vector2_cls 3 4) (VInt 4) 1%N =
     Vector2.scale_to naive_hypot (Vec 0 Vector2_cls 3 4) (VInt 4) 1%N.
Proof.
  split.
  - apply (truncate_spec naive_hypot (Vec 0 Vector2_cls 3 4) (VInt 6) 6 1%N).
    reflexivity.
  - apply (truncate_spec naive_hypot (Vec 0 Vector2_cls 3 4) (VInt 4) 4 1%N).
    reflexivity.
Defined.

Lemma truediv_zero (self : vector) (other : value) (f : float) (s : N) :
  py_float other = Ret f ->
  (f =? 0) = true ->
  Vector2.__truediv__ self other s = (Raise ZeroDivisionError, s).
Proof.
  intros Hf Hz. unfold Vector2.__truediv__, py_truediv. unfold_monad.
  rewrite Hf, Hz. reflexivity.
Qed.

Lemma float_pos_not_neg_nor_zero (l : float) :
  (0 <? l) = true -> (l <? 0) = false /\ (l =? 0) = false.
Proof.
  rewrite !FloatAxioms.ltb_spec, FloatAxioms.eqb_spec.
  replace (Prim2SF 0) with (S754_zero false) by reflexivity.
  unfold SFltb, SFeqb, SFcompare.
  destruct (Prim2SF l) as [[]|[]| |[] m e]; simpl; intros; split; congruence.
Qed.

Lemma scale_to_length_zero (hypot : float -> float -> float) (self : vector)
      (length_ : value) (l : float) (s : N) :
  py_float length_ = Ret l ->
  (0 <? l) = true ->
  (Vector2.length hypot self =? 0) = true ->
  Vector2.scale_to hypot self length_ s = (Raise ZeroDivisionError, N.succ s).
Proof.
  intros Hl Hpos Hlen. unfold Vector2.scale_to. unfold_monad. rewrite Hl.
  destruct (float_pos_not_neg_nor_zero l Hpos) as [-> ->].
  unfold Vector2.__rmul__, Vector2.__mul__. simpl.
  unfold Vector2.scale_by. unfold_monad. simpl.
  rewrite init_floats.
  apply (truediv_zero _ (VFloat (Vector2.length hypot self)) _ _ eq_refl Hlen).
Qed.

(** C1, as the code has it: dividing a vector by a zero scalar raises
    [ZeroDivisionError], and so do [scale_to] with a positive length and
    [normalize] on a vector of length zero, once the scaled copy has
    been built; no infinity and no NaN is produced. *)
Theorem division_by_zero_raises (hypot : float -> float -> float) (self : vector)
        (other length_ : value) (f l : float) (s : N) :
  py_float other = Ret f ->
  (f =? 0) = true ->
  py_float length_ = Ret l ->
  (0 <? l) = true ->
  (Vector2.length hypot self =? 0) = true ->
  Vector2.__truediv__ self other s = (Raise ZeroDivisionError, s)
  /\ Vector2.scale_to hypot self length_ s = (Raise ZeroDivisionError, N.succ s)
  /\ Vector2.normalize hypot self s = (Raise ZeroDivisionError, N.succ s).
Proof.
  intros Hf Hz Hl Hpos Hlen. repeat split.
  - exact (truediv_zero self other f s Hf Hz).
  - exact (scale_to_length_zero hypot self length_ l s Hl Hpos Hlen).
  - apply (scale_to_length_zero hypot self (VInt 1) 1 s);
      [reflexivity | reflexivity | exact Hlen].
Qed.

Lemma division_by_zero_raises_witness :
  Vector2.__truediv__ (Vec 0 Vector2_cls 0 (-0)) (VFloat (-0)) 1%N =
    (Raise ZeroDivisionError, 1%N)
  /\ Vector2.scale_to naive_hypot (Vec 0 Vector2_cls 0 (-0)) (VFloat 2.5) 1%N =
    (Raise ZeroDivisionError, 2%N)
  /\ Vector2.normalize naive_hypot (Vec 0 Vector2_cls 0 (-0)) 1%N =
    (Raise ZeroDivisionError, 2%N).
Proof.
  apply (division_by_zero_raises naive_hypot (Vec 0 Vector2_cls 0 (-0))
           (VFloat (-0)) (VFloat 2.5) (-0) 2.5 1%N); reflexivity.
Defined.

(** C1 as stated fails: [Vector2(1, 2) / 0] raises, it does not yield
    infinite or NaN coordinates; and so does normalizing the zero
    vector. *)
Lemma truediv_by_zero_is_an_error :
  Vector2.__truediv__ (Vec 0 Vector2_cls 1 2) (VInt 0) 1%N = (Raise ZeroDivisionError, 1%N)
  /\ Vector2.normalize naive_hypot (Vec 0 Vector2_cls 0 0) 1%N =
       (Raise ZeroDivisionError, 2%N).
Proof. split; reflexivity. Qed.

(** ** Coercion failures in the binary operators (C7) *)

Lemma binary_ops_on_convert_failure (self : vector) (other : value) (e : exn) (s s1 : N) :
  Vector2.convert Vector2_cls other s = (Raise e, s1) ->
  Vector2.__add__ self other s =
    ((if bool_decide (e = ValueError) then Ret VNotImplemented else Raise e), s1)
  /\ Vector2.__sub__ self other s =
    ((if bool_decide (e = ValueError) then Ret VNotImplemented else Raise e), s1)
  /\ Vector2.dot self other s = (Raise e, s1).
Proof.
  intros Hc.
  unfold Vector2.__add__, Vector2.__sub__, Vector2.dot, Vector2.convert_or_NotImplemented.
  unfold_monad. rewrite Hc.
  destruct (bool_decide (e = ValueError)); repeat split; reflexivity.
Qed.

(** C7 on a pair whose items are not numbers: [convert] fails with
    [TypeError]; [+] and [-] let it through as a hard error, where [*]
    and [==] answer [NotImplemented]. *)
Theorem add_sub_let_TypeError_through :
  Vector2.convert Vector2_cls (VTuple [VNone; VNone]) 1%N = (Raise TypeError, 1%N)
  /\ Vector2.__add__ (Vec 0 Vector2_cls 1 2) (VTuple [VNone; VNone]) 1%N =
     (Raise TypeError, 1%N)
  /\ Vector2.__sub__ (Vec 0 Vector2_cls 1 2) (VTuple [VNone; VNone]) 1%N =
     (Raise TypeError, 1%N)
  /\ Vector2.__add__ (Vec 0 Vector2_cls 1 2) (VTuple [gibberish; VInt 1]) 1%N =
     (Raise TypeError, 1%N)
  /\ Vector2.__mul__ (Vec 0 Vector2_cls 1 2) (VTuple [VNone; VNone]) 1%N =
     (Ret VNotImplemented, 1%N)
  /\ Vector2.__eq__ (Vec 0 Vector2_cls 1 2) (VTuple [VNone; VNone]) 1%N =
     (Ret VNotImplemented, 1%N).
Proof. repeat split; reflexivity. Qed.

(** ** Constructor arguments (C8) *)

Lemma init_mixed_arguments (cls : pyclass) (args : list value)
      (kwargs : gmap string value) (s : N) :
  args <> [] -> kwargs <> ∅ ->
  Vector2.__init__ cls args kwargs s = (Raise TypeError, s).
Proof.
  intros Ha Hk. unfold Vector2.__init__.
  rewrite !bool_decide_eq_true_2 by assumption. reflexivity.
Qed.

Lemma init_wrong_arity (cls : pyclass) (args : list value)
      (kwargs : gmap string value) (s : N) :
  (args = [] /\ kwargs = ∅) \/ (2 < length args)%nat ->
  Vector2.__init__ cls args kwargs s = (Raise TypeError, s).
Proof.
  intros H. unfold Vector2.__init__.
  destruct (bool_decide (args ≠ []) && bool_decide (kwargs ≠ ∅)); [reflexivity|].
  destruct H as [[-> ->] | H]; [reflexivity|].
  rewrite (bool_decide_eq_true_2 _ H), orb_true_r. reflexivity.
Qed.

Lemma init_wrong_keywords (cls : pyclass) (kwargs : gmap string value) (s : N) :
  kwargs <> ∅ -> dom kwargs <> ({["x"; "y"]} : gset string) ->
  Vector2.__init__ cls [] kwargs s = (Raise AttributeError, s).
Proof.
  intros Hk Hd. unfold Vector2.__init__.
  rewrite (bool_decide_eq_false_2 ([] ≠ [])) by (intros H; apply H; reflexivity).
  rewrite (bool_decide_eq_false_2 (kwargs = ∅)) by assumption.
  rewrite (bool_decide_eq_true_2 (kwargs ≠ ∅)) by assumption.
  simpl. case_bool_decide; [reflexivity | contradiction].
Qed.

(** C8 on [Vector2(x=1, z=2)]: the keywords are not [x] and [y], and what
    comes out is [AttributeError], raised while the message of the
    intended [TypeError] is being formatted. *)
Theorem init_wrong_keywords_AttributeError :
  Vector2.__init__ Vector2_cls [] (<["x" := VInt 1]> (<["z" := VInt 2]> ∅)) 0%N =
    (Raise AttributeError, 0%N)
  /\ Vector2.__init__ Vector2_cls [VTuple [VInt 1; VInt 2]]
       (<["x" := VInt 1]> (<["y" := VInt 2]> ∅)) 0%N = (Raise TypeError, 0%N)
  /\ Vector2.__init__ Vector2_cls [] ∅ 0%N = (Raise TypeError, 0%N)
  /\ Vector2.__init__ Vector2_cls [VInt 1; VInt 2; VInt 3] ∅ 0%N = (Raise TypeError, 0%N).
Proof. repeat split; reflexivity. Qed.

(** ** Operations on one vector keep its class (C9) *)

Section KeepClass.

Variable hypot : float -> float -> float.
Variables cos sin : float -> float.

Lemma scale_by_type (self r : vector) (k : value) (s s' : N) :
  Vector2.scale_by self k s = (Ret r, s') -> vtype r = vtype self.
Proof.
  unfold Vector2.scale_by. unfold_monad.
  destruct (py_float k); [|discriminate].
  apply init_ret_type.
Qed.

Lemma neg_type (self r : vector) (s s' : N) :
  Vector2.__neg__ self s = (Ret r, s') -> vtype r = vtype self.
Proof. apply scale_by_type. Qed.

Lemma truediv_type (self r : vector) (k : value) (s s' : N) :
  Vector2.__truediv__ self k s = (Ret r, s') -> vtype r = vtype self.
Proof.
  unfold Vector2.__truediv__. unfold_monad.
  destruct (py_float k) as [f|]; [|discriminate].
  destruct (py_truediv (x self) f); [|discriminate].
  destruct (py_truediv (y self) f); [|discriminate].
  apply init_ret_type.
Qed.

Lemma rotate_type (self r : vector) (angle : float) (s s' : N) :
  Vector2.rotate cos sin self angle s = (Ret r, s') -> vtype r = vtype self.
Proof.
  unfold Vector2.rotate. unfold_monad.
  destruct (Vector2._trig cos sin angle) as [[c sn]|]; [|discriminate].
  apply init_ret_type.
Qed.

Lemma rmul_float_type (self : vector) (f : float) (v : value) (s s' : N) :
  Vector2.__rmul__ self (VFloat f) s = (Ret v, s') ->
  exists r, v = VVec r /\ vtype r = vtype self.
Proof.
  unfold Vector2.__rmul__, Vector2.__mul__. simpl. unfold_monad.
  destruct (Vector2.scale_by self (VFloat f) s) as [[r|] s1] eqn:E; [|discriminate].
  intros [= <- <-]. exists r. split; [reflexivity|].
  exact (scale_by_type _ _ _ _ _ E).
Qed.

Lemma scale_to_type (self r : vector) (length_ : value) (s s' : N) :
  Vector2.scale_to hypot self length_ s = (Ret r, s') -> vtype r = vtype self.
Proof.
  unfold Vector2.scale_to. unfold_monad.
  destruct (py_float length_) as [l|]; [|discriminate].
  destruct (l <? 0); [discriminate|].
  destruct (l =? 0); [apply init_ret_type|].
  destruct (Vector2.__rmul__ self (VFloat l) s) as [[v|] s1] eqn:E; [|discriminate].
  apply rmul_float_type in E as (scaled & -> & <-).
  apply truediv_type.
Qed.

Lemma normalize_type (self r : vector) (s s' : N) :
  Vector2.normalize hypot self s = (Ret r, s') -> vtype r = vtype self.
Proof. apply scale_to_type. Qed.

Lemma truncate_type (self r : vector) (max_length : value) (s s' : N) :
  Vector2.truncate hypot self max_length s = (Ret r, s') -> vtype r = vtype self.
Proof.
  unfold Vector2.truncate. unfold_monad.
  destruct (py_float max_length) as [m|]; [|discriminate].
  destruct (Vector2.length hypot self <=? m).
  - intros [= <- _]. reflexivity.
  - apply scale_to_type.
Qed.

(** C9: whichever of [scale_by], [-self], [self / k], [rotate],
    [truncate], [scale_to] and [normalize] returns a vector, that vector
    is of the class of [self]. *)
Theorem single_receiver_ops_keep_class (self r : vector) (k : value) (angle : float)
        (s s' : N) :
  In (Ret r, s')
     [ Vector2.scale_by self k s;
       Vector2.__neg__ self s;
       Vector2.__truediv__ self k s;
       Vector2.rotate cos sin self angle s;
       Vector2.truncate hypot self k s;
       Vector2.scale_to hypot self k s;
       Vector2.normalize hypot self s ] ->
  vtype r = vtype self.
Proof.
  simpl. intros [H|[H|[H|[H|[H|[H|[H|[]]]]]]]].
  - exact (scale_by_type _ _ _ _ _ H).
  - exact (neg_type _ _ _ _ H).
  - exact (truediv_type _ _ _ _ _ H).
  - exact (rotate_type _ _ _ _ _ H).
  - exact (truncate_type _ _ _ _ _ H).
  - exact (scale_to_type _ _ _ _ _ H).
  - exact (normalize_type _ _ _ _ H).
Qed.

End KeepClass.

Lemma single_receiver_ops_keep_class_witness :
  Vector2.normalize naive_hypot (Vec 0 Position_cls 3 4) 1%N =
    (Ret (Vec 2 Position_cls (3 / 5) (4 / 5)), 3%N)
  /\ vtype (Vec 2 Position_cls (3 / 5) (4 / 5)) = Position_cls.
Proof.
  split; [reflexivity|].
  apply (single_receiver_ops_keep_class naive_hypot axis_cos axis_sin
           (Vec 0 Position_cls 3 4) (Vec 2 Position_cls (3 / 5) (4 / 5))
           (VInt 1) 90 1%N 3%N).
  do 6 right. left. reflexivity.
Defined.

(** ** The angle between two vectors (C3) *)

Lemma F2Z_180 : F2Z 180 = (180 * 2 ^ 1074)%Z.
Proof. vm_compute. reflexivity. Qed.
Lemma F2Z_m180 : F2Z (-180) = (-180 * 2 ^ 1074)%Z.
Proof. vm_compute. reflexivity. Qed.
Lemma F2Z_360 : F2Z 360 = (360 * 2 ^ 1074)%Z.
Proof. vm_compute. reflexivity. Qed.

Lemma normalize_range (rv : float) :
  Fbounded 9 rv ->
  let r := if rv <=? -180 then rv + 360 else if 180 <? rv then rv - 360 else rv in
  (-180 <? r) = true /\ (r <=? 180) = true.
Proof.
  intros [Hf Hb].
  assert (Ffinite 180 = true) as F180 by reflexivity.
  assert (Ffinite (-180) = true) as Fm180 by reflexivity.
  assert (Ffinite 360 = true) as F360 by reflexivity.
  replace (9 + 1074)%Z with (9 + 1074)%Z in Hb by reflexivity.
  rewrite Z.pow_add_r in Hb by lia.
  cbv zeta.
  rewrite (leb_F2Z rv (-180) Hf Fm180), (ltb_F2Z 180 rv F180 Hf).
  rewrite F2Z_m180, F2Z_180.
  assert (0 < 2 ^ 1074)%Z as HU by (apply Z.pow_pos_nonneg; lia).
  change (2 ^ 9)%Z with 512%Z in Hb.
  assert (2 ^ (7 + 1074) = 128 * 2 ^ 1074)%Z as E7
    by (rewrite Z.pow_add_r by lia; reflexivity).
  assert (2 ^ (7 + 1 + 1074) = 256 * 2 ^ 1074)%Z as E8
    by (rewrite !Z.pow_add_r by lia; reflexivity).
  destruct (Z.leb_spec (F2Z rv) (-180 * 2 ^ 1074)) as [Hle|Hgt].
  - destruct (Fadd_exact rv 360 7 Hf F360) as [Hfr Hvr].
    + rewrite E7. lia.
    + rewrite E7, F2Z_360. lia.
    + lia.
    + rewrite E8, F2Z_360. lia.
    + rewrite (ltb_F2Z _ _ Fm180 Hfr), (leb_F2Z _ _ Hfr F180).
      rewrite Hvr, F2Z_m180, F2Z_180, F2Z_360.
      split; [apply Z.ltb_lt | apply Z.leb_le]; lia.
  - destruct (Z.ltb_spec (180 * 2 ^ 1074) (F2Z rv)) as [Hlt|Hge].
    + destruct (Fsub_exact rv 360 7 Hf F360) as [Hfr Hvr].
      * rewrite E7. lia.
      * rewrite E7, F2Z_360. lia.
      * lia.
      * rewrite E8, F2Z_360. lia.
      * rewrite (ltb_F2Z _ _ Fm180 Hfr), (leb_F2Z _ _ Hfr F180).
        rewrite Hvr, F2Z_m180, F2Z_180, F2Z_360.
        split; [apply Z.ltb_lt | apply Z.leb_le]; lia.
    + rewrite (ltb_F2Z _ _ Fm180 Hf), (leb_F2Z _ _ Hf F180).
      rewrite F2Z_m180, F2Z_180.
      split; [apply Z.ltb_lt | apply Z.leb_le]; lia.
Qed.

Lemma between_pi_bounded (r : float) :
  (- Py_MATH_PI <=? r) = true -> (r <=? Py_MATH_PI) = true -> Fbounded 2 r.
Proof.
  intros Hlo Hhi.
  assert (Ffinite Py_MATH_PI = true) as Fp by reflexivity.
  assert (Ffinite (- Py_MATH_PI) = true) as Fm by reflexivity.
  pose proof (Ffinite_between _ _ _ Fm Fp Hlo Hhi) as Fr.
  split; [assumption|].
  rewrite (leb_F2Z _ _ Fm Fr) in Hlo. rewrite (leb_F2Z _ _ Fr Fp) in Hhi.
  apply Z.leb_le in Hlo, Hhi.
  assert (F2Z (- Py_MATH_PI) = - F2Z Py_MATH_PI)%Z as E by (vm_compute; reflexivity).
  assert (F2Z Py_MATH_PI <= 2 ^ (2 + 1074))%Z as Hp
    by (apply Z.leb_le; vm_compute; reflexivity).
  rewrite E in Hlo. lia.
Qed.

Lemma m_atan2_in_range (atan2 : float -> float -> float) (b a : float) :
  atan2_in_range atan2 ->
  is_nan b = false -> is_nan a = false ->
  (- Py_MATH_PI <=? m_atan2 atan2 b a) = true
  /\ (m_atan2 atan2 b a <=? Py_MATH_PI) = true.
Proof.
  intros Hc Hb Ha. unfold m_atan2, copysign. rewrite Ha, Hb. cbn [orb].
  repeat match goal with
         | |- context [if ?c then _ else _] => destruct c
         end;
    try (split; vm_compute; reflexivity).
  apply Hc; assumption.
Qed.

Lemma math_atan2_ret (atan2 : float -> float -> float) (b a : float) :
  atan2_in_range atan2 ->
  is_nan b = false -> is_nan a = false ->
  math_atan2 atan2 b a = Ret (m_atan2 atan2 b a) /\ Fbounded 2 (m_atan2 atan2 b a).
Proof.
  intros Hc Hb Ha.
  destruct (m_atan2_in_range atan2 b a Hc Hb Ha) as [Hlo Hhi].
  pose proof (between_pi_bounded _ Hlo Hhi) as Hbd.
  split; [|assumption].
  destruct Hbd as [Hf _]. apply Ffinite_not_nan_inf in Hf as [Hn Hi].
  unfold math_atan2. cbv zeta. rewrite Hn, Hi. reflexivity.
Qed.

Lemma degrees_bounded (d : float) : Fbounded 3 d -> Fbounded 9 (degrees d).
Proof.
  intros Hd. unfold degrees.
  apply (Fmul_bounded 3 6); [lia | assumption |].
  split; [reflexivity|]. apply Z.leb_le. vm_compute. reflexivity.
Qed.

(** C3, as the code has it: with a C library whose [atan2] stays within
    [-pi, pi] on arguments that are not NaN, and vectors none of whose
    coordinates is a NaN,
    [a.angle(b)] is [degrees(atan2(b.x, -b.y) - atan2(a.x, -a.y))], plus
    360 when that is [<= -180], minus 360 when it is [> 180], and lies
    in the interval (-180, 180]. *)
Theorem angle_range (atan2 : float -> float -> float) (self : vector) (other : value)
        (o : vector) (s s1 : N) :
  atan2_in_range atan2 ->
  Vector2.convert Vector2_cls other s = (Ret o, s1) ->
  is_nan (x self) = false -> is_nan (y self) = false ->
  is_nan (x o) = false -> is_nan (y o) = false ->
  let rv := degrees (m_atan2 atan2 (x o) (- y o) - m_atan2 atan2 (x self) (- y self)) in
  let r := if rv <=? -180 then rv + 360 else if 180 <? rv then rv - 360 else rv in
  Vector2.angle atan2 self other s = (Ret r, s1)
  /\ (-180 <? r) = true /\ (r <=? 180) = true.
Proof.
  intros Hc Hconv Hsx Hsy Hox Hoy rv r.
  rewrite <- is_nan_opp in Hsy, Hoy.
  destruct (math_atan2_ret atan2 _ _ Hc Hox Hoy) as [Eo Bo].
  destruct (math_atan2_ret atan2 _ _ Hc Hsx Hsy) as [Es Bs].
  assert (Fbounded 9 rv) as Hrv.
  { apply degrees_bounded. apply (Fsub_bounded 2); [lia | assumption | assumption]. }
  split; [|exact (normalize_range rv Hrv)].
  unfold Vector2.angle. unfold_monad. rewrite Hconv, Eo, Es.
  fold rv. unfold r.
  destruct (rv <=? -180); [reflexivity|].
  destruct (180 <? rv); reflexivity.
Qed.

Lemma axis_atan2_in_range : atan2_in_range axis_atan2.
Proof.
  intros b a _ _. unfold axis_atan2, copysign.
  destruct (a =? 0); [destruct (get_sign b)|]; split; vm_compute; reflexivity.
Qed.

Lemma angle_range_witness :
  Vector2.angle axis_atan2 (Vec 0 Vector2_cls 1 0)
                (VTuple [VInt 0; VInt 1]) 1%N = (Ret 90, 2%N)
  /\ (-180 <? 90) = true /\ (90 <=? 180) = true.
Proof.
  apply (angle_range axis_atan2 (Vec 0 Vector2_cls 1 0) (VTuple [VInt 0; VInt 1])
           (Vec 1 Vector2_cls 0 1) 1%N 2%N);
    [exact axis_atan2_in_range | reflexivity ..].
Defined.

(** C3 as stated fails on a vector with a NaN coordinate: the angle is
    NaN, which lies in no interval. *)
Lemma angle_of_nan_is_nan :
  Vector2.angle axis_atan2 (Vec 0 Vector2_cls nan 0)
                (VTuple [VInt 0; VInt 1]) 1%N = (Ret nan, 2%N)
  /\ (-180 <? nan) = false /\ (nan <=? 180) = false.
Proof. repeat split; reflexivity. Qed.

(** * Further binary64 arithmetic *)

Set Warnings "-clear-no-such-hyp".

(** ** Commutativity, symmetry, zeros and units *)

Lemma Fmul_comm (a b : float) : a * b = b * a.
Proof.
  apply Prim2SF_inj. rewrite !mul_spec. unfold SF64mul, SFmul.
  destruct (Prim2SF a) as [sa|sa| |sa ma ea], (Prim2SF b) as [sb|sb| |sb mb eb];
    try reflexivity; rewrite ?(xorb_comm sa sb); try reflexivity.
  rewrite (Pos.mul_comm ma mb), (Z.add_comm ea eb). reflexivity.
Qed.

Lemma Fadd_comm (a b : float) : a + b = b + a.
Proof.
  apply Prim2SF_inj. rewrite !add_spec. unfold SF64add, SFadd.
  destruct (Prim2SF a) as [sa|sa| |sa ma ea], (Prim2SF b) as [sb|sb| |sb mb eb];
    try reflexivity; try (destruct sa, sb; reflexivity).
  rewrite (Z.min_comm ea eb), Z.add_comm. reflexivity.
Qed.

Lemma SFcompare_swap (f g : spec_float) :
  SFcompare g f = option_map CompOpp (SFcompare f g).
Proof.
  destruct f as [sf|sf| |sf mf ef], g as [sg|sg| |sg mg eg];
    try reflexivity; try (destruct sf, sg; reflexivity); try (destruct sf; reflexivity);
    try (destruct sg; reflexivity).
  simpl.
  change (Pos.compare_cont Eq mf mg) with (mf ?= mg)%positive.
  change (Pos.compare_cont Eq mg mf) with (mg ?= mf)%positive.
  rewrite (Z.compare_antisym ef eg), (Pos.compare_antisym mf mg).
  destruct sf, sg; try reflexivity;
    destruct (ef ?= eg)%Z; simpl; try reflexivity;
    destruct (mf ?= mg)%positive; reflexivity.
Qed.

Lemma Feqb_sym (a b : float) : (a =? b) = (b =? a).
Proof.
  rewrite !FloatAxioms.eqb_spec. unfold SFeqb.
  rewrite (SFcompare_swap (Prim2SF a) (Prim2SF b)).
  destruct (SFcompare (Prim2SF a) (Prim2SF b)) as [[]|]; reflexivity.
Qed.

Lemma Fsub_diag (a : float) : Ffinite a = true -> a - a = 0.
Proof.
  unfold Ffinite. intros Fa. apply Prim2SF_inj. rewrite sub_spec.
  replace (Prim2SF 0) with (S754_zero false) by reflexivity.
  unfold SF64sub, SFsub.
  destruct (Prim2SF a) as [s|s| |s m e]; try discriminate.
  - destruct s; reflexivity.
  - rewrite Z.sub_diag. reflexivity.
Qed.

Lemma Fopp_involutive (a : float) : - - a = a.
Proof.
  apply Prim2SF_inj. rewrite !opp_spec.
  destruct (Prim2SF a) as [s|s| |s m e]; simpl; rewrite ?negb_involutive; reflexivity.
Qed.

Local Open Scope Z_scope.

Lemma valid_canonical (s : bool) (m : positive) (e : Z) :
  valid_binary (S754_finite s m e) = true ->
  fexp64 (Zpos (digits2_pos m) + e) = e /\ e <= 971.
Proof.
  simpl. unfold bounded, canonical_mantissa.
  intros [H1 H2]%andb_true_iff.
  apply Z.eqb_eq in H1. apply Z.leb_le in H2. unfold emax, prec in H2.
  split; [exact H1 | lia].
Qed.

(** Multiplying a binary64 mantissa by the mantissa [2^52] of one and
    rounding gives the mantissa back. *)
Lemma binary_round_aux_times_one (s : bool) (m : positive) (e : Z) :
  valid_binary (S754_finite s m e) = true ->
  binary_round_aux prec emax s (Zpos (m * 4503599627370496)) (e + -52) loc_Exact
  = S754_finite s m e.
Proof.
  intros V. destruct (valid_canonical s m e V) as [Hc He].
  assert ((m * 4503599627370496)%positive = Pos.iter xO m 52) as ->
    by (rewrite Pos.mul_comm; reflexivity).
  pose proof (iter_xO_val m 52) as Hval. pose proof (iter_xO_digits m 52) as Hdig.
  set (p := Pos.iter xO m 52) in *. clearbody p.
  unfold binary_round_aux.
  rewrite shr_fexp_exact by lia.
  change (Zdigits2 (Zpos p)) with (Zpos (digits2_pos p)). cbv zeta.
  rewrite Hdig.
  replace (Zpos (digits2_pos m) + 52 + (e + -52)) with (Zpos (digits2_pos m) + e) by lia.
  rewrite Hc.
  replace (e - (e + -52)) with 52 by lia.
  change (0 <? 52) with true. cbv iota.
  assert (shr_state (Zpos p) 52
          = {| shr_m := Zpos m; shr_r := false; shr_s := false |}) as ->.
  { unfold shr_state. rewrite Hval.
    rewrite Z.div_mul by discriminate.
    rewrite Z.mod_mul by discriminate.
    change (2 ^ 52) with (2 * 2 ^ (52 - 1)). rewrite Z.mul_assoc.
    rewrite Z.mod_mul by discriminate. reflexivity. }
  replace (e + -52 + 52) with e by lia.
  cbn [shr_m loc_of_shr_record shr_r shr_s round_nearest_even].
  rewrite shr_fexp_exact by lia.
  change (Zdigits2 (Zpos m)) with (Zpos (digits2_pos m)). cbv zeta.
  rewrite Hc, Z.sub_diag. change (0 <? 0) with false. cbv iota.
  cbn [shr_m].
  rewrite (proj2 (Z.leb_le e (emax - prec))) by (unfold emax, prec; lia).
  reflexivity.
Qed.

Local Open Scope float_scope.

Lemma Fmul_1_r (a : float) : a * 1 = a.
Proof.
  apply Prim2SF_inj. rewrite mul_spec.
  replace (Prim2SF 1) with (S754_finite false 4503599627370496 (-52)) by reflexivity.
  pose proof (Prim2SF_valid a) as V.
  destruct (Prim2SF a) as [s|s| |s m e]; simpl; rewrite ?xorb_false_r; try reflexivity.
  apply binary_round_aux_times_one. exact V.
Qed.

Lemma Fmul_m1_r (a : float) : a * (-1) = - a.
Proof.
  apply Prim2SF_inj. rewrite mul_spec, opp_spec.
  replace (Prim2SF (-1)) with (S754_finite true 4503599627370496 (-52)) by reflexivity.
  pose proof (Prim2SF_valid a) as V.
  destruct (Prim2SF a) as [s|s| |s m e]; simpl; rewrite ?xorb_true_r; try reflexivity.
  apply binary_round_aux_times_one. exact V.
Qed.

(** ** Order against zero *)

Lemma Feqb_zero_not_neg (l : float) : (l =? 0) = true -> (l <? 0) = false.
Proof.
  rewrite FloatAxioms.ltb_spec, FloatAxioms.eqb_spec.
  replace (Prim2SF 0) with (S754_zero false) by reflexivity.
  unfold SFltb, SFeqb, SFcompare.
  destruct (Prim2SF l) as [[]|[]| |[] m e]; simpl; congruence.
Qed.

Lemma Fleb_zero_not_neg (l : float) : (0 <=? l) = true -> (l <? 0) = false.
Proof.
  rewrite FloatAxioms.ltb_spec, FloatAxioms.leb_spec.
  replace (Prim2SF 0) with (S754_zero false) by reflexivity.
  unfold SFltb, SFleb, SFcompare.
  destruct (Prim2SF l) as [[]|[]| |[] m e]; simpl; congruence.
Qed.

(** Nothing that is at least zero is at most a negative number. *)
Lemma Fleb_neg_false (L l : float) :
  (0 <=? L) = true -> (l <? 0) = true -> (L <=? l) = false.
Proof.
  rewrite FloatAxioms.ltb_spec, !FloatAxioms.leb_spec.
  replace (Prim2SF 0) with (S754_zero false) by reflexivity.
  unfold SFltb, SFleb, SFcompare.
  destruct (Prim2SF L) as [[]|[]| |[] m e]; simpl; try congruence;
    destruct (Prim2SF l) as [[]|[]| |[] m' e']; simpl; congruence.
Qed.

(** ** Zeros *)

Lemma SFeqb_refl_finite (s : bool) (m : positive) (e : Z) :
  SFeqb (S754_finite s m e) (S754_finite s m e) = true.
Proof.
  unfold SFeqb, SFcompare. rewrite Z.compare_refl.
  change (Pos.compare_cont Eq m m) with (m ?= m)%positive.
  rewrite Pos.compare_refl. destruct s; reflexivity.
Qed.

Lemma Fmul_zero_r (a z : float) :
  Ffinite a = true -> (z =? 0) = true -> (a * z =? 0) = true.
Proof.
  unfold Ffinite. rewrite !FloatAxioms.eqb_spec, mul_spec.
  replace (Prim2SF 0) with (S754_zero false) by reflexivity.
  destruct (Prim2SF a) as [sa|sa| |sa ma ea]; try discriminate;
    destruct (Prim2SF z) as [sz|sz| |sz mz ez]; simpl; try discriminate;
    try (destruct sz; discriminate); reflexivity.
Qed.

Lemma Ffinite_opp (a : float) : Ffinite (- a) = Ffinite a.
Proof. unfold Ffinite. rewrite opp_spec. destruct (Prim2SF a); reflexivity. Qed.

(** A zero subtracted from, or added to, a finite number leaves it; a
    finite number subtracted from a zero is negated.  The sign of a zero
    result may differ, which [=?] does not see. *)
Lemma Fsub_zero_l (z b : float) :
  (z =? 0) = true -> Ffinite b = true -> (z - b =? - b) = true.
Proof.
  unfold Ffinite. rewrite !FloatAxioms.eqb_spec, sub_spec, opp_spec.
  replace (Prim2SF 0) with (S754_zero false) by reflexivity.
  destruct (Prim2SF z) as [sz|sz| |sz mz ez]; simpl; try discriminate;
    try (destruct sz; discriminate); intros _;
    destruct (Prim2SF b) as [sb|sb| |sb mb eb]; try discriminate; intros _.
  - destruct sz, sb; reflexivity.
  - apply SFeqb_refl_finite.
Qed.

Lemma Fsub_zero_r (a z : float) :
  Ffinite a = true -> (z =? 0) = true -> (a - z =? a) = true.
Proof.
  unfold Ffinite. rewrite !FloatAxioms.eqb_spec, sub_spec.
  replace (Prim2SF 0) with (S754_zero false) by reflexivity.
  destruct (Prim2SF a) as [sa|sa| |sa ma ea]; try discriminate; intros _;
    destruct (Prim2SF z) as [sz|sz| |sz mz ez]; simpl; try discriminate;
    try (destruct sz; discriminate); intros _.
  - destruct sa, sz; reflexivity.
  - apply SFeqb_refl_finite.
Qed.

Lemma Fadd_zero_r (a z : float) :
  Ffinite a = true -> (z =? 0) = true -> (a + z =? a) = true.
Proof.
  unfold Ffinite. rewrite !FloatAxioms.eqb_spec, add_spec.
  replace (Prim2SF 0) with (S754_zero false) by reflexivity.
  destruct (Prim2SF a) as [sa|sa| |sa ma ea]; try discriminate; intros _;
    destruct (Prim2SF z) as [sz|sz| |sz mz ez]; simpl; try discriminate;
    try (destruct sz; discriminate); intros _.
  - destruct sa, sz; reflexivity.
  - apply SFeqb_refl_finite.
Qed.

Lemma Fadd_zero_l (z a : float) :
  (z =? 0) = true -> Ffinite a = true -> (z + a =? a) = true.
Proof. intros Hz Ha. rewrite Fadd_comm. apply Fadd_zero_r; assumption. Qed.

(** ** Plus or minus one *)

Lemma Fabs_one (u : float) : abs u = 1 -> u = 1 \/ u = -1.
Proof.
  intros H. apply (f_equal Prim2SF) in H. rewrite abs_spec in H.
  replace (Prim2SF 1) with (S754_finite false 4503599627370496 (-52)) in H by reflexivity.
  destruct (Prim2SF u) as [s|s| |s m e] eqn:E; try discriminate.
  simpl in H. injection H as -> ->.
  destruct s; [right | left]; apply Prim2SF_inj; rewrite E; reflexivity.
Qed.

Lemma Fmul_unit_r (a u : float) :
  abs u = 1 -> a * u = (if get_sign u then - a else a).
Proof.
  intros [-> | ->]%Fabs_one.
  - rewrite Fmul_1_r. reflexivity.
  - rewrite Fmul_m1_r. reflexivity.
Qed.

Lemma Fleb_one_finite (c : float) :
  (abs c <=? 1) = true -> is_nan c = false /\ is_infinity c = false.
Proof.
  intros H. apply Ffinite_not_nan_inf. revert H.
  unfold Ffinite. rewrite FloatAxioms.leb_spec, abs_spec.
  replace (Prim2SF 1) with (S754_finite false 4503599627370496 (-52)) by reflexivity.
  destruct (Prim2SF c) as [s|s| |s m e]; try reflexivity; discriminate.
Qed.

Lemma Fltb_of_leb (a b : float) : (a <=? b) = true -> (b <? a) = false.
Proof.
  rewrite FloatAxioms.leb_spec, FloatAxioms.ltb_spec. unfold SFleb, SFltb.
  rewrite (SFcompare_swap (Prim2SF a) (Prim2SF b)).
  destruct (SFcompare (Prim2SF a) (Prim2SF b)) as [[]|]; simpl; congruence.
Qed.

Lemma Fleb_of_ltb (a b : float) : (a <? b) = true -> (a <=? b) = true.
Proof.
  rewrite FloatAxioms.leb_spec, FloatAxioms.ltb_spec. unfold SFleb, SFltb.
  destruct (SFcompare (Prim2SF a) (Prim2SF b)) as [[]|]; simpl; congruence.
Qed.

(** ** The square of a rounded square root *)

Local Open Scope Z_scope.

Lemma round_shr_state_rne (m n : Z) :
  0 <= m -> 1 <= n ->
  round_nearest_even (shr_m (shr_state m n)) (loc_of_shr_record (shr_state m n))
  = rne m n.
Proof.
  intros Hm Hn. unfold shr_state, rne. simpl.
  assert (0 < 2 ^ (n - 1)) as Hp' by (apply Z.pow_pos_nonneg; lia).
  assert (2 ^ n = 2 * 2 ^ (n - 1)) as E2.
  { replace n with (n - 1 + 1) at 1 by lia. rewrite Z.pow_add_r by lia. lia. }
  pose proof (mod_pow2_succ m (n - 1) ltac:(lia)) as E.
  replace (n - 1 + 1) with n in E by lia.
  pose proof (Z.mod_pos_bound m (2 ^ (n - 1)) Hp') as Hb.
  set (q := m / 2 ^ n) in *. set (rm := m mod 2 ^ n) in *.
  set (lo := m mod 2 ^ (n - 1)) in *.
  destruct (Z.odd (m / 2 ^ (n - 1))).
  - rewrite (proj2 (Z.leb_le (2 ^ (n - 1)) rm)) by lia.
    rewrite (proj2 (Z.ltb_ge (2 * rm) (2 ^ n))) by lia.
    destruct (Z.eqb_spec lo 0) as [H0|H0]; simpl.
    + rewrite (proj2 (Z.ltb_ge (2 ^ n) (2 * rm))) by lia. reflexivity.
    + rewrite (proj2 (Z.ltb_lt (2 ^ n) (2 * rm))) by lia. reflexivity.
  - rewrite (proj2 (Z.leb_gt (2 ^ (n - 1)) rm)) by lia.
    rewrite (proj2 (Z.ltb_lt (2 * rm) (2 ^ n))) by lia.
    destruct (negb (lo =? 0)); reflexivity.
Qed.

Lemma rne_bounds (m n : Z) :
  0 <= m -> 1 <= n ->
  m / 2 ^ n <= rne m n <= m / 2 ^ n + 1
  /\ 2 * m - 2 ^ n <= 2 * (rne m n * 2 ^ n) <= 2 * m + 2 ^ n.
Proof.
  intros Hm Hn. rewrite <- round_shr_state_rne by assumption.
  apply round_shr_state; assumption.
Qed.

Lemma digits_of_range (p : positive) (d : Z) :
  2 ^ (d - 1) <= Zpos p < 2 ^ d -> Zpos (digits2_pos p) = d.
Proof.
  intros [Hlo Hhi]. pose proof (digits2_pos_bounds p) as [Dlo Dhi].
  assert (0 <= d).
  { destruct (Z.neg_nonneg_cases d) as [Hn|]; [|assumption].
    rewrite Z.pow_neg_r in Hhi by assumption. lia. }
  set (dd := Zpos (digits2_pos p)) in *.
  destruct (Z.lt_trichotomy dd d) as [H1|[H1|H1]]; [|assumption|].
  - assert (2 ^ dd <= 2 ^ (d - 1)) by (apply Z.pow_le_mono_r; lia). lia.
  - assert (2 ^ d <= 2 ^ (dd - 1)) by (apply Z.pow_le_mono_r; lia). lia.
Qed.

(** [binary_round_aux] on a mantissa of more than 53 digits whose
    rounding stays in the normal range. *)
Lemma binary_round_aux_normal (sx : bool) (m : positive) (e : Z) :
  let d := Zpos (digits2_pos m) in
  let n := d - 53 in
  1 <= n -> -1074 <= e + n -> e + n + 1 <= 971 ->
  exists m3 e3,
    binary_round_aux prec emax sx (Zpos m) e loc_Exact = S754_finite sx m3 e3
    /\ e + n <= e3
    /\ Zpos m3 * 2 ^ (e3 - (e + n)) = rne (Zpos m) n
    /\ 2 ^ 52 <= rne (Zpos m) n <= 2 ^ 53.
Proof.
  intros d n Hn Hlo Hhi.
  pose proof (digits2_pos_bounds m) as [Dlo Dhi]. fold d in Dlo, Dhi.
  unfold binary_round_aux.
  rewrite shr_fexp_exact by lia. simpl Zdigits2. fold d. cbv zeta.
  assert (fexp64 (d + e) - e = n) as -> by (rewrite fexp64_eq; lia).
  rewrite (proj2 (Z.ltb_lt 0 n)) by lia.
  rewrite round_shr_state_rne by lia.
  pose proof (rne_bounds (Zpos m) n ltac:(lia) Hn) as [[Rlo Rhi] _].
  pose proof (pow2_pos n ltac:(lia)) as Hp.
  assert (2 ^ 52 <= Zpos m / 2 ^ n < 2 ^ 53) as Hq.
  { split.
    - apply Z.div_le_lower_bound; [lia|].
      rewrite <- Z.pow_add_r by lia. replace (n + 52) with (d - 1) by lia. lia.
    - apply Z.div_lt_upper_bound; [lia|].
      rewrite <- Z.pow_add_r by lia. replace (n + 53) with d by lia. lia. }
  set (m2 := rne (Zpos m) n) in *.
  rewrite shr_fexp_exact by lia. cbv zeta.
  destruct m2 as [|p2|p2] eqn:Em2; try lia.
  simpl Zdigits2.
  destruct (Z.eq_dec (Zpos p2) (2 ^ 53)) as [E53|N53].
  - assert (Zpos (digits2_pos p2) = 54) as -> by (apply digits_of_range; lia).
    assert (fexp64 (54 + (e + n)) - (e + n) = 1) as -> by (rewrite fexp64_eq; lia).
    change (0 <? 1) with true. unfold shr_state. cbv beta iota zeta. cbn [shr_m].
    rewrite E53. change (2 ^ 53 / 2 ^ 1) with (Zpos (2 ^ 52)). cbv beta iota.
    rewrite (proj2 (Z.leb_le (e + n + 1) (emax - prec))) by (unfold emax, prec; lia).
    exists (2 ^ 52)%positive, (e + n + 1). split; [reflexivity|].
    split; [lia|]. split; [|lia].
    replace (e + n + 1 - (e + n)) with 1 by lia. reflexivity.
  - assert (Zpos (digits2_pos p2) = 53) as -> by (apply digits_of_range; lia).
    assert (fexp64 (53 + (e + n)) - (e + n) = 0) as -> by (rewrite fexp64_eq; lia).
    change (0 <? 0) with false. cbv beta iota zeta. cbn [shr_m]. cbv beta iota.
    rewrite (proj2 (Z.leb_le (e + n) (emax - prec))) by (unfold emax, prec; lia).
    exists p2, (e + n). split; [reflexivity|].
    split; [lia|]. split; [|lia].
    rewrite Z.sub_diag. simpl. lia.
Qed.

Lemma loc_of_record_of_loc (q : Z) (l : location) :
  loc_of_shr_record (shr_record_of_loc q l) = l
  /\ shr_m (shr_record_of_loc q l) = q.
Proof. destruct l as [|[]]; split; reflexivity. Qed.

(** [binary_round_aux] on a mantissa of exactly 53 digits, whatever the
    location: only the rounding digit is decided. *)
Lemma binary_round_aux_noshift (sx : bool) (q e : Z) (l : location) :
  2 ^ 52 <= q < 2 ^ 53 -> -1074 <= e -> e + 1 <= 971 ->
  q <= round_nearest_even q l <= q + 1 ->
  exists m3 e3,
    binary_round_aux prec emax sx q e l = S754_finite sx m3 e3
    /\ e <= e3
    /\ Zpos m3 * 2 ^ (e3 - e) = round_nearest_even q l.
Proof.
  intros Hq Hlo Hhi Hr. unfold binary_round_aux.
  destruct q as [|p|p]; try lia.
  unfold shr_fexp at 1. simpl Zdigits2.
  assert (Zpos (digits2_pos p) = 53) as -> by (apply digits_of_range; lia).
  assert (fexp64 (53 + e) - e = 0) as -> by (rewrite fexp64_eq; lia).
  cbn [shr].
  destruct (loc_of_record_of_loc (Zpos p) l) as [-> ->].
  set (m2 := round_nearest_even (Zpos p) l) in *.
  rewrite shr_fexp_exact by lia. cbv zeta.
  destruct m2 as [|p2|p2] eqn:Em2; try lia.
  simpl Zdigits2.
  destruct (Z.eq_dec (Zpos p2) (2 ^ 53)) as [E53|N53].
  - assert (Zpos (digits2_pos p2) = 54) as -> by (apply digits_of_range; lia).
    assert (fexp64 (54 + e) - e = 1) as -> by (rewrite fexp64_eq; lia).
    change (0 <? 1) with true. unfold shr_state. cbv beta iota zeta. cbn [shr_m].
    rewrite E53. change (2 ^ 53 / 2 ^ 1) with (Zpos (2 ^ 52)). cbv beta iota.
    rewrite (proj2 (Z.leb_le (e + 1) (emax - prec))) by (unfold emax, prec; lia).
    exists (2 ^ 52)%positive, (e + 1). split; [reflexivity|].
    split; [lia|].
    replace (e + 1 - e) with 1 by lia. reflexivity.
  - assert (Zpos (digits2_pos p2) = 53) as -> by (apply digits_of_range; lia).
    assert (fexp64 (53 + e) - e = 0) as -> by (rewrite fexp64_eq; lia).
    change (0 <? 0) with false. cbv beta iota zeta. cbn [shr_m]. cbv beta iota.
    rewrite (proj2 (Z.leb_le e (emax - prec))) by (unfold emax, prec; lia).
    exists p2, e. split; [reflexivity|].
    split; [lia|].
    rewrite Z.sub_diag. simpl. lia.
Qed.

(** The square root of a normal number: a 53-digit mantissa [qw] at the
    exponent [e'], whose square is within [qw] of the scaled argument. *)
Lemma SFsqrt_normal (mu : positive) (eu : Z) :
  2 ^ 52 <= Zpos mu < 2 ^ 53 -> -1000 <= eu <= 900 ->
  let e' := eu / 2 - 26 in
  let s := eu - 2 * e' in
  exists m3 e3 qw,
    SF64sqrt (S754_finite false mu eu) = S754_finite false m3 e3
    /\ e' <= e3
    /\ Zpos m3 * 2 ^ (e3 - e') = qw
    /\ 2 ^ 52 <= qw <= 2 ^ 53
    /\ Z.abs (qw * qw - Zpos mu * 2 ^ s) <= qw.
Proof.
  intros Hmu Heu e' s.
  unfold SF64sqrt, SFsqrt, SFsqrt_core_binary.
  simpl Zdigits2.
  assert (Zpos (digits2_pos mu) = 53) as -> by (apply digits_of_range; lia).
  rewrite !Z.div2_div.
  assert ((53 + eu + 1) / 2 = eu / 2 + 27) as ->.
  { replace (53 + eu + 1) with (eu + 27 * 2) by lia. apply Z.div_add; lia. }
  assert (Z.min (fexp64 (eu / 2 + 27)) (eu / 2) = e') as ->.
  { rewrite fexp64_eq. unfold e'.
    pose proof (Z.div_mod eu 2 ltac:(lia)). pose proof (Z.mod_pos_bound eu 2 ltac:(lia)).
    lia. }
  change (Zpos 2) with 2. fold s.
  assert (s = 52 \/ s = 53) as Hs.
  { unfold s, e'.
    pose proof (Z.div_mod eu 2 ltac:(lia)). pose proof (Z.mod_pos_bound eu 2 ltac:(lia)).
    lia. }
  assert (2 ^ 104 <= Zpos mu * 2 ^ s < 2 ^ 106) as Hm'.
  { destruct Hs as [-> | ->]; lia. }
  assert (match s with
          | Zpos _ => Z.shiftl (Zpos mu) s
          | Z0 => Zpos mu
          | Zneg _ => 0
          end = Zpos mu * 2 ^ s) as ->.
  { destruct Hs as [-> | ->]; rewrite Z.shiftl_mul_pow2 by lia; reflexivity. }
  set (m' := Zpos mu * 2 ^ s) in *.
  pose proof (Z.sqrtrem_spec m' ltac:(lia)) as Hsq.
  destruct (Z.sqrtrem m') as [q r]. destruct Hsq as [Hm'q Hr].
  assert (2 ^ 52 <= q < 2 ^ 53) as Hq by nia.
  set (l := if r =? 0 then loc_Exact
            else loc_Inexact (if r <=? q then Lt else Gt)).
  assert (round_nearest_even q l = if r <=? q then q else q + 1) as Hrne.
  { unfold l. destruct (Z.eqb_spec r 0) as [->|Hr0].
    - simpl. rewrite (proj2 (Z.leb_le 0 q)) by lia. reflexivity.
    - destruct (r <=? q); reflexivity. }
  destruct (binary_round_aux_noshift false q e' l Hq) as (m3 & e3 & E & He3 & Hv).
  { unfold e'. pose proof (Z.div_mod eu 2 ltac:(lia)).
    pose proof (Z.mod_pos_bound eu 2 ltac:(lia)). lia. }
  { unfold e'. pose proof (Z.div_mod eu 2 ltac:(lia)).
    pose proof (Z.mod_pos_bound eu 2 ltac:(lia)). lia. }
  { rewrite Hrne. destruct (r <=? q); lia. }
  exists m3, e3, (round_nearest_even q l).
  split; [exact E|]. split; [assumption|]. split; [assumption|].
  rewrite Hrne.
  destruct (Z.leb_spec r q); split; try lia; nia.
Qed.

Lemma SFmul_square_normal (s : bool) (m : positive) (e : Z) :
  2 ^ 52 <= Zpos m < 2 ^ 53 -> -500 <= e <= 400 ->
  exists m3 e3 n r,
    SF64mul (S754_finite s m e) (S754_finite s m e) = S754_finite false m3 e3
    /\ (n = 52 \/ n = 53)
    /\ 2 ^ (n + 52) <= Zpos m * Zpos m < 2 ^ (n + 53)
    /\ 2 * e + n <= e3
    /\ Zpos m3 * 2 ^ (e3 - (2 * e + n)) = r
    /\ 2 * (Zpos m * Zpos m) - 2 ^ n <= 2 * (r * 2 ^ n) <= 2 * (Zpos m * Zpos m) + 2 ^ n.
Proof.
  intros Hm He. unfold SF64mul, SFmul.
  replace (xorb s s) with false by (destruct s; reflexivity).
  assert (2 ^ 104 <= Zpos (m * m) < 2 ^ 106) as Hmm by (rewrite Pos2Z.inj_mul; nia).
  set (d := Zpos (digits2_pos (m * m))).
  assert (d = 105 \/ d = 106) as Hd.
  { destruct (Z.lt_ge_cases (Zpos (m * m)) (2 ^ 105)).
    - left. apply digits_of_range. lia.
    - right. apply digits_of_range. lia. }
  assert (2 ^ (d - 1) <= Zpos (m * m) < 2 ^ d) as Hdd
    by (apply digits2_pos_bounds).
  destruct (binary_round_aux_normal false (m * m) (e + e))
    as (m3 & e3 & E & He3 & Hv & _); fold d; try lia.
  exists m3, e3, (d - 53), (rne (Zpos (m * m)) (d - 53)).
  split; [exact E|]. split; [lia|].
  rewrite <- Pos2Z.inj_mul.
  split; [replace (d - 53 + 52) with (d - 1) by lia;
          replace (d - 53 + 53) with d by lia; exact Hdd|].
  split; [lia|]. split.
  - fold d in Hv. rewrite <- Hv. f_equal. f_equal. lia.
  - apply rne_bounds; lia.
Qed.

Local Open Scope float_scope.

Lemma F2Z_inj (a b : float) :
  Ffinite a = true -> Ffinite b = true ->
  F2Z a = F2Z b -> F2Z a <> 0%Z -> a = b.
Proof.
  unfold Ffinite, F2Z. intros Fa Fb E Hnz. apply Prim2SF_inj.
  pose proof (SFcompare_SF2Z _ _ (Prim2SF_valid a) (Prim2SF_valid b) Fa Fb) as Hc.
  rewrite E, Z.compare_refl in Hc.
  rewrite E in Hnz.
  destruct (Prim2SF a) as [sa| | |sa ma ea]; try discriminate;
  destruct (Prim2SF b) as [sb| | |sb mb eb]; try discriminate;
    cbn [SF2Z] in *; try lia.
  simpl in Hc. injection Hc as Hc.
  destruct sa, sb; try discriminate.
  - destruct (Z.compare_spec ea eb) as [->|?|?]; try discriminate.
    apply (f_equal CompOpp) in Hc. rewrite CompOpp_involutive in Hc. simpl in Hc.
    change (Pos.compare_cont Eq ma mb) with (ma ?= mb)%positive in Hc.
    apply Pos.compare_eq in Hc. subst. reflexivity.
  - destruct (Z.compare_spec ea eb) as [->|?|?]; try discriminate.
    change (Pos.compare_cont Eq ma mb) with (ma ?= mb)%positive in Hc.
    apply Pos.compare_eq in Hc. subst. reflexivity.
Qed.

(** Rounding to nearest even, at the two binades around one: an integer
    [p] within [Q/2] below or [Q] above [2^53 * Q] is rounded to
    [2^53 * Q], whether the unit is [Q] (below) or [2 * Q] (above). *)
Lemma rne_to_one (p n Q : Z) :
  (0 < Q)%Z -> (0 <= n)%Z ->
  (2 * (2 ^ 53 * Q) - Q <= 2 * p <= 2 * (2 ^ 53 * Q) + 2 * Q)%Z ->
  ((2 ^ n = Q /\ p < 2 ^ 53 * Q) \/ (2 ^ n = 2 * Q /\ 2 ^ 53 * Q <= p))%Z ->
  (rne p n * 2 ^ n = 2 ^ 53 * Q)%Z.
Proof.
  intros HQ Hn HNb Hcase. unfold rne.
  pose proof (pow2_pos n Hn) as Hpn.
  pose proof (Z.div_mod p (2 ^ n) ltac:(lia)) as Hdm.
  pose proof (Z.mod_pos_bound p (2 ^ n) Hpn) as Hmb.
  set (q := (p / 2 ^ n)%Z) in *. set (rm := (p mod 2 ^ n)%Z) in *.
  clearbody q rm. clear Hpn Hn.
  destruct Hcase as [[EQ Hlt] | [EQ Hge]]; rewrite EQ in *; clear EQ.
  - assert (q = 2 ^ 53 - 1)%Z as Eq by nia. subst q.
    cbv zeta. rewrite (proj2 (Z.ltb_ge (2 * rm) Q)) by lia.
    destruct (Z.ltb_spec Q (2 * rm)); [lia|].
    change (Z.even (2 ^ 53 - 1)) with false. lia.
  - assert (q = 2 ^ 52)%Z as Eq by nia. subst q.
    cbv zeta. destruct (Z.ltb_spec (2 * rm) (2 * Q)); [lia|].
    rewrite (proj2 (Z.ltb_ge (2 * Q) (2 * rm))) by lia.
    change (Z.even (2 ^ 52)) with true. lia.
Qed.

(** A sum within half a unit in the last place of one is rounded to
    one. *)
Lemma SFadd_rounds_to_one (mx my : positive) (ex ey : Z) :
  let fx := S754_finite false mx ex in
  let fy := S754_finite false my ey in
  valid_binary fx = true -> valid_binary fy = true ->
  (Z.min ex ey <= -53)%Z ->
  (2 ^ 1074 - 2 ^ 1020 <= SF2Z fx + SF2Z fy <= 2 ^ 1074 + 2 ^ 1021)%Z ->
  SFfinite (SF64add fx fy) = true /\ SF2Z (SF64add fx fy) = (2 ^ 1074)%Z.
Proof.
  intros fx fy Vx Vy Hez Hs.
  pose proof (valid_finite_bounds _ _ _ Vx) as (Hex & _).
  pose proof (valid_finite_bounds _ _ _ Vy) as (Hey & _).
  pose proof (aligned_sum_val false false mx my ex ey Z.add (or_introl eq_refl)
                ltac:(lia) ltac:(lia)) as Hn.
  fold fx fy in Hn.
  unfold SF64add, fx, fy, SFadd. cbv zeta. cbn [cond_Zopp] in *.
  set (ez := Z.min ex ey) in *.
  set (N := (Zpos (fst (shl_align mx ex ez)) + Zpos (fst (shl_align my ey ez)))%Z) in *.
  assert (0 < N)%Z as HN by (unfold N; lia).
  rewrite <- Hn in Hs.
  (* in units of 2^ez, one is 2^(-ez) *)
  assert (2 ^ 1074 = 2 ^ (- ez) * 2 ^ (ez + 1074))%Z as E1
    by (rewrite <- Z.pow_add_r by lia; f_equal; lia).
  assert (2 ^ 1021 = 2 ^ (- ez - 53) * 2 ^ (ez + 1074))%Z as E2
    by (rewrite <- Z.pow_add_r by lia; f_equal; lia).
  pose proof (pow2_pos (ez + 1074) ltac:(lia)) as HP.
  pose proof (pow2_pos (- ez - 53) ltac:(lia)) as HQ.
  assert (2 * 2 ^ 1020 = 2 ^ 1021)%Z as E3 by reflexivity.
  assert (2 ^ (- ez) = 2 ^ 53 * 2 ^ (- ez - 53))%Z as E4
    by (rewrite <- Z.pow_add_r by lia; f_equal; lia).
  set (P := (2 ^ (ez + 1074))%Z) in *. set (Q := (2 ^ (- ez - 53))%Z) in *.
  assert (2 * (2 ^ 53 * Q) - Q <= 2 * N <= 2 * (2 ^ 53 * Q) + 2 * Q)%Z as HNb.
  { rewrite E1, E4 in Hs. rewrite E2 in E3.
    split; apply (Z.mul_le_mono_pos_r _ _ P HP); nia. }
  destruct N as [|p|p] eqn:EN; try lia.
  cbn [binary_normalize]. unfold binary_round.
  (* the sum has 54 digits or more: no left shift *)
  set (d := Zpos (digits2_pos p)).
  pose proof (digits2_pos_bounds p) as [Dlo Dhi]. fold d in Dlo, Dhi.
  assert (2 ^ 53 <= Zpos p)%Z as Hp53 by nia.
  assert (54 <= d)%Z as Hd54.
  { destruct (Z.lt_ge_cases d 54) as [Hlt|]; [|assumption].
    assert (2 ^ d <= 2 ^ 53)%Z by (apply Z.pow_le_mono_r; lia). lia. }
  pose proof (shl_align_val p ez (fexp64 (d + ez))) as Hsh.
  destruct (shl_align p ez (fexp64 (d + ez))) as [mz ez'].
  destruct Hsh as (Hez' & Hmz & _).
  rewrite fexp64_eq in Hez'.
  assert (ez' = ez) as -> by lia.
  rewrite Z.sub_diag, Z.mul_1_r in Hmz. injection Hmz as ->.
  (* which binade the sum is in *)
  assert (Zpos p < 2 ^ (- ez + 2))%Z as Hup.
  { replace (- ez + 2)%Z with (2 + 53 + (- ez - 53))%Z by lia.
    rewrite !Z.pow_add_r by lia. fold Q. lia. }
  assert (d = - ez \/ d = - ez + 1)%Z as Hd.
  { assert (d - 1 < - ez + 2)%Z.
    { apply (Z.pow_lt_mono_r_iff 2); [lia | lia | lia]. }
    assert (- ez - 1 < d)%Z.
    { apply (Z.pow_lt_mono_r_iff 2); [lia | lia |].
      replace (- ez - 1)%Z with (52 + (- ez - 53))%Z by lia.
      rewrite Z.pow_add_r by lia. fold Q. nia. }
    destruct (Z.eq_dec d (- ez + 2)%Z) as [->|]; [|lia].
    exfalso. replace (- ez + 2 - 1)%Z with (1 + 53 + (- ez - 53))%Z in Dlo by lia.
    rewrite !Z.pow_add_r in Dlo by lia. fold Q in Dlo. lia. }
  destruct (binary_round_aux_normal false p ez)
    as (m3 & e3 & E & He3 & Hv & _); fold d; try lia.
  rewrite E. split; [reflexivity|]. cbn [SF2Z cond_Zopp].
  fold d in Hv, He3.
  set (n := (d - 53)%Z) in *.
  assert (rne (Zpos p) n * 2 ^ n = 2 ^ 53 * Q)%Z as Hr.
  { apply rne_to_one; [exact HQ | unfold n; clear - Hd54; lia | exact HNb |].
    destruct Hd as [Hd|Hd]; [left | right].
    - split.
      + unfold Q, n. f_equal. clear - Hd. lia.
      + rewrite <- E4. replace (- ez)%Z with d by (clear - Hd; lia). exact Dhi.
    - split.
      + unfold Q, n. replace (d - 53)%Z with (1 + (- ez - 53))%Z by (clear - Hd; lia).
        rewrite Z.pow_add_r by (clear - Hez; lia). reflexivity.
      + rewrite <- E4. replace (- ez)%Z with (d - 1)%Z by (clear - Hd; lia). exact Dlo. }
  rewrite <- Hv in Hr.
  pose proof (valid_finite_bounds false m3 e3) as Hval.
  (* value of the result *)
  assert (Zpos m3 * 2 ^ (e3 + 1074) = Zpos m3 * 2 ^ (e3 - (ez + n)) * 2 ^ n * P)%Z as ->.
  { unfold P. rewrite <- !Z.mul_assoc. rewrite <- !Z.pow_add_r by lia.
    f_equal. f_equal. lia. }
  rewrite Hr, E1, E4. ring.
Qed.

Lemma F2Z_half : F2Z 0.5 = (2 ^ 1073)%Z.
Proof. vm_compute. reflexivity. Qed.
Lemma F2Z_one : F2Z 1 = (2 ^ 1074)%Z.
Proof. vm_compute. reflexivity. Qed.

Lemma finite_positive (a : float) :
  Ffinite a = true -> (0 < F2Z a)%Z ->
  exists m e, Prim2SF a = S754_finite false m e
              /\ F2Z a = (Zpos m * 2 ^ (e + 1074))%Z
              /\ (-1074 <= e <= 971)%Z /\ (Zpos m < 2 ^ 53)%Z
              /\ (-1074 < e -> 2 ^ 52 <= Zpos m)%Z.
Proof.
  unfold Ffinite, F2Z. intros Fa Hpos.
  pose proof (Prim2SF_valid a) as V.
  destruct (Prim2SF a) as [s| | |s m e]; try discriminate; cbn [SF2Z] in *;
    try lia.
  pose proof (valid_finite_bounds _ _ _ V) as (He & Hm & Hn).
  pose proof (pow2_pos (e + 1074) ltac:(lia)).
  destruct s; cbn [cond_Zopp] in *; [lia|].
  exists m, e. repeat split; try assumption; lia.
Qed.

(** The exponent of a positive number between two powers of two. *)
Lemma exponent_of_range (m : positive) (e j : Z) :
  (2 ^ 52 <= Zpos m < 2 ^ 53)%Z -> (-1074 <= e)%Z -> (0 <= j)%Z ->
  (2 ^ j <= Zpos m * 2 ^ (e + 1074) < 2 ^ (j + 1))%Z ->
  (e + 1074 + 52 = j)%Z.
Proof.
  intros Hm He Hj [Hlo Hhi].
  pose proof (pow2_pos (e + 1074) ltac:(lia)) as HP.
  assert (2 ^ (52 + (e + 1074)) <= Zpos m * 2 ^ (e + 1074))%Z as H1.
  { rewrite (Z.pow_add_r 2 52 (e + 1074)) by lia. apply Z.mul_le_mono_nonneg_r; lia. }
  assert (Zpos m * 2 ^ (e + 1074) < 2 ^ (53 + (e + 1074)))%Z as H2.
  { rewrite (Z.pow_add_r 2 53 (e + 1074)) by lia. apply Z.mul_lt_mono_pos_r; lia. }
  assert (52 + (e + 1074) < j + 1)%Z
    by (apply (Z.pow_lt_mono_r_iff 2); lia).
  assert (j < 53 + (e + 1074))%Z
    by (apply (Z.pow_lt_mono_r_iff 2); lia).
  lia.
Qed.

Local Open Scope Z_scope.

(** The integer heart of the identity: [Y] is the argument of the square
    root, [qw] the rounded root, [m3 * 2^k] its normalized mantissa, [r]
    the rounded square; all in units of [2^(2e')]. *)
Lemma square_of_root_close (Y qw m3 r n k : Z) :
  2 ^ 52 <= qw <= 2 ^ 53 ->
  Z.abs (qw * qw - Y) <= qw ->
  2 ^ 52 <= m3 < 2 ^ 53 -> 0 <= k -> qw = m3 * 2 ^ k ->
  (n = 52 \/ n = 53) ->
  2 ^ (n + 52) <= m3 * m3 < 2 ^ (n + 53) ->
  2 * (m3 * m3) - 2 ^ n <= 2 * (r * 2 ^ n) <= 2 * (m3 * m3) + 2 ^ n ->
  Z.abs (r * 2 ^ (n + 2 * k) - Y) <= 2 ^ 54
  /\ (forall b, Y = b * 2 ^ 53 -> Y <= 2 ^ 105 - 2 ^ 53 ->
      Z.abs (r * 2 ^ (n + 2 * k) - Y) <= 2 ^ 52).
Proof.
  intros Hqw Hsq Hm3 Hk Eqw Hn Hmm Hr.
  assert (k = 0 \/ k = 1) as Hk01.
  { destruct (Z.lt_ge_cases k 2) as [|Hge]; [lia|]. exfalso.
    assert (2 ^ 2 <= 2 ^ k) by (apply Z.pow_le_mono_r; lia).
    change (2 ^ 2) with 4 in *. nia. }
  destruct Hk01 as [-> | ->].
  - change (2 ^ 0) with 1 in Eqw. rewrite Z.mul_1_r in Eqw. subst m3.
    replace (n + 2 * 0) with n by lia.
    split.
    + destruct Hn as [-> | ->]; simpl Z.add in *; lia.
    + intros b EY HY.
      assert (qw * qw < 2 ^ 105) as Hlt by lia.
      assert (n = 52) as -> by (destruct Hn as [-> | ->]; [reflexivity | simpl Z.add in *; lia]).
      simpl Z.add in *.
      assert (qw < 3 * 2 ^ 51) as Hq15 by nia.
      subst Y.
      assert (-1 <= r - 2 * b <= 1) by lia.
      lia.
  - change (2 ^ 1) with 2 in Eqw.
    assert (m3 = 2 ^ 52) as -> by lia.
    assert (n = 52) as -> by (destruct Hn as [-> | ->]; [reflexivity | simpl Z.add in *; lia]).
    subst qw. simpl Z.add in *. simpl Z.mul in *.
    split; [lia|].
    intros b EY HY. exfalso. lia.
Qed.

Lemma Ffinite_of_finite (a : float) (s : bool) (m : positive) (e : Z) :
  Prim2SF a = S754_finite s m e -> Ffinite a = true.
Proof. unfold Ffinite. intros ->. reflexivity. Qed.

(** The representation of a number strictly between one half and one. *)
Lemma representation_half_one (T : float) :
  Ffinite T = true -> 2 ^ 1073 < F2Z T < 2 ^ 1074 ->
  exists mT, Prim2SF T = S754_finite false mT (-53)
             /\ 2 ^ 52 < Zpos mT < 2 ^ 53
             /\ F2Z T = Zpos mT * 2 ^ 1021.
Proof.
  intros FT HT.
  destruct (finite_positive T FT ltac:(lia)) as (mT & eT & ET & VT & HeT & HmT & HnT).
  assert (0 < 2 ^ 1021) as HU by reflexivity.
  assert (2 ^ 1074 = 2 ^ 53 * 2 ^ 1021) as E1074 by reflexivity.
  assert (2 ^ 1073 = 2 ^ 52 * 2 ^ 1021) as E1073 by reflexivity.
  assert (-1074 < eT) as HeT'.
  { destruct (Z.eq_dec eT (-1074)) as [->|]; [|lia]. simpl in VT. lia. }
  specialize (HnT HeT').
  pose proof (exponent_of_range mT eT 1073 ltac:(lia) ltac:(lia) ltac:(lia)
                ltac:(rewrite <- VT; simpl Z.add; lia)) as EeT.
  assert (eT = -53) as -> by lia.
  change (-53 + 1074) with 1021 in VT.
  exists mT. split; [assumption|]. split; [|assumption].
  rewrite VT, E1073 in HT. destruct HT as [HT _].
  apply Z.mul_lt_mono_pos_r in HT; [lia | exact HU].
Qed.

(** The representation of [b * 2^-53] for [0 < b < 2^52]. *)
Lemma representation_below_half (u : float) (b : Z) :
  Ffinite u = true -> 0 < b < 2 ^ 52 -> F2Z u = b * 2 ^ 1021 ->
  exists mu eu, Prim2SF u = S754_finite false mu eu
                /\ -105 <= eu <= -54
                /\ 2 ^ 52 <= Zpos mu < 2 ^ 53
                /\ Zpos mu * 2 ^ (eu + 105) = b * 2 ^ 52.
Proof.
  intros Fu Hb Eu.
  assert (0 < 2 ^ 1021) as HU by reflexivity.
  assert (0 < F2Z u) as Hpos by (rewrite Eu; apply Z.mul_pos_pos; lia).
  destruct (finite_positive u Fu Hpos) as (mu & eu & Eu' & Vu & Heu & Hmu & Hnu).
  rewrite Eu in Vu.
  pose proof (pow2_pos (eu + 1074) ltac:(lia)) as HP.
  assert (1 * 2 ^ 1021 <= Zpos mu * 2 ^ (eu + 1074)) as Hlo
    by (rewrite <- Vu; apply Z.mul_le_mono_nonneg_r; lia).
  assert (Zpos mu * 2 ^ (eu + 1074) < 2 ^ 52 * 2 ^ 1021) as Hhi
    by (rewrite <- Vu; apply Z.mul_lt_mono_pos_r; lia).
  change (2 ^ 52 * 2 ^ 1021) with (2 ^ 1073) in Hhi. rewrite Z.mul_1_l in Hlo.
  assert (-106 < eu) as He1.
  { assert (Zpos mu * 2 ^ (eu + 1074) < 2 ^ (53 + (eu + 1074))).
    { rewrite (Z.pow_add_r 2 53 (eu + 1074)) by lia.
      apply Z.mul_lt_mono_pos_r; lia. }
    assert (1021 < 53 + (eu + 1074)) by (apply (Z.pow_lt_mono_r_iff 2); lia).
    lia. }
  specialize (Hnu ltac:(lia)).
  assert (eu < -53) as He2.
  { assert (2 ^ (52 + (eu + 1074)) <= Zpos mu * 2 ^ (eu + 1074)).
    { rewrite (Z.pow_add_r 2 52 (eu + 1074)) by lia.
      apply Z.mul_le_mono_nonneg_r; lia. }
    assert (52 + (eu + 1074) < 1073) by (apply (Z.pow_lt_mono_r_iff 2); lia).
    lia. }
  exists mu, eu. split; [assumption|]. split; [lia|]. split; [lia|].
  clear Hlo Hhi.
  replace (eu + 1074) with (eu + 105 + 969) in Vu by lia.
  rewrite Z.pow_add_r in Vu by lia.
  change (2 ^ 1021) with (2 ^ 52 * 2 ^ 969) in Vu.
  rewrite !Z.mul_assoc in Vu.
  apply Z.mul_reg_r in Vu; [symmetry; exact Vu | discriminate].
Qed.

(** The difference between the rounded square of the rounded root and
    the argument, in units of [2^(2e')]. *)
Lemma square_of_root_delta (mu eu e' s : Z) (qw m3 r n k b : Z) :
  eu = s + 2 * e' -> (s = 52 \/ s = 53) ->
  -105 <= eu <= -54 ->
  mu * 2 ^ (eu + 105) = b * 2 ^ 52 -> 0 < b < 2 ^ 52 ->
  2 ^ 52 <= qw <= 2 ^ 53 ->
  Z.abs (qw * qw - mu * 2 ^ s) <= qw ->
  2 ^ 52 <= m3 < 2 ^ 53 -> 0 <= k -> qw = m3 * 2 ^ k ->
  (n = 52 \/ n = 53) ->
  2 ^ (n + 52) <= m3 * m3 < 2 ^ (n + 53) ->
  2 * (m3 * m3) - 2 ^ n <= 2 * (r * 2 ^ n) <= 2 * (m3 * m3) + 2 ^ n ->
  Z.abs (r * 2 ^ (n + 2 * k) - mu * 2 ^ s) * 2 ^ (2 * e' + 160) <= 2 ^ 106.
Proof.
  intros Eeu Hs Heu Emu Hb Hqw Hsq Hm3 Hk Eqw Hn Hmm Hr.
  destruct (square_of_root_close (mu * 2 ^ s) qw m3 r n k)
    as [Hclose Hclose']; try assumption.
  set (D := Z.abs (r * 2 ^ (n + 2 * k) - mu * 2 ^ s)) in *.
  destruct (Z.eq_dec eu (-54)) as [E54|N54].
  - assert (e' = -53) as Ee' by (clear - Eeu Hs E54; lia).
    assert (s = 52) as Es by (clear - Eeu Ee' E54; lia).
    rewrite Ee'. change (2 ^ (2 * -53 + 160)) with (2 ^ 54).
    change (2 ^ 106) with (2 ^ 52 * 2 ^ 54).
    apply Z.mul_le_mono_nonneg_r; [discriminate|].
    rewrite E54 in Emu. change (2 ^ (-54 + 105)) with (2 ^ 51) in Emu.
    apply (Hclose' b); rewrite Es; clear - Emu Hb; lia.
  - assert (2 ^ (2 * e' + 160) <= 2 ^ 52) as HQ
      by (apply Z.pow_le_mono_r; clear - Eeu Hs Heu N54; lia).
    assert (0 < 2 ^ (2 * e' + 160)) as HQ0
      by (apply pow2_pos; clear - Eeu Hs Heu; lia).
    change (2 ^ 106) with (2 ^ 54 * 2 ^ 52).
    apply Z.mul_le_mono_nonneg;
      [apply Z.abs_nonneg | exact Hclose | apply Z.lt_le_incl; exact HQ0 | exact HQ].
Qed.

Lemma pow2_split3 (a b c t : Z) :
  0 <= a -> 0 <= b -> 0 <= c -> t = a + b + c ->
  2 ^ t = 2 ^ a * 2 ^ b * 2 ^ c.
Proof. intros Ha Hb Hc ->. rewrite !Z.pow_add_r by lia. reflexivity. Qed.

Lemma near_one_bounds (X Y t u v : Z) :
  t + u = X -> Z.abs (v - u) <= Y ->
  X - Y <= t + v <= X + 2 * Y.
Proof. lia. Qed.

(** The rounded square of the rounded square root of [u = b * 2^-53] is
    within [2^-54] of [u]. *)
Lemma sqrt_then_square (u : float) (b : Z) :
  Ffinite u = true -> 0 < b < 2 ^ 52 -> F2Z u = b * 2 ^ 1021 ->
  (exists m3 e3, Prim2SF (sqrt u) = S754_finite false m3 e3)
  /\ (exists m4 e4, Prim2SF (sqrt u * sqrt u)%float = S754_finite false m4 e4)
  /\ Z.abs (F2Z (sqrt u * sqrt u)%float - F2Z u) <= 2 ^ 1020.
Proof.
  intros Fu Hb Eu.
  destruct (representation_below_half u b Fu Hb Eu)
    as (mu & eu & Eu' & Heur & Hmu & Emu).
  assert (F2Z u = Zpos mu * 2 ^ (eu + 1074)) as Vu
    by (unfold F2Z; rewrite Eu'; reflexivity).
  clear Eu Fu.
  destruct (SFsqrt_normal mu eu ltac:(lia) ltac:(lia))
    as (m3 & e3 & qw & Ew & He3 & Hqw & Hqwr & Hsq).
  pose proof (Z.div_mod eu 2 ltac:(lia)) as Hdm.
  pose proof (Z.mod_pos_bound eu 2 ltac:(lia)) as Hmb.
  set (e' := eu / 2 - 26) in *. set (s := eu - 2 * e') in *.
  assert (-79 <= e' <= -53) as He'r by (unfold e'; lia).
  assert (s = 52 \/ s = 53) as Hs by (unfold s, e'; lia).
  assert (eu = s + 2 * e') as Eeu by (unfold s; lia).
  clearbody s e'. clear Hdm Hmb.
  set (w := sqrt u).
  assert (Prim2SF w = S754_finite false m3 e3) as Ew'
    by (unfold w; rewrite sqrt_spec, Eu'; exact Ew).
  pose proof (Prim2SF_valid w) as Vw. rewrite Ew' in Vw.
  pose proof (valid_finite_bounds _ _ _ Vw) as (He3r & Hm3 & Hm3n).
  specialize (Hm3n ltac:(lia)).
  set (k := e3 - e') in *.
  assert (k = 0 \/ k = 1) as Hk.
  { assert (0 <= k) as Hk0 by (unfold k; lia).
    destruct (Z.lt_ge_cases k 2) as [|Hge]; [lia|]. exfalso.
    assert (2 ^ 2 <= 2 ^ k) by (apply Z.pow_le_mono_r; lia).
    change (2 ^ 2) with 4 in *.
    assert (Zpos m3 * 4 <= Zpos m3 * 2 ^ k) by (apply Z.mul_le_mono_nonneg_l; lia).
    lia. }
  assert (e3 = e' + k) as Ee3 by (unfold k; lia).
  clearbody k.
  destruct (SFmul_square_normal false m3 e3 ltac:(lia) ltac:(lia))
    as (m4 & e4 & n & r & Eww & Hn & Hmm & He4 & Hr & Hhu).
  assert (Prim2SF (w * w) = S754_finite false m4 e4) as Eww'
    by (rewrite mul_spec, Ew'; exact Eww).
  pose proof (Prim2SF_valid (w * w)%float) as Vww. rewrite Eww' in Vww.
  pose proof (valid_finite_bounds _ _ _ Vww) as (He4r & _).
  split; [eauto|]. split; [eauto|].
  assert (0 <= k) as Hk0 by (clear - Hk; lia).
  assert (2 ^ 52 <= Zpos m3 < 2 ^ 53) as Hm3r by (clear - Hm3 Hm3n; lia).
  pose proof (square_of_root_delta (Zpos mu) eu e' s qw (Zpos m3) r n k b
                Eeu Hs Heur Emu Hb Hqwr Hsq Hm3r Hk0 (eq_sym Hqw) Hn Hmm Hhu) as Hd.
  assert (F2Z (w * w)%float = Zpos m4 * 2 ^ (e4 + 1074)) as Vww'
    by (unfold F2Z; rewrite Eww'; reflexivity).
  rewrite Vww', Vu.
  rewrite (pow2_split3 s (2 * e' + 160) 914 (eu + 1074))
    by (clear - Hs He'r Eeu; lia).
  rewrite (pow2_split3 (e4 - (2 * e3 + n)) (n + 2 * k) (2 * e' + 160 + 914) (e4 + 1074))
    by (clear - He4 Hn Hk0 He'r Ee3; lia).
  rewrite (Z.pow_add_r 2 (2 * e' + 160) 914) by (clear - He'r; lia).
  rewrite !Z.mul_assoc, Hr, <- !Z.mul_sub_distr_r, !Z.abs_mul.
  change (Z.abs (2 ^ 914)) with (2 ^ 914).
  rewrite (Z.abs_eq (2 ^ (2 * e' + 160))) by (apply Z.pow_nonneg; lia).
  change (2 ^ 1020) with (2 ^ 106 * 2 ^ 914).
  apply Z.mul_le_mono_nonneg_r; [discriminate | exact Hd].
Qed.

Local Open Scope float_scope.

(** For [T] between one half and one, [T + sqrt(1 - T)^2] is one, in
    binary64 arithmetic with its three roundings. *)
Lemma sqrt_of_complement (T : float) :
  (0.5 <=? T) = true -> (T <=? 1) = true ->
  exists w : float,
    math_sqrt (1 - T) = Ret w
    /\ is_nan w = false
    /\ T + w * w = 1
    /\ w * w + T = 1.
Proof.
  intros Hlo Hhi.
  assert (Ffinite 0.5 = true) as Fh by reflexivity.
  assert (Ffinite 1 = true) as F1 by reflexivity.
  pose proof (Ffinite_between _ _ _ Fh F1 Hlo Hhi) as FT.
  rewrite (leb_F2Z _ _ Fh FT), F2Z_half in Hlo.
  rewrite (leb_F2Z _ _ FT F1), F2Z_one in Hhi.
  apply Z.leb_le in Hlo, Hhi.
  destruct (Z.eq_dec (F2Z T) (2 ^ 1074)) as [E1|N1].
  { assert (T = 1) as ->
        by (apply F2Z_inj; [assumption | assumption | rewrite F2Z_one; assumption
                           | rewrite E1; discriminate]).
    exists 0. repeat split; vm_compute; reflexivity. }
  destruct (Z.eq_dec (F2Z T) (2 ^ 1073)) as [Eh|Nh].
  { assert (T = 0.5) as ->
        by (apply F2Z_inj; [assumption | assumption | rewrite F2Z_half; assumption
                           | rewrite Eh; discriminate]).
    exists (sqrt (1 - 0.5)). repeat split; vm_compute; reflexivity. }
  assert (2 ^ 1073 < F2Z T < 2 ^ 1074)%Z as HT.
  { clear - Hlo Hhi N1 Nh. split.
    - apply Z.le_neq. split; [assumption | intro E; apply Nh; symmetry; exact E].
    - apply Z.le_neq. split; assumption. }
  clear Hlo Hhi N1 Nh.
  destruct (representation_half_one T FT HT) as (mT & ET & HmT & VT).
  assert (0 < 2 ^ 53 - Zpos mT < 2 ^ 52)%Z as Hb by (clear - HmT; lia).
  assert (F2Z 1 - F2Z T = (2 ^ 53 - Zpos mT) * 2 ^ 1021)%Z as Ediff.
  { rewrite F2Z_one, VT, Z.mul_sub_distr_r. reflexivity. }
  destruct (Fsub_exact 1 T (-1) F1 FT) as [Fu Eu].
  - rewrite F2Z_one. discriminate.
  - change (2 ^ (-1 + 1074))%Z with (2 ^ 1073)%Z. clear - HT. lia.
  - discriminate.
  - rewrite Ediff, Z.abs_eq by (apply Z.mul_nonneg_nonneg; [clear - Hb; lia | discriminate]).
    change (2 ^ (-1 + 1 + 1074))%Z with (2 ^ 53 * 2 ^ 1021)%Z.
    apply Z.mul_lt_mono_pos_r; [reflexivity | clear - Hb; lia].
  - rewrite Ediff in Eu.
    destruct (sqrt_then_square (1 - T) _ Fu Hb Eu)
      as ((m3 & e3 & Ew) & (m4 & e4 & Eww) & Hdelta).
    set (u := 1 - T) in *. set (w := sqrt u) in *.
    pose proof (Ffinite_of_finite _ _ _ _ Ew) as Fw.
    destruct (Ffinite_not_nan_inf w Fw) as [Hwn Hwi].
    exists w. split.
    { unfold math_sqrt, math_1. fold u w. cbv zeta. rewrite Hwn, Hwi. reflexivity. }
    split; [assumption|].
    assert (2 ^ 1074 - 2 ^ 1020 <= F2Z T + F2Z (w * w) <= 2 ^ 1074 + 2 ^ 1021)%Z
      as Hsum.
    { change (2 ^ 1021)%Z with (2 * 2 ^ 1020)%Z.
      apply (near_one_bounds _ _ _ (F2Z u)); [|exact Hdelta].
      rewrite Eu, VT, <- Z.mul_add_distr_r.
      replace (Zpos mT + (2 ^ 53 - Zpos mT))%Z with (2 ^ 53)%Z by (clear; lia).
      reflexivity. }
    clear Hdelta Eu Ediff VT HT.
    pose proof (Prim2SF_valid T) as VaT. rewrite ET in VaT.
    pose proof (Prim2SF_valid (w * w)) as Vaw. rewrite Eww in Vaw.
    assert (1 <> 0)%Z as Hnz by discriminate.
    split.
    + destruct (SFadd_rounds_to_one mT m4 (-53) e4 VaT Vaw) as [Ff Fv].
      * apply Z.le_min_l.
      * fold (SF2Z (Prim2SF T)). rewrite <- ET, <- Eww. exact Hsum.
      * apply F2Z_inj.
        -- unfold Ffinite. rewrite add_spec, ET, Eww. exact Ff.
        -- reflexivity.
        -- unfold F2Z at 1. rewrite add_spec, ET, Eww, Fv, F2Z_one. reflexivity.
        -- unfold F2Z. rewrite add_spec, ET, Eww, Fv. discriminate.
    + destruct (SFadd_rounds_to_one m4 mT e4 (-53) Vaw VaT) as [Ff Fv].
      * apply Z.le_min_r.
      * rewrite Z.add_comm. rewrite <- ET, <- Eww. exact Hsum.
      * apply F2Z_inj.
        -- unfold Ffinite. rewrite add_spec, ET, Eww. exact Ff.
        -- reflexivity.
        -- unfold F2Z at 1. rewrite add_spec, ET, Eww, Fv, F2Z_one. reflexivity.
        -- unfold F2Z. rewrite add_spec, ET, Eww, Fv. discriminate.
Qed.

Lemma Fmul_abs (w : float) : abs w * abs w = w * w.
Proof.
  apply Prim2SF_inj. rewrite !mul_spec, abs_spec. unfold SF64mul, SFmul.
  destruct (Prim2SF w) as [s|s| |s m e]; simpl; rewrite ?xorb_nilpotent; reflexivity.
Qed.

Lemma Fmul_opp_opp (a : float) : (- a) * (- a) = a * a.
Proof.
  apply Prim2SF_inj. rewrite !mul_spec, opp_spec. unfold SF64mul, SFmul.
  destruct (Prim2SF a) as [s|s| |s m e]; simpl; rewrite ?xorb_nilpotent; reflexivity.
Qed.

Lemma copysign_square (w b : float) : copysign w b * copysign w b = w * w.
Proof.
  unfold copysign. destruct (get_sign b); rewrite ?Fmul_opp_opp; apply Fmul_abs.
Qed.

Lemma F2Z_abs (t : float) : F2Z (abs t) = Z.abs (F2Z t).
Proof.
  unfold F2Z. rewrite abs_spec.
  destruct (Prim2SF t) as [s|s| |s m e]; try reflexivity.
  cbn [SFabs SF2Z cond_Zopp].
  destruct s; cbn [cond_Zopp]; lia.
Qed.

Lemma Ffinite_abs (t : float) : Ffinite (abs t) = Ffinite t.
Proof. unfold Ffinite. rewrite abs_spec. destruct (Prim2SF t); reflexivity. Qed.

Lemma Fabs_le_one_bounded (t : float) : (abs t <=? 1) = true -> Fbounded 0 t.
Proof.
  intros H.
  assert (Ffinite t = true) as Ft.
  { revert H. unfold Ffinite. rewrite FloatAxioms.leb_spec, abs_spec.
    replace (Prim2SF 1) with (S754_finite false 4503599627370496 (-52)) by reflexivity.
    destruct (Prim2SF t) as [s|s| |s m e]; try reflexivity; discriminate. }
  split; [assumption|].
  rewrite leb_F2Z in H by (rewrite ?Ffinite_abs; auto).
  apply Z.leb_le in H. rewrite F2Z_abs, F2Z_one in H. exact H.
Qed.

Lemma square_le_one (t : float) : (abs t <=? 1) = true -> (t * t <=? 1) = true.
Proof.
  intros H. pose proof (Fabs_le_one_bounded t H) as B.
  destruct (Fmul_bounded 0 0 t t ltac:(lia) B B) as [Ff Hb].
  rewrite leb_F2Z by (auto). apply Z.leb_le. rewrite F2Z_one.
  change (0 + 0 + 1074)%Z with 1074%Z in Hb. lia.
Qed.

Local Open Scope Z_scope.

(** ** Rounding is symmetric *)

Lemma binary_round_aux_opp (sx : bool) (mx ex : Z) (lx : location) :
  binary_round_aux prec emax (negb sx) mx ex lx
  = SFopp (binary_round_aux prec emax sx mx ex lx).
Proof.
  unfold binary_round_aux.
  destruct (shr_fexp prec emax mx ex lx) as [mrs' e'].
  destruct (shr_fexp prec emax _ e' loc_Exact) as [mrs'' e''].
  destruct (shr_m mrs''); try reflexivity.
  destruct (e'' <=? emax - prec); reflexivity.
Qed.

Lemma binary_normalize_opp (n e : Z) :
  binary_normalize prec emax (- n) e false
  = if n =? 0 then S754_zero false
    else SFopp (binary_normalize prec emax n e false).
Proof.
  destruct n as [|p|p]; try reflexivity; simpl; unfold binary_round;
    destruct (shl_align p e _) as [mz ez].
  - apply (binary_round_aux_opp false).
  - apply (binary_round_aux_opp true).
Qed.

Lemma mirrored_normalize (n m e : Z) :
  m = - n ->
  mirrored (binary_normalize prec emax m e false) (binary_normalize prec emax n e false).
Proof.
  intros ->. rewrite binary_normalize_opp.
  destruct (Z.eqb_spec n 0) as [->|Hn]; [right; split; reflexivity | left; reflexivity].
Qed.

Lemma cond_Zopp_negb (s : bool) (n : Z) : cond_Zopp (negb s) n = - cond_Zopp s n.
Proof. destruct s; simpl; lia. Qed.

Lemma SFsub_swap (a b : spec_float) :
  SFfinite a = true -> SFfinite b = true ->
  mirrored (SF64sub a b) (SF64sub b a).
Proof.
  destruct a as [sa|sa| |sa ma ea]; try discriminate;
    destruct b as [sb|sb| |sb mb eb]; try discriminate; intros _ _;
    unfold SF64sub, SFsub.
  - destruct sa, sb; [right | left | left | right]; try split; reflexivity.
  - left. reflexivity.
  - left. simpl. rewrite negb_involutive. reflexivity.
  - rewrite (Z.min_comm eb ea). apply mirrored_normalize. lia.
Qed.

Lemma SFsub_opp_add (a b : spec_float) :
  SFfinite a = true -> SFfinite b = true ->
  mirrored (SF64sub (SFopp a) b) (SF64add a b).
Proof.
  destruct a as [sa|sa| |sa ma ea]; try discriminate;
    destruct b as [sb|sb| |sb mb eb]; try discriminate; intros _ _;
    unfold SF64sub, SF64add, SFsub, SFadd, SFopp.
  - destruct sa, sb; [left | right | right | left]; try split; reflexivity.
  - left. reflexivity.
  - left. reflexivity.
  - apply mirrored_normalize. rewrite cond_Zopp_negb. lia.
Qed.

Lemma SFadd_opp_sub (a b : spec_float) :
  SFfinite a = true -> SFfinite b = true ->
  mirrored (SF64add (SFopp a) b) (SF64sub a b).
Proof.
  destruct a as [sa|sa| |sa ma ea]; try discriminate;
    destruct b as [sb|sb| |sb mb eb]; try discriminate; intros _ _;
    unfold SF64sub, SF64add, SFsub, SFadd, SFopp.
  - destruct sa, sb; [right | left | left | right]; try split; reflexivity.
  - left. simpl. rewrite negb_involutive. reflexivity.
  - left. reflexivity.
  - apply mirrored_normalize. rewrite cond_Zopp_negb. lia.
Qed.

Lemma SFmul_opp_l (a b : spec_float) :
  SF64mul (SFopp a) b = SFopp (SF64mul a b).
Proof.
  destruct a as [sa|sa| |sa ma ea], b as [sb|sb| |sb mb eb];
    unfold SF64mul, SFmul; cbn [SFopp]; try reflexivity;
    try (destruct sa, sb; reflexivity).
  rewrite <- binary_round_aux_opp. rewrite negb_xorb_l. reflexivity.
Qed.

Local Open Scope float_scope.

Lemma Fmirrored_spec (x y : float) :
  mirrored (Prim2SF x) (Prim2SF y) -> Fmirrored x y.
Proof.
  intros [H | [Hx Hy]]; [left | right].
  - apply Prim2SF_inj. rewrite opp_spec. exact H.
  - split; apply Prim2SF_inj; assumption.
Qed.

Lemma Fsub_swap (a b : float) :
  Ffinite a = true -> Ffinite b = true -> Fmirrored (a - b) (b - a).
Proof.
  intros Fa Fb. apply Fmirrored_spec. rewrite !sub_spec.
  apply SFsub_swap; assumption.
Qed.

Lemma Fsub_opp_add (a b : float) :
  Ffinite a = true -> Ffinite b = true -> Fmirrored (- a - b) (a + b).
Proof.
  intros Fa Fb. apply Fmirrored_spec. rewrite sub_spec, add_spec, opp_spec.
  apply SFsub_opp_add; assumption.
Qed.

Lemma Fadd_opp_sub (a b : float) :
  Ffinite a = true -> Ffinite b = true -> Fmirrored (- a + b) (a - b).
Proof.
  intros Fa Fb. apply Fmirrored_spec. rewrite sub_spec, add_spec, opp_spec.
  apply SFadd_opp_sub; assumption.
Qed.

Lemma Fmul_opp_l (a b : float) : - a * b = - (a * b).
Proof.
  apply Prim2SF_inj. rewrite opp_spec, !mul_spec, opp_spec. apply SFmul_opp_l.
Qed.

Lemma Fmirrored_eqb (x y : float) :
  is_nan y = false -> Fmirrored x y -> (x =? - y) = true.
Proof.
  intros Hn [-> | [-> ->]]; [|reflexivity].
  apply float_eqb_refl. rewrite is_nan_opp. exact Hn.
Qed.

Lemma Fmirrored_degrees (x y : float) :
  Fmirrored x y -> Fmirrored (degrees x) (degrees y).
Proof.
  unfold degrees. intros [-> | [-> ->]]; [left | right].
  - apply Fmul_opp_l.
  - split; reflexivity.
Qed.

Lemma F2Z_opp (a : float) : F2Z (- a) = (- F2Z a)%Z.
Proof.
  unfold F2Z. rewrite opp_spec.
  destruct (Prim2SF a) as [s|s| |s m e]; try reflexivity.
  cbn [SFopp SF2Z]. apply cond_Zopp_negb.
Qed.

(** The normalization of [angle] commutes with negation, except at the
    half turn, which both [180] and [-180] are normalized to. *)
Lemma normalize_mirrored (rv : float) :
  Fbounded 9 rv ->
  let norm := fun v : float =>
                if v <=? -180 then v + 360 else if 180 <? v then v - 360 else v in
  (norm rv = 180 /\ norm (- rv) = 180) \/ Fmirrored (norm (- rv)) (norm rv).
Proof.
  intros [Fr _] norm. unfold norm.
  assert (Ffinite (- rv) = true) as Fo by (rewrite Ffinite_opp; exact Fr).
  assert (Ffinite 360 = true) as F360 by reflexivity.
  rewrite !leb_F2Z, !ltb_F2Z by (assumption || reflexivity).
  rewrite F2Z_opp, F2Z_180, F2Z_m180.
  destruct (Z.eq_dec (F2Z rv) (-180 * 2 ^ 1074)%Z) as [E|N1].
  { left. assert (rv = -180) as ->; [|split; reflexivity].
    apply F2Z_inj; [assumption | reflexivity | rewrite F2Z_m180; exact E |].
    rewrite E. discriminate. }
  destruct (Z.eq_dec (F2Z rv) (180 * 2 ^ 1074)%Z) as [E|N2].
  { left. assert (rv = 180) as ->; [|split; reflexivity].
    apply F2Z_inj; [assumption | reflexivity | rewrite F2Z_180; exact E |].
    rewrite E. discriminate. }
  right.
  assert (0 < 2 ^ 1074)%Z as HU by reflexivity.
  set (U := (2 ^ 1074)%Z) in *. set (z := F2Z rv) in *. clearbody U z.
  destruct (Z.leb_spec z (-180 * U)%Z) as [H1|H1].
  - rewrite (proj2 (Z.leb_gt (- z)%Z (-180 * U)%Z)) by lia.
    rewrite (proj2 (Z.ltb_lt (180 * U)%Z (- z)%Z)) by lia.
    apply Fsub_opp_add; assumption.
  - destruct (Z.ltb_spec (180 * U)%Z z) as [H2|H2].
    + rewrite (proj2 (Z.leb_le (- z)%Z (-180 * U)%Z)) by lia.
      apply Fadd_opp_sub; assumption.
    + rewrite (proj2 (Z.leb_gt (- z)%Z (-180 * U)%Z)) by lia.
      rewrite (proj2 (Z.ltb_ge (180 * U)%Z (- z)%Z)) by lia.
      left. reflexivity.
Qed.

(** * Further properties *)

(** ** Coercion, construction and subscripts *)

Local Open Scope Z_scope.

Lemma coordinate_not_ValueError (v : value) : Vector2.coordinate v <> Raise ValueError.
Proof.
  unfold Vector2.coordinate. destruct (py_float v) as [f|[]]; discriminate.
Qed.

Lemma set_coordinates_cases (cls : pyclass) (a b : value) (s : N) :
  Vector2.set_coordinates cls a b s =
    match Vector2.coordinate a, Vector2.coordinate b with
    | Ret fx, Ret fy => (Ret (Vec s cls fx fy), N.succ s)
    | Ret _, Raise e => (Raise e, s)
    | Raise e, _ => (Raise e, s)
    end.
Proof.
  unfold Vector2.set_coordinates, Vector2.new_object. unfold_monad.
  destruct (Vector2.coordinate a), (Vector2.coordinate b); reflexivity.
Qed.

Lemma set_coordinates_not_ValueError (cls : pyclass) (a b : value) (s s' : N) :
  Vector2.set_coordinates cls a b s <> (Raise ValueError, s').
Proof.
  rewrite set_coordinates_cases.
  pose proof (coordinate_not_ValueError a). pose proof (coordinate_not_ValueError b).
  destruct (Vector2.coordinate a), (Vector2.coordinate b); congruence.
Qed.

(** The test of [convert] on a mapping holds exactly of the mappings
    whose keys are [x] and [y]. *)
Lemma mapping_test (d : gmap string value) :
  bool_decide (is_Some (d !! "x")) && bool_decide (is_Some (d !! "y"))
    && bool_decide (size d = 2%nat)
  = bool_decide (dom d = ({["x"; "y"]} : gset string)).
Proof.
  apply eq_true_iff_eq. rewrite !andb_true_iff, !bool_decide_eq_true.
  split.
  - intros [[Hx Hy] Hs].
    apply elem_of_dom in Hx, Hy.
    assert (({["x"; "y"]} : gset string) ⊆ dom d) as Hsub.
    { intros z [->%elem_of_singleton | ->%elem_of_singleton]%elem_of_union; assumption. }
    symmetry. apply set_subseteq_size_eq; [assumption|].
    rewrite size_dom, Hs.
    rewrite size_union
      by (apply disjoint_singleton_l, not_elem_of_singleton; discriminate).
    rewrite !size_singleton. lia.
  - intros Hd. repeat split.
    + apply elem_of_dom. rewrite Hd. set_solver.
    + apply elem_of_dom. rewrite Hd. set_solver.
    + rewrite <- size_dom, Hd.
      rewrite size_union
        by (apply disjoint_singleton_l, not_elem_of_singleton; discriminate).
      rewrite !size_singleton. reflexivity.
Qed.

Lemma convert_mapping (cls : pyclass) (d : gmap string value) (s : N) :
  Vector2.convert cls (VDict d) s =
    match d !! "x", d !! "y" with
    | Some a, Some b =>
        if bool_decide (dom d = ({["x"; "y"]} : gset string))
        then Vector2.set_coordinates cls a b s
        else (Raise ValueError, s)
    | _, _ => (Raise ValueError, s)
    end.
Proof.
  unfold Vector2.convert. rewrite mapping_test.
  case_bool_decide as Hd.
  - assert (is_Some (d !! "x")) as [a Ha] by (apply elem_of_dom; rewrite Hd; set_solver).
    assert (is_Some (d !! "y")) as [b Hb] by (apply elem_of_dom; rewrite Hd; set_solver).
    rewrite Ha, Hb. unfold Vector2.dict_getitem. unfold_monad. rewrite Ha, Hb.
    reflexivity.
  - destruct (d !! "x"), (d !! "y"); reflexivity.
Qed.

Lemma convert_not_vector_like (cls : pyclass) (v : value) (s : N) :
  vector_like v = false -> Vector2.convert cls v s = (Raise ValueError, s).
Proof.
  destruct v as [f|n|b|items|r cs|r bs|d|w|c o|]; try reflexivity; try discriminate.
  - destruct items as [|a [|b [|c l]]]; try reflexivity. discriminate.
  - destruct cs as [|a [|b [|c l]]]; try reflexivity. discriminate.
  - destruct bs as [|a [|b [|c l]]]; try reflexivity. discriminate.
  - unfold vector_like. intros Hd%bool_decide_eq_false.
    rewrite convert_mapping.
    destruct (d !! "x"), (d !! "y"); try reflexivity.
    rewrite bool_decide_eq_false_2 by assumption. reflexivity.
Qed.

Lemma convert_vector_like (cls : pyclass) (v : value) (s s' : N) :
  vector_like v = true -> Vector2.convert cls v s <> (Raise ValueError, s').
Proof.
  destruct v as [f|n|b|items|r cs|r bs|d|w|c o|]; try discriminate.
  - destruct items as [|a [|b [|c l]]]; try discriminate.
    intros _. apply set_coordinates_not_ValueError.
  - destruct cs as [|a [|b [|c l]]]; try discriminate.
    intros _. apply set_coordinates_not_ValueError.
  - destruct bs as [|a [|b [|c l]]]; try discriminate.
    intros _. apply set_coordinates_not_ValueError.
  - unfold vector_like. intros Hd%bool_decide_eq_true. rewrite convert_mapping.
    assert (is_Some (d !! "x")) as [a ->] by (apply elem_of_dom; rewrite Hd; set_solver).
    assert (is_Some (d !! "y")) as [b ->] by (apply elem_of_dom; rewrite Hd; set_solver).
    rewrite bool_decide_eq_true_2 by assumption.
    apply set_coordinates_not_ValueError.
  - intros _. rewrite convert_vec. destruct (isinstance (VVec w) cls); discriminate.
Qed.

(** Strings and [bytes] are sequences: of length two, they are
    converted item by item (['ab'], ['12'], [b'12']); of another length
    they are refused. *)
Example convert_text :
  Vector2.convert Vector2_cls
    (VStr (Raise ValueError) [Raise ValueError; Raise ValueError]) 0%N
  = (Raise TypeError, 0%N)
  /\ Vector2.convert Vector2_cls (VStr (Ret 12%float) [Ret 1%float; Ret 2%float]) 0%N
     = (Ret (Vec 0 Vector2_cls 1%float 2%float), 1%N)
  /\ Vector2.convert Vector2_cls (VBytes (Ret 12%float) [49; 50]%Z) 0%N
     = (Ret (Vec 0 Vector2_cls 49%float 50%float), 1%N)
  /\ Vector2.convert Vector2_cls gibberish 0%N = (Raise ValueError, 0%N).
Proof. repeat split; reflexivity. Qed.

(** X1: [convert] raises [ValueError] exactly on the values that are not
    vector-like, that is neither a vector, nor a sequence of two items
    (a string of two characters is one), nor a mapping whose keys are
    exactly [x] and [y]; it does so before anything is built.  On a
    vector-like value it never raises [ValueError], whatever the items
    are. *)
Theorem convert_ValueError_iff_not_vector_like (cls : pyclass) (v : value) (s : N) :
  if vector_like v
  then forall s', Vector2.convert cls v s <> (Raise ValueError, s')
  else Vector2.convert cls v s = (Raise ValueError, s).
Proof.
  destruct (vector_like v) eqn:E.
  - intros s'. apply convert_vector_like. exact E.
  - apply convert_not_vector_like. exact E.
Qed.

(** *** Construction *)

Lemma xy_dict_facts (a b : value) :
  xy_dict a b ≠ ∅
  /\ dom (xy_dict a b) = ({["x"; "y"]} : gset string)
  /\ xy_dict a b !! "x" = Some a /\ xy_dict a b !! "y" = Some b.
Proof.
  unfold xy_dict. split; [apply insert_non_empty|]. split; [|split].
  - rewrite !dom_insert_L, dom_empty_L, union_empty_r_L. reflexivity.
  - apply lookup_insert_eq.
  - rewrite lookup_insert_ne by discriminate. apply lookup_insert_eq.
Qed.

Lemma init_keywords (cls : pyclass) (kwargs : gmap string value) (a b : value) (s : N) :
  dom kwargs = ({["x"; "y"]} : gset string) ->
  kwargs !! "x" = Some a -> kwargs !! "y" = Some b ->
  Vector2.__init__ cls [] kwargs s = Vector2.set_coordinates cls a b s.
Proof.
  intros Hd Ha Hb. unfold Vector2.__init__.
  assert (kwargs ≠ ∅) as Hne by (intros ->; rewrite lookup_empty in Ha; discriminate).
  rewrite (bool_decide_eq_false_2 ([] ≠ [])) by (intros H; apply H; reflexivity).
  rewrite (bool_decide_eq_true_2 (kwargs ≠ ∅)) by assumption.
  rewrite (bool_decide_eq_false_2 (kwargs = ∅)) by assumption.
  rewrite (bool_decide_eq_false_2 (dom kwargs ≠ _)) by (intros H; apply H; assumption).
  rewrite andb_false_r.
  rewrite (bool_decide_eq_false_2 (2 < length [])%nat) by (simpl; lia).
  cbn [andb orb].
  unfold Vector2.dict_getitem. unfold_monad. rewrite Ha, Hb. reflexivity.
Qed.

Lemma init_one (cls : pyclass) (v : value) (s : N) :
  Vector2.__init__ cls [v] ∅ s =
    match Vector2.convert Vector2_cls v s with
    | (Ret o, s1) => (Ret (Vec s1 cls (x o) (y o)), N.succ s1)
    | (Raise e, s1) => (Raise e, s1)
    end.
Proof.
  unfold Vector2.__init__.
  rewrite (bool_decide_eq_false_2 (∅ ≠ ∅)) by (intros H; apply H; reflexivity).
  rewrite (bool_decide_eq_false_2 ([v] = [])) by discriminate.
  rewrite (bool_decide_eq_false_2 (2 < length [v])%nat) by (simpl; lia).
  rewrite andb_false_r. cbn [andb orb].
  unfold_monad.
  destruct (Vector2.convert Vector2_cls v s) as [[o|e] s1]; reflexivity.
Qed.

Lemma same_but_identity_copy (cls : pyclass) (a b : value) (s : N) :
  same_but_identity
    (match Vector2.set_coordinates Vector2_cls a b s with
     | (Ret o, s1) => (Ret (Vec s1 cls (x o) (y o)), N.succ s1)
     | (Raise e, s1) => (Raise e, s1)
     end)
    (Vector2.set_coordinates cls a b s).
Proof.
  rewrite !set_coordinates_cases. unfold same_but_identity.
  destruct (Vector2.coordinate a), (Vector2.coordinate b); simpl; auto.
Qed.

(** X2: The four ways of giving two coordinates to the constructor
    agree: [cls(x=a, y=b)] is [cls(a, b)], and [cls((a, b))] and
    [cls({'x': a, 'y': b})] build an instance of the same class with the
    same coordinates, or fail with the same exception; only the
    identity differs, as the last two build an intermediate [Vector2]. *)
Theorem construction_forms_agree (cls : pyclass) (a b : value) (s : N) :
  let direct := Vector2.__init__ cls [a; b] ∅ s in
  Vector2.__init__ cls [] (xy_dict a b) s = direct
  /\ same_but_identity (Vector2.__init__ cls [VTuple [a; b]] ∅ s) direct
  /\ same_but_identity (Vector2.__init__ cls [VDict (xy_dict a b)] ∅ s) direct.
Proof.
  intros direct. subst direct. rewrite init_two_positional.
  destruct (xy_dict_facts a b) as (Hne & Hd & Ha & Hb).
  split; [exact (init_keywords cls _ a b s Hd Ha Hb)|].
  split.
  - rewrite init_one.
    change (Vector2.convert Vector2_cls (VTuple [a; b]) s)
      with (Vector2.set_coordinates Vector2_cls a b s).
    apply same_but_identity_copy.
  - rewrite init_one, convert_mapping, Ha, Hb.
    rewrite bool_decide_eq_true_2 by assumption.
    apply same_but_identity_copy.
Qed.

(** X3: The constructor applied to one vector copies it: [cls(v)] is a
    new object, not [v], of class [cls], with the coordinates of [v],
    even where [cls.convert(v)] would hand back [v] itself. *)
Theorem init_of_vector_copies (cls : pyclass) (v : vector) (s : N) :
  (vid v < s)%N ->
  exists r s',
    Vector2.__init__ cls [VVec v] ∅ s = (Ret r, s')
    /\ vid r <> vid v /\ (s <= vid r < s')%N
    /\ vtype r = cls /\ x r = x v /\ y r = y v.
Proof.
  intros Hv. rewrite init_one, convert_vec.
  destruct (isinstance (VVec v) Vector2_cls).
  - eexists _, _. split; [reflexivity|]. simpl. repeat split; lia.
  - eexists _, _. split; [reflexivity|]. simpl. repeat split; lia.
Qed.

Lemma init_of_vector_copies_witness :
  exists r s',
    Vector2.__init__ Vector2_cls [VVec (Vec 0 Vector2_cls 1 2)] ∅ 1%N = (Ret r, s')
    /\ vid r <> 0%N /\ (1 <= vid r < s')%N
    /\ vtype r = Vector2_cls /\ x r = 1%float /\ y r = 2%float.
Proof.
  apply (init_of_vector_copies Vector2_cls (Vec 0 Vector2_cls 1 2) 1%N). simpl. lia.
Defined.

(** X4: With two positional arguments the constructor builds the
    instance from [float(a)] and [float(b)]; when it fails nothing is
    built and the exception is never [ValueError]: the [ValueError] of
    [float] on a string that spells no number comes out as
    [TypeError]. *)
Theorem init_two_never_ValueError (cls : pyclass) (a b : value) (s : N) :
  match Vector2.__init__ cls [a; b] ∅ s with
  | (Raise e, s') =>
      e <> ValueError /\ s' = s
      /\ (py_float a = Raise ValueError -> e = TypeError)
      /\ (forall fa, py_float a = Ret fa -> py_float b = Raise ValueError -> e = TypeError)
  | (Ret r, s') =>
      py_float a = Ret (x r) /\ py_float b = Ret (y r) /\ vtype r = cls /\ vid r = s
  end.
Proof.
  rewrite init_two_positional, set_coordinates_cases. unfold Vector2.coordinate.
  destruct (py_float a) as [fa|[]]; destruct (py_float b) as [fb|[]]; simpl;
    repeat split; try discriminate; try congruence; intros; congruence.
Qed.

(** *** Update *)

(** X5: [update] ([dataclasses.replace]) with changes that name only
    fields builds a new instance of the same class whose coordinates
    are the changed ones, converted by [float], and the receiver's for
    the fields left out; with any other keyword it raises
    [AttributeError], from the message of the constructor. *)
Theorem update_fields (self : vector) (changes : gmap string value) (s : N) :
  Vector2.update self changes s =
    if bool_decide (dom changes ⊆ ({["x"; "y"]} : gset string)) then
      Vector2.set_coordinates (vtype self)
        (default (VFloat (x self)) (changes !! "x"))
        (default (VFloat (y self)) (changes !! "y")) s
    else (Raise AttributeError, s).
Proof.
  unfold Vector2.update.
  set (c1 := if bool_decide (is_Some (changes !! "x")) then changes
             else <["x" := VFloat (x self)]> changes).
  assert (c1 !! "x" = Some (default (VFloat (x self)) (changes !! "x"))
          /\ c1 !! "y" = changes !! "y"
          /\ dom c1 = dom changes ∪ {["x"]}) as (H1x & H1y & H1d).
  { unfold c1. destruct (changes !! "x") as [a|] eqn:Ha.
    - rewrite bool_decide_eq_true_2 by eauto. simpl.
      split; [assumption|]. split; [reflexivity|].
      apply (elem_of_dom_2 changes) in Ha.
      apply leibniz_equiv. set_solver.
    - rewrite bool_decide_eq_false_2 by (intros [? ?]; discriminate).
      rewrite lookup_insert_eq, lookup_insert_ne by discriminate.
      rewrite dom_insert_L.
      split; [reflexivity|]. split; [reflexivity|].
      apply leibniz_equiv. set_solver. }
  clearbody c1.
  set (c2 := if bool_decide (is_Some (c1 !! "y")) then c1
             else <["y" := VFloat (y self)]> c1).
  assert (c2 !! "x" = Some (default (VFloat (x self)) (changes !! "x"))
          /\ c2 !! "y" = Some (default (VFloat (y self)) (changes !! "y"))
          /\ dom c2 = dom changes ∪ {["x"; "y"]}) as (H2x & H2y & H2d).
  { unfold c2. rewrite H1y. destruct (changes !! "y") as [b|] eqn:Hb.
    - rewrite bool_decide_eq_true_2 by eauto. simpl.
      split; [assumption|]. split; [rewrite H1y; reflexivity|]. rewrite H1d.
      apply (elem_of_dom_2 changes) in Hb.
      apply leibniz_equiv. set_solver.
    - rewrite bool_decide_eq_false_2 by (intros [? ?]; discriminate).
      rewrite lookup_insert_eq, lookup_insert_ne by discriminate.
      rewrite dom_insert_L, H1d.
      split; [assumption|]. split; [reflexivity|].
      apply leibniz_equiv. set_solver. }
  clearbody c2. clear c1 H1x H1y H1d.
  case_bool_decide as Hsub.
  - apply init_keywords; [|assumption|assumption].
    rewrite H2d. apply leibniz_equiv. set_solver.
  - apply init_wrong_keywords.
    + intros ->. rewrite lookup_empty in H2x. discriminate.
    + rewrite H2d. intros E. apply Hsub. rewrite <- E. set_solver.
Qed.

(** *** Subscripts *)

(** X6: Subscripting by an integer agrees with iteration and [len]:
    [v[i]] is the [i]-th value that [iter(v)] yields for [0 <= i <
    len(v)], and [IndexError] for every other integer, the negative
    ones included; an object with [__index__] counts as the integer it
    gives, so [v[False]] is [v.x] and [v[True]] is [v.y]; what is
    neither a string nor an index is a [TypeError]. *)
Theorem getitem_index (self : vector) (i : Z) :
  Vector2.__getitem__ self (SInt i) =
    (if (0 <=? i) && (i <? Vector2.__len__ self)
     then match nth_error (Vector2.__iter__ self) (Z.to_nat i) with
          | Some f => Ret f
          | None => Raise IndexError
          end
     else Raise IndexError)
  /\ Vector2.__getitem__ self (SIndex i) = Vector2.__getitem__ self (SInt i)
  /\ Vector2.__getitem__ self (SBool false) = Ret (x self)
  /\ Vector2.__getitem__ self (SBool true) = Ret (y self)
  /\ Vector2.__getitem__ self SOther = Raise TypeError.
Proof.
  split; [|repeat split].
  unfold Vector2.__getitem__, Vector2.__len__, Vector2.__iter__.
  destruct (Z.eqb_spec i 0) as [->|H0]; [reflexivity|].
  destruct (Z.eqb_spec i 1) as [->|H1]; [reflexivity|].
  destruct (Z.leb_spec 0 i); [|reflexivity].
  destruct (Z.ltb_spec i 2); [lia | reflexivity].
Qed.

(** X7: Subscripting by a string agrees with [asdict]: [v[k]] is
    [v.asdict()[k]] for the keys of [asdict] and [KeyError] for every
    other string. *)
Theorem getitem_key (self : vector) (k : string) :
  exists d, Vector2.asdict self = VDict d
    /\ Vector2.__getitem__ self (SStr k) =
         match d !! k with
         | Some (VFloat f) => Ret f
         | _ => Raise KeyError
         end.
Proof.
  eexists. split; [reflexivity|].
  unfold Vector2.__getitem__.
  destruct (String.eqb_spec k "x") as [->|Hx].
  - rewrite lookup_insert_eq. reflexivity.
  - rewrite lookup_insert_ne by congruence.
    destruct (String.eqb_spec k "y") as [->|Hy].
    + rewrite lookup_insert_eq. reflexivity.
    + rewrite lookup_insert_ne by congruence. rewrite lookup_empty. reflexivity.
Qed.

(** *** Comparison with anything *)

Lemma eq_cases (self : vector) (other : value) (s : N) :
  Vector2.__eq__ self other s =
    match Vector2.convert Vector2_cls other s with
    | (Ret o, s1) => (Ret (VBool ((x self =? x o)%float && (y self =? y o)%float)), s1)
    | (Raise e, s1) =>
        if bool_decide (e = TypeError) || bool_decide (e = ValueError)
        then (Ret VNotImplemented, s1) else (Raise e, s1)
    end.
Proof.
  unfold Vector2.__eq__, Vector2.convert_or_NotImplemented. unfold_monad.
  destruct (Vector2.convert Vector2_cls other s) as [[o|e] s1]; [reflexivity|].
  destruct (bool_decide (e = TypeError) || bool_decide (e = ValueError)); reflexivity.
Qed.

(** ** Operators and scaling *)

Local Open Scope float_scope.

Lemma mul_cases (self : vector) (other : value) (s : N) :
  (isinstance other float_cls || isinstance other int_cls) = false ->
  Vector2.__mul__ self other s =
    match Vector2.convert Vector2_cls other s with
    | (Ret o, s1) => (Ret (VFloat (x self * x o + y self * y o)), s1)
    | (Raise e, s1) =>
        if bool_decide (e = TypeError) || bool_decide (e = ValueError)
        then (Ret VNotImplemented, s1) else (Raise e, s1)
    end.
Proof.
  intros Hn. unfold Vector2.__mul__, Vector2.dot. rewrite Hn. unfold_monad.
  destruct (Vector2.convert Vector2_cls other s) as [[o|e] s1]; [reflexivity|].
  destruct (bool_decide (e = TypeError) || bool_decide (e = ValueError)); reflexivity.
Qed.

Lemma soft_cases {A} (c : outcome vector * N) (f : vector -> A) (ni : A) :
  soft (match c with
        | (Ret o, s1) => (Ret (f o), s1)
        | (Raise e, s1) =>
            if bool_decide (e = TypeError) || bool_decide (e = ValueError)
            then (Ret ni, s1) else (Raise e, s1)
        end).
Proof.
  unfold soft. destruct c as [[o|e] s1]; [exact I|].
  destruct e; simpl; try exact I; split; discriminate.
Qed.

(** X8: [==] and [*] with an operand that is not a number never raise
    [TypeError] or [ValueError].  Both coerce the operand with
    [convert]: when that succeeds, [==] compares the coordinates and
    [*] is the dot product (a string of two digits is such an
    operand); when it fails with one of these two exceptions, both
    answer [NotImplemented]; any other exception of the coercion (the
    [OverflowError] of [float] on an [int] out of range, say) comes out
    of both unchanged.  With an operand that is not vector-like both
    answer [NotImplemented] and build nothing. *)
Theorem eq_mul_soft_failure (self : vector) (other : value) (s : N) :
  (isinstance other float_cls || isinstance other int_cls) = false ->
  soft (Vector2.__eq__ self other s)
  /\ soft (Vector2.__mul__ self other s)
  /\ (forall (o : vector) (s1 : N),
      Vector2.convert Vector2_cls other s = (Ret o, s1) ->
      Vector2.__eq__ self other s
      = (Ret (VBool ((x self =? x o) && (y self =? y o))), s1)
      /\ Vector2.__mul__ self other s
         = (Ret (VFloat (x self * x o + y self * y o)), s1))
  /\ (forall (e : exn) (s1 : N),
      Vector2.convert Vector2_cls other s = (Raise e, s1) ->
      let answer : outcome value * N :=
        if bool_decide (e = TypeError) || bool_decide (e = ValueError)
        then (Ret VNotImplemented, s1) else (Raise e, s1) in
      Vector2.__eq__ self other s = answer
      /\ Vector2.__mul__ self other s = answer)
  /\ (vector_like other = false ->
      Vector2.__eq__ self other s = (Ret VNotImplemented, s)
      /\ Vector2.__mul__ self other s = (Ret VNotImplemented, s)).
Proof.
  intros Hn. rewrite eq_cases, (mul_cases self other s Hn).
  split; [apply soft_cases|]. split; [apply soft_cases|]. split; [|split].
  - intros o s1 ->. split; reflexivity.
  - intros e s1 ->. split; reflexivity.
  - intros Hv. rewrite (convert_not_vector_like _ _ _ Hv). split; reflexivity.
Qed.

Lemma eq_mul_soft_failure_witness :
  Vector2.__eq__ (Vec 0 Vector2_cls 1 2) (VTuple [VNone; VNone]) 1%N
  = (Ret VNotImplemented, 1%N)
  /\ Vector2.__mul__ (Vec 0 Vector2_cls 1 2)
       (VStr (Raise ValueError) [Raise ValueError; Raise ValueError]) 1%N
     = (Ret VNotImplemented, 1%N)
  /\ Vector2.__eq__ (Vec 0 Vector2_cls 1 2) (VStr (Ret 12) [Ret 1; Ret 2]) 1%N
     = (Ret (VBool true), 2%N)
  /\ Vector2.__mul__ (Vec 0 Vector2_cls 1 2) (VStr (Ret 12) [Ret 1; Ret 2]) 1%N
     = (Ret (VFloat 5), 2%N)
  /\ Vector2.__eq__ (Vec 0 Vector2_cls 1 2) (VTuple [VInt (10 ^ 400); VInt 0]) 1%N
     = (Raise OverflowError, 1%N)
  /\ Vector2.__mul__ (Vec 0 Vector2_cls 1 2) VNone 1%N = (Ret VNotImplemented, 1%N).
Proof.
  split; [|split; [|split; [|split; [|split]]]].
  - destruct (eq_mul_soft_failure (Vec 0 Vector2_cls 1 2) (VTuple [VNone; VNone]) 1%N
                eq_refl) as (_ & _ & _ & H & _).
    exact (proj1 (H TypeError 1%N eq_refl)).
  - destruct (eq_mul_soft_failure (Vec 0 Vector2_cls 1 2)
                (VStr (Raise ValueError) [Raise ValueError; Raise ValueError]) 1%N
                eq_refl) as (_ & _ & _ & H & _).
    exact (proj2 (H TypeError 1%N eq_refl)).
  - destruct (eq_mul_soft_failure (Vec 0 Vector2_cls 1 2)
                (VStr (Ret 12) [Ret 1; Ret 2]) 1%N eq_refl) as (_ & _ & H & _).
    exact (proj1 (H (Vec 1 Vector2_cls 1 2) 2%N eq_refl)).
  - destruct (eq_mul_soft_failure (Vec 0 Vector2_cls 1 2)
                (VStr (Ret 12) [Ret 1; Ret 2]) 1%N eq_refl) as (_ & _ & H & _).
    exact (proj2 (H (Vec 1 Vector2_cls 1 2) 2%N eq_refl)).
  - destruct (eq_mul_soft_failure (Vec 0 Vector2_cls 1 2)
                (VTuple [VInt (10 ^ 400); VInt 0]) 1%N eq_refl) as (_ & _ & _ & H & _).
    exact (proj1 (H OverflowError 1%N ltac:(vm_compute; reflexivity))).
  - destruct (eq_mul_soft_failure (Vec 0 Vector2_cls 1 2) VNone 1%N eq_refl)
      as (_ & _ & _ & _ & H).
    exact (proj2 (H eq_refl)).
Defined.

(** *** Scaling *)

(** X9: [scale_to] with a negative length raises [ValueError]; with a
    length equal to zero it returns the zero vector of the receiver's
    class, whatever the receiver, without computing its length. *)
Theorem scale_to_zero_or_negative (hypot : float -> float -> float) (self : vector)
        (length_ : value) (l : float) (s : N) :
  py_float length_ = Ret l ->
  ((l <? 0) = true ->
   Vector2.scale_to hypot self length_ s = (Raise ValueError, s))
  /\ ((l =? 0) = true ->
      Vector2.scale_to hypot self length_ s = (Ret (Vec s (vtype self) 0 0), N.succ s)).
Proof.
  intros Hl. unfold Vector2.scale_to. unfold_monad. rewrite Hl. split.
  - intros ->. reflexivity.
  - intros Hz. rewrite (Feqb_zero_not_neg l Hz), Hz. reflexivity.
Qed.

Lemma scale_to_zero_or_negative_witness :
  Vector2.scale_to naive_hypot (Vec 0 Position_cls 3 4) (VFloat (-1)) 1%N
    = (Raise ValueError, 1%N)
  /\ Vector2.scale_to naive_hypot (Vec 0 Position_cls 0 0) (VInt 0) 1%N
    = (Ret (Vec 1 Position_cls 0 0), 2%N).
Proof.
  split.
  - apply (scale_to_zero_or_negative naive_hypot (Vec 0 Position_cls 3 4)
             (VFloat (-1)) (-1) 1%N); reflexivity.
  - apply (scale_to_zero_or_negative naive_hypot (Vec 0 Position_cls 0 0)
             (VInt 0) 0 1%N); reflexivity.
Defined.

(** X10: [truncate] to a negative length raises [ValueError], the
    length of the receiver being at least zero. *)
Theorem truncate_negative (hypot : float -> float -> float) (self : vector)
        (max_length : value) (m : float) (s : N) :
  py_float max_length = Ret m ->
  (0 <=? Vector2.length hypot self) = true ->
  (m <? 0) = true ->
  Vector2.truncate hypot self max_length s = (Raise ValueError, s).
Proof.
  intros Hm Hlen Hneg. unfold Vector2.truncate. unfold_monad. rewrite Hm.
  rewrite (Fleb_neg_false _ _ Hlen Hneg).
  unfold Vector2.scale_to. unfold_monad. simpl. rewrite Hneg. reflexivity.
Qed.

Lemma truncate_negative_witness :
  Vector2.truncate naive_hypot (Vec 0 Vector2_cls 3 4) (VInt (-2)) 1%N
    = (Raise ValueError, 1%N).
Proof.
  apply (truncate_negative naive_hypot (Vec 0 Vector2_cls 3 4) (VInt (-2)) (-2) 1%N);
    reflexivity.
Defined.

(** *** Exact scalings *)

(** X11: Negation is exact: the coordinates of [-v] are the binary64
    negations of those of [v], NaN and infinities included, with the
    class of [v]; negating twice gives the coordinates of [v] back, bit
    for bit. *)
Theorem neg_exact (self : vector) (s : N) :
  Vector2.__neg__ self s = (Ret (Vec s (vtype self) (- x self) (- y self)), N.succ s)
  /\ (w ← Vector2.__neg__ self; Vector2.__neg__ w) s
     = (Ret (Vec (N.succ s) (vtype self) (x self) (y self)), N.succ (N.succ s)).
Proof.
  assert (forall v t, Vector2.__neg__ v t
                      = (Ret (Vec t (vtype v) (- x v) (- y v)), N.succ t)) as H.
  { intros v t. unfold Vector2.__neg__, Vector2.scale_by. unfold_monad.
    change (py_float (VInt (-1))) with (Ret (-1)). cbv beta iota.
    rewrite init_floats, !Fmul_m1_r. reflexivity. }
  split; [apply H|].
  unfold_monad. rewrite !H. simpl. rewrite !Fopp_involutive. reflexivity.
Qed.

(** X12: Scaling by one is exact: [v.scale_by(1)], [v * 1] and [1 * v],
    with the [int] [1], the [float] [1.0] or [True], build a vector of
    the class of [v] with exactly the coordinates of [v]. *)
Theorem scale_by_one (self : vector) (one : value) (s : N) :
  In one [VInt 1; VFloat 1; VBool true] ->
  Vector2.scale_by self one s = (Ret (Vec s (vtype self) (x self) (y self)), N.succ s)
  /\ Vector2.__mul__ self one s
     = (Ret (VVec (Vec s (vtype self) (x self) (y self))), N.succ s)
  /\ Vector2.__rmul__ self one s
     = (Ret (VVec (Vec s (vtype self) (x self) (y self))), N.succ s).
Proof.
  intros Hone.
  assert (py_float one = Ret 1
          /\ (isinstance one float_cls || isinstance one int_cls) = true) as [Hf Hi].
  { destruct Hone as [<-|[<-|[<-|[]]]]; split; reflexivity. }
  assert (Vector2.scale_by self one s
          = (Ret (Vec s (vtype self) (x self) (y self)), N.succ s)) as H.
  { unfold Vector2.scale_by. unfold_monad. rewrite Hf. cbv beta iota.
    rewrite init_floats, !Fmul_1_r. reflexivity. }
  split; [exact H|].
  unfold Vector2.__rmul__, Vector2.__mul__. rewrite Hi. unfold_monad. rewrite H.
  split; reflexivity.
Qed.

Lemma scale_by_one_witness :
  Vector2.__mul__ (Vec 0 Vector2_cls 0.75 (-0)) (VBool true) 1%N
  = (Ret (VVec (Vec 1 Vector2_cls 0.75 (-0))), 2%N).
Proof.
  apply (scale_by_one (Vec 0 Vector2_cls 0.75 (-0)) (VBool true) 1%N).
  right. right. left. reflexivity.
Defined.

Lemma convert_instance (v : vector) (s : N) :
  isinstance (VVec v) Vector2_cls = true ->
  Vector2.convert Vector2_cls (VVec v) s = (Ret v, s).
Proof. intros H. rewrite convert_vec, H. reflexivity. Qed.

(** X13: The dot product commutes: for two vectors, [a.dot(b)] and
    [b.dot(a)], and [a * b] and [b * a], are the same binary64 number,
    [a.x * b.x + a.y * b.y]; nothing is built. *)
Theorem dot_commutes (a b : vector) (s : N) :
  plain_vector a -> plain_vector b ->
  Vector2.dot a (VVec b) s = Vector2.dot b (VVec a) s
  /\ Vector2.__mul__ a (VVec b) s = Vector2.__mul__ b (VVec a) s
  /\ Vector2.__mul__ a (VVec b) s
     = (Ret (VFloat (x a * x b + y a * y b)), s).
Proof.
  intros (Ha & Haf & Hai) (Hb & Hbf & Hbi).
  rewrite !mul_cases by (rewrite ?Haf, ?Hai, ?Hbf, ?Hbi; reflexivity).
  unfold Vector2.dot. unfold_monad.
  rewrite !convert_instance by assumption.
  rewrite (Fmul_comm (x b) (x a)), (Fmul_comm (y b) (y a)).
  repeat split.
Qed.

Lemma dot_commutes_witness :
  Vector2.__mul__ (Vec 0 Vector2_cls 1 2) (VVec (Vec 1 Position_cls 3 4)) 2%N
  = Vector2.__mul__ (Vec 1 Position_cls 3 4) (VVec (Vec 0 Vector2_cls 1 2)) 2%N.
Proof.
  apply (dot_commutes (Vec 0 Vector2_cls 1 2) (Vec 1 Position_cls 3 4) 2%N);
    repeat split.
Defined.

(** X14: Addition commutes on the coordinates: [a + b] and [b + a] have
    the same coordinates bit for bit; their classes are resolved from
    the operands in opposite orders, and so may differ on a tie. *)
Theorem add_commutes (a b : vector) (s : N) :
  isinstance (VVec a) Vector2_cls = true ->
  isinstance (VVec b) Vector2_cls = true ->
  exists r1 r2,
    Vector2.__add__ a (VVec b) s = (Ret (VVec r1), N.succ s)
    /\ Vector2.__add__ b (VVec a) s = (Ret (VVec r2), N.succ s)
    /\ x r1 = x r2 /\ y r1 = y r2
    /\ vtype r1 = _find_lowest_vector (vtype b) (vtype a)
    /\ vtype r2 = _find_lowest_vector (vtype a) (vtype b).
Proof.
  intros Ha Hb.
  rewrite (add_ret a (VVec b) b s s (convert_instance b s Hb)).
  rewrite (add_ret b (VVec a) a s s (convert_instance a s Ha)).
  eexists _, _. split; [reflexivity|]. split; [reflexivity|]. simpl.
  rewrite (Fadd_comm (x b) (x a)), (Fadd_comm (y b) (y a)). repeat split.
Qed.

Lemma add_commutes_witness :
  exists r1 r2,
    Vector2.__add__ (Vec 0 Vector2_cls 1 2) (VVec (Vec 1 Position_cls 3 4)) 2%N
      = (Ret (VVec r1), 3%N)
    /\ Vector2.__add__ (Vec 1 Position_cls 3 4) (VVec (Vec 0 Vector2_cls 1 2)) 2%N
      = (Ret (VVec r2), 3%N)
    /\ x r1 = x r2 /\ y r1 = y r2
    /\ vtype r1 = Position_cls /\ vtype r2 = Position_cls.
Proof.
  apply (add_commutes (Vec 0 Vector2_cls 1 2) (Vec 1 Position_cls 3 4) 2%N);
    reflexivity.
Defined.

(** X15: [==] is symmetric on vectors: [a == b] and [b == a] are the
    same answer, the conjunction of the two coordinate
    comparisons. *)
Theorem eq_symmetric (a b : vector) (s : N) :
  isinstance (VVec a) Vector2_cls = true ->
  isinstance (VVec b) Vector2_cls = true ->
  Vector2.__eq__ a (VVec b) s = Vector2.__eq__ b (VVec a) s
  /\ Vector2.__eq__ a (VVec b) s
     = (Ret (VBool ((x a =? x b) && (y a =? y b))), s).
Proof.
  intros Ha Hb. rewrite !eq_cases, !convert_instance by assumption.
  rewrite (Feqb_sym (x b) (x a)), (Feqb_sym (y b) (y a)). split; reflexivity.
Qed.

Lemma eq_symmetric_witness :
  Vector2.__eq__ (Vec 0 Vector2_cls 1 2) (VVec (Vec 1 Position_cls 1 2)) 2%N
  = Vector2.__eq__ (Vec 1 Position_cls 1 2) (VVec (Vec 0 Vector2_cls 1 2)) 2%N.
Proof.
  apply (eq_symmetric (Vec 0 Vector2_cls 1 2) (Vec 1 Position_cls 1 2) 2%N);
    reflexivity.
Defined.

(** *** Closeness *)

(** X16: [isclose] with a negative [abs_tol] or [rel_tol] raises
    [ValueError] before the other operand is looked at, so also when it
    is not vector-like. *)
Theorem isclose_negative_tolerance (hypot : float -> float -> float) (self : vector)
        (other abs_tol rel_tol : value) (rel_to : list value) (a r : float) (s : N) :
  py_float abs_tol = Ret a -> py_float rel_tol = Ret r ->
  ((a <? 0) || (r <? 0)) = true ->
  Vector2.isclose hypot self other abs_tol rel_tol rel_to s = (Raise ValueError, s).
Proof.
  intros Ha Hr Hneg. unfold Vector2.isclose. unfold_monad.
  rewrite Ha, Hr, Hneg. reflexivity.
Qed.

Lemma isclose_negative_tolerance_witness :
  Vector2.isclose naive_hypot (Vec 0 Vector2_cls 1 2) VNone
                  (VFloat default_tol) (VInt (-1)) [] 1%N
  = (Raise ValueError, 1%N).
Proof.
  apply (isclose_negative_tolerance naive_hypot (Vec 0 Vector2_cls 1 2) VNone
           (VFloat default_tol) (VInt (-1)) [] default_tol (-1) 1%N); reflexivity.
Defined.

(** X17: A vector with finite coordinates is close to itself for all
    tolerances that are at least zero, [abs_tol = rel_tol = 0]
    included, whatever [rel_to] holds (as long as it converts),
    provided [hypot(0, 0)] is [0]. *)
Theorem isclose_reflexive (hypot : float -> float -> float) (self : vector)
        (abs_tol rel_tol : value) (rel_to : list value) (a r : float)
        (ls : list float) (s s1 : N) :
  hypot 0 0 = 0 ->
  isinstance (VVec self) Vector2_cls = true ->
  Ffinite (x self) = true -> Ffinite (y self) = true ->
  py_float abs_tol = Ret a -> py_float rel_tol = Ret r ->
  (0 <=? a) = true -> (0 <=? r) = true ->
  Vector2.rel_lengths hypot rel_to s = (Ret ls, s1) ->
  Vector2.isclose hypot self (VVec self) abs_tol rel_tol rel_to s
  = (Ret true, N.succ s1).
Proof.
  intros Hh Hv Fx Fy Ha Hr Ha0 Hr0 Hls. unfold Vector2.isclose. unfold_monad.
  rewrite Ha, Hr, (Fleb_zero_not_neg a Ha0), (Fleb_zero_not_neg r Hr0).
  cbn [orb]. rewrite (convert_instance self s Hv), Hls.
  rewrite (sub_ret self (VVec self) self s1 s1 (convert_instance self s1 Hv)).
  unfold Vector2.length. cbn [x y].
  rewrite (Fsub_diag _ Fx), (Fsub_diag _ Fy), Hh, Ha0, orb_true_r. reflexivity.
Qed.

Lemma isclose_reflexive_witness :
  Vector2.isclose naive_hypot (Vec 0 Vector2_cls 3 4) (VVec (Vec 0 Vector2_cls 3 4))
                  (VInt 0) (VInt 0) [VTuple [VInt 1; VInt 1]] 1%N
  = (Ret true, 3%N).
Proof.
  apply (isclose_reflexive naive_hypot (Vec 0 Vector2_cls 3 4) (VInt 0) (VInt 0)
           [VTuple [VInt 1; VInt 1]] 0 0 [naive_hypot 1 1] 1%N 2%N); reflexivity.
Defined.

(** *** The angle of a vector with itself *)

(** X18: The angle between a vector without NaN coordinate and itself
    is exactly [0.0], provided libm's [atan2] stays within [-pi, pi]
    on arguments that are not NaN. *)
Theorem angle_with_itself (atan2 : float -> float -> float) (self : vector) (s : N) :
  atan2_in_range atan2 ->
  isinstance (VVec self) Vector2_cls = true ->
  is_nan (x self) = false -> is_nan (y self) = false ->
  Vector2.angle atan2 self (VVec self) s = (Ret 0, s).
Proof.
  intros Hc Hv Hx Hy.
  rewrite <- is_nan_opp in Hy.
  destruct (math_atan2_ret atan2 _ _ Hc Hx Hy) as [E [Fa _]].
  unfold Vector2.angle. unfold_monad.
  rewrite (convert_instance self s Hv), E.
  rewrite (Fsub_diag _ Fa). reflexivity.
Qed.

Lemma angle_with_itself_witness :
  Vector2.angle axis_atan2 (Vec 0 Vector2_cls 0 (-3)) (VVec (Vec 0 Vector2_cls 0 (-3))) 1%N
  = (Ret 0, 1%N).
Proof.
  apply (angle_with_itself axis_atan2 (Vec 0 Vector2_cls 0 (-3)) 1%N);
    [exact axis_atan2_in_range | reflexivity ..].
Defined.

(** ** Reflection *)

Lemma convert_Vector2_instance (v : value) (n : vector) (s s1 : N) :
  Vector2.convert Vector2_cls v s = (Ret n, s1) ->
  isinstance (VVec n) Vector2_cls = true.
Proof.
  destruct v as [f|i|b|items|r cs|r bs|d|w|c o|]; try discriminate.
  - destruct items as [|a [|b [|c l]]]; try discriminate.
    intros H. apply set_coordinates_ret in H as (fx & fy & _ & _ & -> & _). reflexivity.
  - destruct cs as [|a [|b [|c l]]]; try discriminate.
    intros H. apply set_coordinates_ret in H as (fx & fy & _ & _ & -> & _). reflexivity.
  - destruct bs as [|a [|b [|c l]]]; try discriminate.
    intros H. apply set_coordinates_ret in H as (fx & fy & _ & _ & -> & _). reflexivity.
  - rewrite convert_mapping.
    destruct (d !! "x"); [|discriminate]. destruct (d !! "y"); [|discriminate].
    case_bool_decide; [|discriminate].
    intros Hs. apply set_coordinates_ret in Hs as (fx & fy & _ & _ & -> & _). reflexivity.
  - rewrite convert_vec. destruct (isinstance (VVec w) Vector2_cls) eqn:E.
    + intros [= <- <-]. exact E.
    + intros [= <- <-]. reflexivity.
Qed.

Lemma math_isclose_default (a b : float) :
  exists c : bool, math_isclose a b default_tol 0 = Ret c.
Proof.
  unfold math_isclose.
  change ((default_tol <? 0) || (0 <? 0)) with false. cbv iota.
  destruct (a =? b); [eauto|]. destruct (is_infinity a || is_infinity b); eauto.
Qed.

Lemma rmul_float (v : vector) (f : float) (s : N) :
  Vector2.__rmul__ v (VFloat f) s
  = (Ret (VVec (Vec s (vtype v) (x v * f) (y v * f))), N.succ s).
Proof. reflexivity. Qed.

(** X19: [reflect] succeeds exactly when [math.isclose] finds the length
    of the converted normal [n] close to one, and raises [ValueError]
    otherwise; the result is [self - n * (2 * (self . n))] computed
    coordinate by coordinate in binary64, of the class resolved from the
    classes of [n] and [self]; two objects are built. *)
Theorem reflect_spec (hypot : float -> float -> float) (self : vector)
        (surface_normal : value) (n : vector) (s s1 : N) :
  Vector2.convert Vector2_cls surface_normal s = (Ret n, s1) ->
  isinstance (VVec n) float_cls = false ->
  isinstance (VVec n) int_cls = false ->
  exists close : bool,
    math_isclose (hypot (x n) (y n)) 1 default_tol 0 = Ret close
    /\ Vector2.reflect hypot self surface_normal s =
       if close then
         let d := x self * x n + y self * y n in
         (Ret (Vec (N.succ s1) (_find_lowest_vector (vtype n) (vtype self))
                   (x self - x n * (2 * d)) (y self - y n * (2 * d))),
          N.succ (N.succ s1))
       else (Raise ValueError, s1).
Proof.
  intros Hc Hf Hi.
  pose proof (convert_Vector2_instance _ _ _ _ Hc) as Hv.
  destruct (math_isclose_default (hypot (x n) (y n)) 1) as [close Hclose].
  exists close. split; [assumption|].
  unfold Vector2.reflect. unfold_monad. rewrite Hc.
  unfold Vector2.length. rewrite Hclose.
  destruct close; [|reflexivity]. cbn [negb].
  rewrite mul_cases by (rewrite Hf, Hi; reflexivity).
  rewrite (convert_instance n s1 Hv).
  rewrite rmul_float.
  set (scaled := Vec s1 (vtype n) _ _).
  assert (isinstance (VVec scaled) Vector2_cls = true) as Hsv by exact Hv.
  rewrite (sub_ret self (VVec scaled) scaled _ _ (convert_instance scaled _ Hsv)).
  reflexivity.
Qed.

Lemma reflect_spec_witness :
  Vector2.reflect naive_hypot (Vec 0 Position_cls 5 3) (VTuple [VInt (-1); VInt 0]) 1%N
  = (Ret (Vec 3 Position_cls (-5) 3), 4%N).
Proof.
  destruct (reflect_spec naive_hypot (Vec 0 Position_cls 5 3)
              (VTuple [VInt (-1); VInt 0]) (Vec 1 Vector2_cls (-1) 0) 1%N 2%N)
    as (close & Hclose & Hr); [reflexivity ..|].
  vm_compute in Hclose. injection Hclose as <-. exact Hr.
Defined.

(** ** Exact rotations *)

Lemma copysign_zero (c : float) : (copysign 0 c =? 0) = true.
Proof. unfold copysign. destruct (get_sign c); reflexivity. Qed.

Lemma math_1_finite (func : float -> float) (a : float) :
  is_nan (func a) = false -> is_infinity (func a) = false ->
  math_1 func a = Ret (func a).
Proof. intros Hn Hi. unfold math_1. cbv zeta. rewrite Hn, Hi. reflexivity. Qed.

Lemma unit_square_root (u : float) :
  abs u = 1 ->
  is_nan u = false /\ is_infinity u = false /\ math_sqrt (1 - u * u) = Ret 0.
Proof. intros [-> | ->]%Fabs_one; repeat split. Qed.

(** Where libm's sine is exactly one or minus one, the stabilized
    cosine is an exact zero. *)
Lemma trig_sin_unit (cos sin : float -> float) (angle : float) :
  abs (sin (radians angle)) = 1 ->
  (abs (cos (radians angle)) <=? 1) = true ->
  Vector2._trig cos sin angle
  = Ret (copysign 0 (cos (radians angle)), sin (radians angle)).
Proof.
  intros Hs Hc. unfold Vector2._trig. cbv zeta.
  destruct (Fleb_one_finite _ Hc) as [Hcn Hci].
  destruct (unit_square_root _ Hs) as (Hsn & Hsi & Hroot).
  rewrite (math_1_finite cos _ Hcn Hci), (math_1_finite sin _ Hsn Hsi).
  rewrite Hs, (Fltb_of_leb _ _ Hc), Hroot. reflexivity.
Qed.

Lemma trig_cos_unit (cos sin : float -> float) (angle : float) :
  abs (cos (radians angle)) = 1 ->
  (abs (sin (radians angle)) <? 1) = true ->
  Vector2._trig cos sin angle
  = Ret (cos (radians angle), copysign 0 (sin (radians angle))).
Proof.
  intros Hc Hs. unfold Vector2._trig. cbv zeta.
  destruct (Fleb_one_finite _ (Fleb_of_ltb _ _ Hs)) as [Hsn Hsi].
  destruct (unit_square_root _ Hc) as (Hcn & Hci & Hroot).
  rewrite (math_1_finite cos _ Hcn Hci), (math_1_finite sin _ Hsn Hsi).
  rewrite Hc, Hs, Hroot. reflexivity.
Qed.

Lemma Fmul_unit_finite (a u : float) :
  abs u = 1 -> Ffinite a = true -> Ffinite (a * u) = true.
Proof.
  intros Hu Ha. rewrite (Fmul_unit_r a u Hu).
  destruct (get_sign u); [rewrite Ffinite_opp|]; assumption.
Qed.

(** X20: Quarter turns are exact: where libm's sine of the angle is
    exactly [u = 1] or [u = -1] (and its cosine no larger than one in
    magnitude), the stabilized cosine is an exact zero, and [rotate]
    maps a vector with finite coordinates [(x, y)] to [(-(y * u), x *
    u)], that is to [(-y, x)] or [(y, -x)], up to the sign of a zero
    coordinate. *)
Theorem rotate_quarter_turn (cos sin : float -> float) (self : vector)
        (angle : float) (s : N) :
  let u := sin (radians angle) in
  abs u = 1 ->
  (abs (cos (radians angle)) <=? 1) = true ->
  Ffinite (x self) = true -> Ffinite (y self) = true ->
  exists r,
    Vector2.rotate cos sin self angle s = (Ret r, N.succ s)
    /\ vid r = s /\ vtype r = vtype self
    /\ (x r =? - (y self * u)) = true
    /\ (y r =? x self * u) = true
    /\ y self * u = (if get_sign u then - y self else y self)
    /\ x self * u = (if get_sign u then - x self else x self).
Proof.
  intros u Hu Hc Fx Fy.
  unfold Vector2.rotate. unfold_monad.
  rewrite (trig_sin_unit cos sin angle Hu Hc). fold u.
  rewrite init_floats. eexists. split; [reflexivity|]. cbn [vid vtype x y].
  pose proof (copysign_zero (cos (radians angle))) as Hz.
  repeat split.
  - apply Fsub_zero_l; [apply Fmul_zero_r | apply Fmul_unit_finite]; assumption.
  - apply Fadd_zero_r; [apply Fmul_unit_finite | apply Fmul_zero_r]; assumption.
  - apply Fmul_unit_r; assumption.
  - apply Fmul_unit_r; assumption.
Qed.

Lemma rotate_quarter_turn_witness :
  exists r,
    Vector2.rotate axis_cos axis_sin (Vec 0 Vector2_cls 1 1) 90 1%N = (Ret r, 2%N)
    /\ (x r =? -1) = true /\ (y r =? 1) = true.
Proof.
  destruct (rotate_quarter_turn axis_cos axis_sin (Vec 0 Vector2_cls 1 1) 90 1%N)
    as (r & Hr & _ & _ & Hx & Hy & _); [reflexivity ..|].
  exists r. split; [exact Hr|]. split; [exact Hx | exact Hy].
Defined.

(** X21: Half turns and the zero turn are exact: where libm's cosine of
    the angle is exactly [u = 1] or [u = -1] (and its sine smaller than
    one in magnitude), the stabilized sine is an exact zero, and
    [rotate] maps a vector with finite coordinates [(x, y)] to [(x * u,
    y * u)], that is to itself or to its negation, up to the sign of a
    zero coordinate. *)
Theorem rotate_half_turn (cos sin : float -> float) (self : vector)
        (angle : float) (s : N) :
  let u := cos (radians angle) in
  abs u = 1 ->
  (abs (sin (radians angle)) <? 1) = true ->
  Ffinite (x self) = true -> Ffinite (y self) = true ->
  exists r,
    Vector2.rotate cos sin self angle s = (Ret r, N.succ s)
    /\ vid r = s /\ vtype r = vtype self
    /\ (x r =? x self * u) = true
    /\ (y r =? y self * u) = true
    /\ x self * u = (if get_sign u then - x self else x self)
    /\ y self * u = (if get_sign u then - y self else y self).
Proof.
  intros u Hu Hs Fx Fy.
  unfold Vector2.rotate. unfold_monad.
  rewrite (trig_cos_unit cos sin angle Hu Hs). fold u.
  rewrite init_floats. eexists. split; [reflexivity|]. cbn [vid vtype x y].
  pose proof (copysign_zero (sin (radians angle))) as Hz.
  repeat split.
  - apply Fsub_zero_r; [apply Fmul_unit_finite | apply Fmul_zero_r]; assumption.
  - apply Fadd_zero_l; [apply Fmul_zero_r | apply Fmul_unit_finite]; assumption.
  - apply Fmul_unit_r; assumption.
  - apply Fmul_unit_r; assumption.
Qed.

Lemma rotate_half_turn_witness :
  exists r,
    Vector2.rotate axis_cos axis_sin (Vec 0 Vector2_cls 1 1) 180 1%N = (Ret r, 2%N)
    /\ (x r =? -1) = true /\ (y r =? -1) = true.
Proof.
  destruct (rotate_half_turn axis_cos axis_sin (Vec 0 Vector2_cls 1 1) 180 1%N)
    as (r & Hr & _ & _ & Hx & Hy & _); [reflexivity ..|].
  exists r. split; [exact Hr|]. split; [exact Hx | exact Hy].
Defined.

(** ** Further postconditions *)

(** X22: What [cls.convert] returns is an instance of [cls]: either the
    argument itself, with nothing built, or one new object of class
    [cls] exactly; converting the result again hands it back and
    builds nothing. *)
Theorem convert_returns_instance (cls : pyclass) (v : value) (r : vector) (s s' : N) :
  wf_class cls ->
  Vector2.convert cls v s = (Ret r, s') ->
  isinstance (VVec r) cls = true
  /\ ((s' = s /\ v = VVec r) \/ (s' = N.succ s /\ vid r = s /\ vtype r = cls))
  /\ Vector2.convert cls (VVec r) s' = (Ret r, s').
Proof.
  intros Hwf Hc.
  cut (isinstance (VVec r) cls = true
       /\ ((s' = s /\ v = VVec r) \/ (s' = N.succ s /\ vid r = s /\ vtype r = cls))).
  { intros [Hi Hs]. split; [exact Hi|]. split; [exact Hs|].
    rewrite convert_vec, Hi. reflexivity. }
  revert Hc.
  assert (forall a b, Vector2.set_coordinates cls a b s = (Ret r, s') ->
                      isinstance (VVec r) cls = true
                      /\ ((s' = s /\ v = VVec r)
                          \/ (s' = N.succ s /\ vid r = s /\ vtype r = cls))) as Hset.
  { intros a b H. apply set_coordinates_ret in H as (fx & fy & _ & _ & -> & ->).
    split; [exact (issubclass_refl cls Hwf) | right; repeat split]. }
  destruct v as [f|i|b|items|r0 cs|r0 bs|d|w|c o|]; try discriminate.
  - destruct items as [|a [|b [|c l]]]; try discriminate. apply Hset.
  - destruct cs as [|a [|b [|c l]]]; try discriminate. apply Hset.
  - destruct bs as [|a [|b [|c l]]]; try discriminate. apply Hset.
  - rewrite convert_mapping.
    destruct (d !! "x"); [|discriminate]. destruct (d !! "y"); [|discriminate].
    case_bool_decide; [|discriminate]. apply Hset.
  - rewrite convert_vec. destruct (isinstance (VVec w) cls) eqn:E.
    + intros [= <- <-]. split; [exact E | left; split; reflexivity].
    + intros [= <- <-]. split; [exact (issubclass_refl cls Hwf) | right; repeat split].
Qed.

Lemma convert_returns_instance_witness :
  isinstance (VVec (Vec 1 Position_cls 1 2)) Position_cls = true
  /\ ((2%N = 1%N /\ VTuple [VInt 1; VInt 2] = VVec (Vec 1 Position_cls 1 2))
      \/ (2%N = N.succ 1 /\ vid (Vec 1 Position_cls 1 2) = 1%N
          /\ vtype (Vec 1 Position_cls 1 2) = Position_cls))
  /\ Vector2.convert Position_cls (VVec (Vec 1 Position_cls 1 2)) 2%N
     = (Ret (Vec 1 Position_cls 1 2), 2%N).
Proof.
  apply (convert_returns_instance Position_cls (VTuple [VInt 1; VInt 2])
           (Vec 1 Position_cls 1 2) 1%N 2%N); reflexivity.
Defined.

(** X23: The operations that take a scalar convert it with [float]
    first: when [float] fails, [scale_by], [/], [scale_to] and
    [truncate] fail with the very exception of [float] (a [ValueError]
    stays a [ValueError], unlike in the constructor) and build
    nothing. *)
Theorem scalar_conversion_failure (hypot : float -> float -> float) (self : vector)
        (k : value) (e : exn) (s : N) :
  py_float k = Raise e ->
  Vector2.scale_by self k s = (Raise e, s)
  /\ Vector2.__truediv__ self k s = (Raise e, s)
  /\ Vector2.scale_to hypot self k s = (Raise e, s)
  /\ Vector2.truncate hypot self k s = (Raise e, s).
Proof.
  intros H.
  unfold Vector2.scale_by, Vector2.__truediv__, Vector2.scale_to, Vector2.truncate.
  unfold_monad. rewrite H. repeat split.
Qed.

Lemma scalar_conversion_failure_witness :
  Vector2.scale_by (Vec 0 Vector2_cls 1 2) gibberish 1%N = (Raise ValueError, 1%N)
  /\ Vector2.__truediv__ (Vec 0 Vector2_cls 1 2) VNone 1%N = (Raise TypeError, 1%N).
Proof.
  split.
  - apply (scalar_conversion_failure naive_hypot (Vec 0 Vector2_cls 1 2) gibberish
             ValueError 1%N). reflexivity.
  - apply (scalar_conversion_failure naive_hypot (Vec 0 Vector2_cls 1 2) VNone
             TypeError 1%N). reflexivity.
Defined.

(** X24: For a length that is neither negative nor zero and a receiver
    whose length [L] is not zero, [scale_to] multiplies first and
    divides second: the coordinates are [(x * l) / L] and [(y * l) /
    L], in the receiver's class, the second of two objects built;
    [normalize] gives exactly [x / L] and [y / L]. *)
Theorem scale_to_formula (hypot : float -> float -> float) (self : vector)
        (length_ : value) (l : float) (s : N) :
  let L := Vector2.length hypot self in
  py_float length_ = Ret l ->
  (l <? 0) = false -> (l =? 0) = false -> (L =? 0) = false ->
  Vector2.scale_to hypot self length_ s
  = (Ret (Vec (N.succ s) (vtype self) (x self * l / L) (y self * l / L)),
     N.succ (N.succ s))
  /\ Vector2.normalize hypot self s
     = (Ret (Vec (N.succ s) (vtype self) (x self / L) (y self / L)),
        N.succ (N.succ s)).
Proof.
  intros L Hl Hneg Hz HL.
  assert (forall k, (k <? 0) = false -> (k =? 0) = false ->
            Vector2.scale_to hypot self (VFloat k) s
            = (Ret (Vec (N.succ s) (vtype self) (x self * k / L) (y self * k / L)),
               N.succ (N.succ s))) as H.
  { intros k Hk1 Hk2. unfold Vector2.scale_to. unfold_monad.
    cbn [py_float]. rewrite Hk1, Hk2, rmul_float.
    unfold Vector2.__truediv__, py_truediv. unfold_monad. cbn [py_float x y vtype].
    fold L. rewrite HL. apply init_floats. }
  split.
  - rewrite (scale_to_float hypot self length_ l s Hl). apply H; assumption.
  - unfold Vector2.normalize, Vector2.scale.
    rewrite (scale_to_float hypot self (VInt 1) 1 s eq_refl).
    rewrite (H 1) by reflexivity. rewrite !Fmul_1_r. reflexivity.
Qed.

Lemma scale_to_formula_witness :
  Vector2.scale_to naive_hypot (Vec 0 Vector2_cls 3 4) (VInt 10) 1%N
  = (Ret (Vec 2 Vector2_cls 6 8), 3%N)
  /\ Vector2.normalize naive_hypot (Vec 0 Vector2_cls 3 4) 1%N
     = (Ret (Vec 2 Vector2_cls (3 / 5) (4 / 5)), 3%N).
Proof.
  apply (scale_to_formula naive_hypot (Vec 0 Vector2_cls 3 4) (VInt 10) 10 1%N);
    reflexivity.
Defined.

(** X25: The dot product with the unit vectors of the axes gives the
    coordinates: for a vector with finite coordinates, [v * (1, 0) ==
    v.x] and [v * (0, 1) == v.y]. *)
Theorem dot_axis (self : vector) (s : N) :
  Ffinite (x self) = true -> Ffinite (y self) = true ->
  exists dx dy,
    Vector2.__mul__ self (VTuple [VInt 1; VInt 0]) s = (Ret (VFloat dx), N.succ s)
    /\ Vector2.__mul__ self (VTuple [VInt 0; VInt 1]) s = (Ret (VFloat dy), N.succ s)
    /\ (dx =? x self) = true /\ (dy =? y self) = true.
Proof.
  intros Fx Fy.
  exists (x self * 1 + y self * 0), (x self * 0 + y self * 1).
  split; [reflexivity|]. split; [reflexivity|].
  rewrite !Fmul_1_r. split.
  - apply Fadd_zero_r; [assumption | apply Fmul_zero_r; [assumption | reflexivity]].
  - apply Fadd_zero_l; [apply Fmul_zero_r; [assumption | reflexivity] | assumption].
Qed.

Lemma dot_axis_witness :
  exists dx dy,
    Vector2.__mul__ (Vec 0 Vector2_cls 3 (-4)) (VTuple [VInt 1; VInt 0]) 1%N
      = (Ret (VFloat dx), 2%N)
    /\ Vector2.__mul__ (Vec 0 Vector2_cls 3 (-4)) (VTuple [VInt 0; VInt 1]) 1%N
      = (Ret (VFloat dy), 2%N)
    /\ (dx =? 3) = true /\ (dy =? -4) = true.
Proof.
  apply (dot_axis (Vec 0 Vector2_cls 3 (-4)) 1%N); reflexivity.
Defined.

(** X26: A vector with finite coordinates minus itself is the zero
    vector: both coordinates of [v - v] are [+0.0]. *)
Theorem sub_self_zero (self : vector) (s : N) :
  isinstance (VVec self) Vector2_cls = true ->
  Ffinite (x self) = true -> Ffinite (y self) = true ->
  Vector2.__sub__ self (VVec self) s
  = (Ret (VVec (Vec s (_find_lowest_vector (vtype self) (vtype self)) 0 0)), N.succ s)
  /\ _find_lowest_vector (vtype self) (vtype self) = vtype self.
Proof.
  intros Hv Fx Fy.
  rewrite (sub_ret self (VVec self) self s s (convert_instance self s Hv)).
  rewrite (Fsub_diag _ Fx), (Fsub_diag _ Fy). split; [reflexivity|].
  unfold _find_lowest_vector, class_is. rewrite bool_decide_eq_true_2; reflexivity.
Qed.

Lemma sub_self_zero_witness :
  Vector2.__sub__ (Vec 0 Position_cls 3 4) (VVec (Vec 0 Position_cls 3 4)) 1%N
  = (Ret (VVec (Vec 1 Position_cls 0 0)), 2%N).
Proof.
  destruct (sub_self_zero (Vec 0 Position_cls 3 4) 1%N) as [H E]; [reflexivity ..|].
  rewrite E in H. exact H.
Defined.

(** ** The dot product of a vector with itself *)

Lemma binary_round_aux_nonneg (mx ex : Z) (lx : location) :
  nonneg_or_nan (binary_round_aux prec emax false mx ex lx).
Proof.
  unfold binary_round_aux.
  destruct (shr_fexp prec emax mx ex lx) as [mrs' e'].
  destruct (shr_fexp prec emax _ e' loc_Exact) as [mrs'' e''].
  destruct (shr_m mrs''); try exact I.
  destruct (e'' <=? emax - prec)%Z; exact I.
Qed.

Lemma SFmul_square_nonneg (f : spec_float) : nonneg_or_nan (SF64mul f f).
Proof.
  destruct f as [s|s| |s m e]; unfold SF64mul, SFmul; rewrite ?xorb_nilpotent;
    try exact I.
  apply binary_round_aux_nonneg.
Qed.

Lemma SFadd_nonneg (f g : spec_float) :
  nonneg_or_nan f -> nonneg_or_nan g -> nonneg_or_nan (SF64add f g).
Proof.
  destruct f as [[]|[]| |[] mf ef]; try contradiction;
    destruct g as [[]|[]| |[] mg eg]; try contradiction; intros _ _; try exact I.
  unfold SF64add, SFadd. cbn [cond_Zopp]. cbv zeta.
  destruct (shl_align mf ef (Z.min ef eg)) as [m1 e1].
  destruct (shl_align mg eg (Z.min ef eg)) as [m2 e2].
  cbn [fst]. change (Zpos m1 + Zpos m2)%Z with (Zpos (m1 + m2)).
  cbn [binary_normalize]. unfold binary_round.
  destruct (shl_align (m1 + m2) _ _) as [mz ez].
  apply binary_round_aux_nonneg.
Qed.

Lemma nonneg_or_nan_spec (d : float) :
  nonneg_or_nan (Prim2SF d) -> (d <? 0) = false /\ (is_nan d = true \/ (0 <=? d) = true).
Proof.
  rewrite FloatAxioms.ltb_spec, FloatAxioms.leb_spec, is_nan_spec.
  replace (Prim2SF 0) with (S754_zero false) by reflexivity.
  destruct (Prim2SF d) as [[]|[]| |[] m e]; try contradiction; intros _;
    split; try reflexivity; auto.
Qed.

(** X29: The dot product of a vector with itself is never negative: [v *
    v] is a NaN or at least zero, whatever the coordinates. *)
Theorem dot_self_nonneg (self : vector) (s : N) :
  plain_vector self ->
  exists d,
    Vector2.__mul__ self (VVec self) s = (Ret (VFloat d), s)
    /\ (d <? 0) = false
    /\ (is_nan d = true \/ (0 <=? d) = true).
Proof.
  intros (Hv & Hf & Hi).
  exists (x self * x self + y self * y self). split.
  - rewrite mul_cases by (rewrite Hf, Hi; reflexivity).
    rewrite (convert_instance self s Hv). reflexivity.
  - apply nonneg_or_nan_spec. rewrite add_spec, !mul_spec.
    apply SFadd_nonneg; apply SFmul_square_nonneg.
Qed.

Lemma dot_self_nonneg_witness :
  exists d,
    Vector2.__mul__ (Vec 0 Vector2_cls (-3) infinity) (VVec (Vec 0 Vector2_cls (-3) infinity)) 1%N
    = (Ret (VFloat d), 1%N)
    /\ (d <? 0) = false
    /\ (is_nan d = true \/ (0 <=? d) = true).
Proof.
  apply (dot_self_nonneg (Vec 0 Vector2_cls (-3) infinity) 1%N). repeat split.
Defined.

(** ** The angle is antisymmetric *)

Lemma angle_eval (atan2 : float -> float -> float) (self o : vector) (s : N) :
  atan2_in_range atan2 ->
  isinstance (VVec o) Vector2_cls = true ->
  is_nan (x self) = false -> is_nan (y self) = false ->
  is_nan (x o) = false -> is_nan (y o) = false ->
  let rv := degrees (m_atan2 atan2 (x o) (- y o) - m_atan2 atan2 (x self) (- y self)) in
  Vector2.angle atan2 self (VVec o) s
  = (Ret (if rv <=? -180 then rv + 360 else if 180 <? rv then rv - 360 else rv), s)
  /\ Fbounded 9 rv.
Proof.
  intros Hc Hv Hsx Hsy Hox Hoy rv.
  rewrite <- is_nan_opp in Hsy, Hoy.
  destruct (math_atan2_ret atan2 _ _ Hc Hox Hoy) as [Eo Bo].
  destruct (math_atan2_ret atan2 _ _ Hc Hsx Hsy) as [Es Bs].
  split.
  - unfold Vector2.angle. unfold_monad.
    rewrite (convert_instance o s Hv), Eo, Es. fold rv.
    destruct (rv <=? -180); [reflexivity|]. destruct (180 <? rv); reflexivity.
  - apply degrees_bounded. apply (Fsub_bounded 2); [lia | assumption | assumption].
Qed.

(** X27: The angle is antisymmetric: for two vectors without NaN
    coordinate (and libm's [atan2] within [-pi, pi] on arguments that
    are not NaN), [b.angle(a) == -a.angle(b)], except at the half turn,
    where both angles are [180.0]. *)
Theorem angle_antisymmetric (atan2 : float -> float -> float) (a b : vector) (s : N) :
  atan2_in_range atan2 ->
  isinstance (VVec a) Vector2_cls = true ->
  isinstance (VVec b) Vector2_cls = true ->
  is_nan (x a) = false -> is_nan (y a) = false ->
  is_nan (x b) = false -> is_nan (y b) = false ->
  exists r1 r2,
    Vector2.angle atan2 a (VVec b) s = (Ret r1, s)
    /\ Vector2.angle atan2 b (VVec a) s = (Ret r2, s)
    /\ ((r1 = 180 /\ r2 = 180) \/ (r2 =? - r1) = true).
Proof.
  intros Hc Ha Hb Hax Hay Hbx Hby.
  destruct (angle_eval atan2 a b s Hc Hb Hax Hay Hbx Hby) as [E1 B1].
  destruct (angle_eval atan2 b a s Hc Ha Hbx Hby Hax Hay) as [E2 B2].
  cbv zeta in E1, E2, B1, B2.
  rewrite <- is_nan_opp in Hay, Hby.
  destruct (math_atan2_ret atan2 _ _ Hc Hax Hay) as [_ [FA _]].
  destruct (math_atan2_ret atan2 _ _ Hc Hbx Hby) as [_ [FB _]].
  set (A := m_atan2 atan2 (x a) (- y a)) in *.
  set (B := m_atan2 atan2 (x b) (- y b)) in *.
  eexists _, _. split; [exact E1|]. split; [exact E2|].
  destruct (Fmirrored_degrees _ _ (Fsub_swap A B FA FB)) as [E | [Z2 Z1]].
  - rewrite E.
    destruct (normalize_mirrored (degrees (B - A)) B1) as [H | H]; [left; exact H|].
    right. apply Fmirrored_eqb; [|exact H].
    destruct (normalize_range (degrees (B - A)) B1) as [Hlo Hhi].
    apply (Ffinite_not_nan_inf _
             (Ffinite_between (-180) 180 _ eq_refl eq_refl (Fleb_of_ltb _ _ Hlo) Hhi)).
  - rewrite Z1, Z2. right. reflexivity.
Qed.

Lemma angle_antisymmetric_witness :
  exists r1 r2,
    Vector2.angle axis_atan2 (Vec 0 Vector2_cls 1 0) (VVec (Vec 1 Vector2_cls 0 1)) 2%N
      = (Ret r1, 2%N)
    /\ Vector2.angle axis_atan2 (Vec 1 Vector2_cls 0 1) (VVec (Vec 0 Vector2_cls 1 0)) 2%N
      = (Ret r2, 2%N)
    /\ ((r1 = 180 /\ r2 = 180) \/ (r2 =? - r1) = true).
Proof.
  apply (angle_antisymmetric axis_atan2 (Vec 0 Vector2_cls 1 0) (Vec 1 Vector2_cls 0 1) 2%N);
    [exact axis_atan2_in_range | reflexivity ..].
Defined.

(** ** The Pythagorean identity of the stabilized pair *)

(** X28: The stabilized pair of [_trig] satisfies the Pythagorean
    identity exactly: with libm's cosine and sine no larger than one in
    magnitude, and the square of the trusted one (the larger in
    magnitude) at least one half, [_trig] returns the trusted value
    unchanged and the other as [copysign(sqrt(1 - trusted^2), other)],
    and [r_cos * r_cos + r_sin * r_sin] is the binary64 number [1.0],
    the three roundings included. *)
Theorem trig_identity_exact (cos sin : float -> float) (angle : float) :
  let c := cos (radians angle) in
  let s := sin (radians angle) in
  let trusted := if abs s <? abs c then c else s in
  (abs c <=? 1) = true -> (abs s <=? 1) = true ->
  (0.5 <=? trusted * trusted) = true ->
  exists w r_cos r_sin,
    math_sqrt (1 - trusted * trusted) = Ret w
    /\ Vector2._trig cos sin angle = Ret (r_cos, r_sin)
    /\ (r_cos, r_sin) = (if abs s <? abs c then (c, copysign w s) else (copysign w c, s))
    /\ r_cos * r_cos + r_sin * r_sin = 1.
Proof.
  intros c s trusted Hc Hs Hhalf.
  destruct (Fleb_one_finite _ Hc) as [Hcn Hci].
  destruct (Fleb_one_finite _ Hs) as [Hsn Hsi].
  assert ((abs trusted <=? 1) = true) as Ht
    by (unfold trusted; destruct (abs s <? abs c); assumption).
  destruct (sqrt_of_complement (trusted * trusted) Hhalf (square_le_one _ Ht))
    as (w & Hw & _ & E1 & E2).
  unfold Vector2._trig. cbv zeta. fold c s.
  rewrite (math_1_finite cos _ Hcn Hci), (math_1_finite sin _ Hsn Hsi).
  fold c s. unfold trusted in *.
  destruct (abs s <? abs c).
  - exists w, c, (copysign w s). rewrite Hw, copysign_square. repeat split; assumption.
  - exists w, (copysign w c), s. rewrite Hw, copysign_square. repeat split; assumption.
Qed.

Lemma trig_identity_exact_witness :
  exists w r_cos r_sin,
    math_sqrt (1 - 1 * 1) = Ret w
    /\ Vector2._trig axis_cos axis_sin 0 = Ret (r_cos, r_sin)
    /\ (r_cos, r_sin) = (1, copysign w 0)
    /\ r_cos * r_cos + r_sin * r_sin = 1.
Proof.
  apply (trig_identity_exact axis_cos axis_sin 0); reflexivity.
Defined.

(** ** The stabilization of the cosine and sine *)

Lemma get_sign_spec (f : float) :
  get_sign f = match Prim2SF f with
               | S754_zero s | S754_infinity s | S754_finite s _ _ => s
               | S754_nan => false
               end.
Proof.
  unfold get_sign, is_zero. cbv zeta.
  rewrite FloatAxioms.ltb_spec, FloatAxioms.eqb_spec.
  replace (Prim2SF zero) with (S754_zero false) by reflexivity.
  destruct (Prim2SF f) as [[]|[]| |[] m e] eqn:E; cbn [SFeqb SFcompare];
    cbv iota; rewrite ?div_spec, E; reflexivity.
Qed.

(** [copysign] gives its result the sign bit of its second argument. *)
Lemma get_sign_copysign (w b : float) :
  is_nan w = false -> get_sign (copysign w b) = get_sign b.
Proof.
  intros Hw. unfold is_nan in Hw. rewrite FloatAxioms.eqb_spec in Hw.
  unfold copysign. destruct (get_sign b).
  - rewrite get_sign_spec, opp_spec, abs_spec.
    destruct (Prim2SF w); try reflexivity. discriminate Hw.
  - rewrite get_sign_spec, abs_spec. destruct (Prim2SF w); reflexivity.
Qed.

(** C2: [_trig] takes libm's cosine and sine, keeps the one that is
    larger in magnitude (the sine when the magnitudes are equal) and
    recomputes the other as [copysign(sqrt(1 - trusted^2), other)].
    With the two libm values no larger than one in magnitude and the
    square of the trusted one at least one half, it returns that pair,
    each component has the sign bit of the libm value it replaces, and
    [r_cos * r_cos + r_sin * r_sin] is the binary64 number [1.0], so
    [math.isclose] accepts it with [rel_tol=1e-18]. *)
Theorem trig_stabilization (cos sin : float -> float) (angle : float) :
  let c := cos (radians angle) in
  let s := sin (radians angle) in
  let trusted := if abs s <? abs c then c else s in
  (abs c <=? 1) = true -> (abs s <=? 1) = true ->
  (0.5 <=? trusted * trusted) = true ->
  exists w r_cos r_sin,
    math_sqrt (1 - trusted * trusted) = Ret w
    /\ Vector2._trig cos sin angle = Ret (r_cos, r_sin)
    /\ (r_cos, r_sin) = (if abs s <? abs c then (c, copysign w s) else (copysign w c, s))
    /\ get_sign r_cos = get_sign c
    /\ get_sign r_sin = get_sign s
    /\ r_cos * r_cos + r_sin * r_sin = 1
    /\ math_isclose (r_cos * r_cos + r_sin * r_sin) 1 identity_rel_tol 0 = Ret true.
Proof.
  intros c s trusted Hc Hs Hhalf.
  destruct (Fleb_one_finite _ Hc) as [Hcn Hci].
  destruct (Fleb_one_finite _ Hs) as [Hsn Hsi].
  assert ((abs trusted <=? 1) = true) as Ht
    by (unfold trusted; destruct (abs s <? abs c); assumption).
  destruct (sqrt_of_complement (trusted * trusted) Hhalf (square_le_one _ Ht))
    as (w & Hw & Hwn & E1 & E2).
  unfold Vector2._trig. cbv zeta. fold c s.
  rewrite (math_1_finite cos _ Hcn Hci), (math_1_finite sin _ Hsn Hsi).
  fold c s. unfold trusted in *.
  destruct (abs s <? abs c).
  - exists w, c, (copysign w s). rewrite Hw, copysign_square, E1.
    split; [reflexivity|]. split; [reflexivity|]. split; [reflexivity|].
    split; [reflexivity|]. split; [exact (get_sign_copysign w s Hwn)|].
    split; reflexivity.
  - exists w, (copysign w c), s. rewrite Hw, copysign_square, E2.
    split; [reflexivity|]. split; [reflexivity|]. split; [reflexivity|].
    split; [exact (get_sign_copysign w c Hwn)|]. split; [reflexivity|].
    split; reflexivity.
Qed.

Lemma trig_stabilization_witness :
  (exists w r_cos r_sin,
     math_sqrt (1 - (-0x1.bb67ae8584cabp-1) * (-0x1.bb67ae8584cabp-1)) = Ret w
     /\ Vector2._trig sample_cos sample_sin (-120) = Ret (r_cos, r_sin)
     /\ (r_cos, r_sin) = (copysign w (-0x1.ffffffffffffcp-2), -0x1.bb67ae8584cabp-1)
     /\ get_sign r_cos = true
     /\ get_sign r_sin = true
     /\ r_cos * r_cos + r_sin * r_sin = 1
     /\ math_isclose (r_cos * r_cos + r_sin * r_sin) 1 identity_rel_tol 0 = Ret true)
  /\ Vector2._trig sample_cos sample_sin (-120)
     = Ret (-0x1.ffffffffffffep-2, -0x1.bb67ae8584cabp-1).
Proof.
  split; [|reflexivity].
  apply (trig_stabilization sample_cos sample_sin (-120)); reflexivity.
Defined.

(** On a NaN angle libm's cosine and sine are NaN, and so is the pair
    that [_trig] returns: the identity does not hold of it. *)
Lemma trig_of_nan_is_nan :
  Vector2._trig sample_cos sample_sin nan = Ret (nan, nan)
  /\ math_isclose (nan * nan + nan * nan) 1 identity_rel_tol 0 = Ret false.
Proof. split; reflexivity. Qed.
